(** * TradingBot_Backtesting: indicators and signal rules of CustomRSIStrategy

    A shallow embedding of [TradingBot_Backtesting.py].  Prices, volumes and
    indicator values are IEEE-754 binary64 numbers (Python [float],
    numpy [float64]); they are modelled by Rocq's primitive [float], so that
    NaN, the infinities, signed zeros and rounding behave as they do in the
    script.  A pandas Series or numpy array is a [list float]; a Python
    call that raises is [None].

    The script's own functions are [get_binance_4h_data], [custom_rsi],
    [safe_sma], [CustomRSIStrategy.init] and [CustomRSIStrategy.next].  They
    call
    pandas ([rolling().mean()], [diff], [shift], [ewm().mean()]), pandas_ta
    ([sma], [rma], [rsi], [true_range], [atr]) and backtesting.py
    ([crossover], [Strategy.I]).  These are not part of the script; they
    are given here as executable definitions that follow the libraries'
    Python code, each quoting the lines it stands for.  pandas_ta is taken
    as released (0.3.14b0) and without TA-Lib (the script does not import
    it), so that [rsi] and [atr] run their pandas code. *)

From Stdlib Require Import List ZArith Bool Lia Floats.
From Stdlib Require Strings.String.
Import ListNotations.
Import String.StringSyntax.
Delimit Scope string_scope with string.

(** ** Python values *)

(** A Python expression either yields a value or raises; [None] stands for
    the raised exception, and for the [None] a pandas_ta indicator returns
    when its input is too short. *)
Definition bind {A B : Type} (x : option A) (k : A -> option B) : option B :=
  match x with
  | Some a => k a
  | None => None
  end.

Notation "'let?' x ':=' e 'in' k" := (bind e (fun x => k))
  (at level 10, x name, e at level 100, k at level 200).

Module Py.

(** [a > b] on floats: false as soon as one side is NaN. *)
Definition gt (a b : float) : bool := PrimFloat.ltb b a.
Definition lt (a b : float) : bool := PrimFloat.ltb a b.
Definition ge (a b : float) : bool := PrimFloat.leb b a.
Definition le (a b : float) : bool := PrimFloat.leb a b.

(** [np.isnan]. *)
Definition isnan (a : float) : bool := PrimFloat.is_nan a.

(** [s[-k]] for [k >= 1]: the k-th element from the end, IndexError when
    the sequence has fewer than [k] elements. *)
Definition neg_index (s : list float) (k : nat) : option float :=
  nth_error (rev s) (k - 1).

(** [s[:n]]. *)
Definition slice_to (n : nat) (s : list float) : list float := firstn n s.

End Py.

(** ** backtesting.lib.crossover

    The script imports [crossover] from backtesting.py (line 11).  Its code is

      series1 = (series1.values if isinstance(series1, pd.Series) else
                 (series1, series1) if isinstance(series1, Number) else series1)
      (the same for series2)
      try:
          return series1[-2] < series2[-2] and series1[-1] > series2[-1]
      except IndexError:
          return False
*)
Module Lib.

(** An argument of [crossover]: an array or a number. *)
Inductive arg : Type :=
| Series (s : list float)
| Number (x : float).

Definition as_sequence (a : arg) : list float :=
  match a with
  | Series s => s
  | Number x => [x; x]
  end.

Definition crossover (series1 series2 : arg) : bool :=
  let s1 := as_sequence series1 in
  let s2 := as_sequence series2 in
  match Py.neg_index s1 2, Py.neg_index s2 2 with
  | Some a2, Some b2 =>
      if Py.lt a2 b2 then
        match Py.neg_index s1 1, Py.neg_index s2 1 with
        | Some a1, Some b1 => Py.gt a1 b1
        | _, _ => false
        end
      else false
  | _, _ => false
  end.

End Lib.

(** ** CustomRSIStrategy: parameters, state and [next] *)

(** The class attributes of [CustomRSIStrategy] (lines 128-136). *)
Record Params : Type := mkParams {
  rsi_period : nat;
  sma_period : nat;
  atr_period : nat;
  atr_multiplier_sl : float;
  atr_multiplier_tp : float;
  buy_threshold : float;
  sell_threshold : float
}.

Definition default_params : Params :=
  mkParams 21 50 14 1.5%float 5%float 55%float 45%float.

(** [self.position] as the strategy sees it: it is only tested for truth
    (a position of size zero is false).  The strategy opens long positions
    only. *)
Inductive PositionState : Type := FLAT | LONG.

Definition position_bool (p : PositionState) : bool :=
  match p with
  | FLAT => false
  | LONG => true
  end.

(** What [next] asks of the engine: [self.buy(sl=.., tp=..)] is [OpenLong],
    [self.position.close()] (the whole position) is [CloseLong]. *)
Inductive Intent : Type :=
| OpenLong (sl tp : float)
| CloseLong.

(** What [self] holds when [next] runs: the data and the three indicators,
    each cut by the engine to the bars seen so far, and the position. *)
Record View : Type := mkView {
  v_Close : list float;
  v_rsi : list float;
  v_sma : list float;
  v_atr : list float;
  v_position : PositionState
}.

(** Line 160, the condition of the early return:
    [np.isnan(self.sma[-1]) or np.isnan(self.atr[-1])]. *)
Definition indicators_not_ready (v : View) : option bool :=
  let? s := Py.neg_index (v_sma v) 1 in
  if Py.isnan s then Some true
  else let? a := Py.neg_index (v_atr v) 1 in Some (Py.isnan a).

(** Line 170, the condition of the [if]; [and] evaluates its right operand
    only when the left one is true. *)
Definition buy_condition (p : Params) (v : View) (current_price : float)
    : option bool :=
  if negb (position_bool (v_position v)) then
    if Lib.crossover (Lib.Series (v_rsi v)) (Lib.Number (buy_threshold p)) then
      let? s := Py.neg_index (v_sma v) 1 in Some (Py.gt current_price s)
    else Some false
  else Some false.

(** Line 174, the condition of the [elif]. *)
Definition sell_condition (p : Params) (v : View) : bool :=
  if position_bool (v_position v) then
    Lib.crossover (Lib.Number (sell_threshold p)) (Lib.Series (v_rsi v))
  else false.

(** [CustomRSIStrategy.next] (lines 155-175): the list of the calls it makes
    to the engine, in order; [None] if an index is out of range. *)
Definition next (p : Params) (v : View) : option (list Intent) :=
  let? skip := indicators_not_ready v in
  if skip then Some []
  else
    let? current_price := Py.neg_index (v_Close v) 1 in
    let? a := Py.neg_index (v_atr v) 1 in
    let stop_loss := (current_price - atr_multiplier_sl p * a)%float in
    let take_profit := (current_price + atr_multiplier_tp p * a)%float in
    let? buy := buy_condition p v current_price in
    if buy then Some [OpenLong stop_loss take_profit]
    else if sell_condition p v then Some [CloseLong]
    else Some [].

(** The engine calls [next] at bar [i] with every array cut to [[:i+1]]. *)
Definition view_at (Close rsi sma atr : list float) (pos : PositionState)
    (i : nat) : View :=
  mkView (Py.slice_to (S i) Close) (Py.slice_to (S i) rsi)
         (Py.slice_to (S i) sma) (Py.slice_to (S i) atr) pos.

Definition next_at (p : Params) (Close rsi sma atr : list float)
    (pos : PositionState) (i : nat) : option (list Intent) :=
  next p (view_at Close rsi sma atr pos i).

(** ** pandas: the Series operations the script uses

    All the Series of the script share one index (the bar timestamps), so
    arithmetic between two Series is position by position. *)
Module Pandas.

Definition nan : float := PrimFloat.nan.

(** [len(s)] as a float, as in the division of a window sum by its size. *)
Definition float_of_nat (n : nat) : float :=
  PrimFloat.of_uint63 (Uint63.of_Z (Z.of_nat n)).

(** [a op b] for two Series. *)
Fixpoint zip_with (f : float -> float -> float) (xs ys : list float)
    : list float :=
  match xs, ys with
  | x :: xs', y :: ys' => f x y :: zip_with f xs' ys'
  | _, _ => []
  end.

(** The mean of one window of [s.rolling(window).mean()], [recent] being
    the values up to the current one, newest first.  With the default
    [min_periods = window] the result is NaN until [window] values are
    there and whenever one of them is NaN; a window of size 0 is always
    NaN.  (pandas keeps the window's sum incrementally, with a
    compensation term, adding the value that enters and removing the one
    that leaves; the sum below adds the window's values from the oldest to
    the newest.  The two agree on where the NaN of [min_periods] and of NaN
    values stand; the numbers can differ in the last bit, and after an
    infinity or an overflowing sum has passed through the window pandas'
    running sum stays NaN where the sum below is a number again.  The
    theorems below use where the NaN stand and which values a mean depends
    on; the examples evaluate means of a few small numbers, on which the
    two sums agree.) *)
Definition window_mean (window : nat) (recent : list float) : float :=
  let w := firstn window recent in
  if (0 <? window) && (length w =? window)
     && forallb (fun x => negb (Py.isnan x)) w
  then (fold_left PrimFloat.add (rev w) 0 / float_of_nat window)%float
  else nan.

Fixpoint rolling_from (window : nat) (recent xs : list float) : list float :=
  match xs with
  | [] => []
  | x :: rest =>
      window_mean window (x :: recent) :: rolling_from window (x :: recent) rest
  end.

(** [s.rolling(window).mean()]. *)
Definition rolling_mean (window : nat) (s : list float) : list float :=
  rolling_from window [] s.

Fixpoint diff_from (prev : float) (xs : list float) : list float :=
  match xs with
  | [] => []
  | x :: rest => (x - prev)%float :: diff_from x rest
  end.

(** [s.diff(1)]: NaN first, then [s[i] - s[i-1]]. *)
Definition diff (s : list float) : list float :=
  match s with
  | [] => []
  | x :: rest => nan :: diff_from x rest
  end.

Fixpoint shift_from (prev : float) (xs : list float) : list float :=
  match xs with
  | [] => []
  | x :: rest => prev :: shift_from x rest
  end.

(** [s.shift(1)]: NaN first, then the values moved one place down; the last
    one is dropped. *)
Definition shift (s : list float) : list float := shift_from nan s.

(** The state of the loop of [s.ewm(alpha=.., min_periods=..).mean()]
    (pandas/_libs/window/aggregations.pyx, [ewm], with the defaults
    [adjust=True], [ignore_na=False]). *)
Record ewm_state : Type := mk_ewm {
  weighted : float;
  old_wt : float;
  nobs : nat
}.

Definition is_observation (x : float) : bool := PrimFloat.eqb x x.

(** One turn of the loop:

      is_observation = cur == cur
      nobs += is_observation
      if weighted == weighted:
          old_wt *= old_wt_factor
          if is_observation:
              if weighted != cur:
                  weighted = old_wt * weighted + new_wt * cur
                  weighted = weighted / (old_wt + new_wt)
              old_wt += new_wt
      elif is_observation:
          weighted = cur
*)
Definition ewm_step (old_wt_factor new_wt : float) (st : ewm_state)
    (cur : float) : ewm_state :=
  let n := if is_observation cur then S (nobs st) else nobs st in
  if is_observation (weighted st) then
    let ow := (old_wt st * old_wt_factor)%float in
    if is_observation cur then
      let w :=
        if negb (PrimFloat.eqb (weighted st) cur)
        then ((ow * weighted st + new_wt * cur) / (ow + new_wt))%float
        else weighted st in
      mk_ewm w (ow + new_wt)%float n
    else mk_ewm (weighted st) ow n
  else if is_observation cur then mk_ewm cur (old_wt st) n
  else mk_ewm (weighted st) (old_wt st) n.

(** [output[i] = weighted if nobs >= minp else NaN]. *)
Definition ewm_output (minp : nat) (st : ewm_state) : float :=
  if minp <=? nobs st then weighted st else nan.

Fixpoint ewm_from (f w : float) (minp : nat) (st : ewm_state)
    (xs : list float) : list float :=
  match xs with
  | [] => []
  | x :: rest =>
      let st' := ewm_step f w st x in
      ewm_output minp st' :: ewm_from f w minp st' rest
  end.

(** [s.ewm(alpha=alpha, min_periods=min_periods).mean()]: pandas turns
    [alpha] into the centre of mass [(1 - alpha) / alpha] and back. *)
Definition ewm_mean (alpha : float) (min_periods : nat) (s : list float)
    : list float :=
  let com := ((1 - alpha) / alpha)%float in
  let a := (1 / (1 + com))%float in
  let old_wt_factor := (1 - a)%float in
  let minp := Nat.max min_periods 1 in
  match s with
  | [] => []
  | x :: rest =>
      let st := mk_ewm x 1 (if is_observation x then 1 else 0) in
      ewm_output minp st :: ewm_from old_wt_factor 1 minp st rest
  end.

(** The row maximum of [DataFrame.max(axis=1)], which skips NaN. *)
Definition nanmax (a b : float) : float :=
  if Py.isnan a then b
  else if Py.isnan b then a
  else if PrimFloat.ltb a b then b else a.

End Pandas.

(** ** pandas_ta: [sma], [rma], [rsi], [true_range], [atr]

    Every indicator of pandas_ta first passes its input through
    [verify_series(series, min_length)], which gives [None] for a Series
    shorter than [min_length]; the indicator then returns [None]. *)
Module TA.

(** [length = int(length) if length and length > 0 else default]. *)
Definition length_or (default length : nat) : nat :=
  match length with
  | O => default
  | S _ => length
  end.

Definition verify_series (s : list float) (min_length : nat)
    : option (list float) :=
  if length s <? min_length then None else Some s.

(** [ta.sma(close, length)]:
    [close.rolling(length, min_periods=length).mean()]. *)
Definition sma (close : list float) (length : nat) : option (list float) :=
  let n := length_or 10 length in
  let? c := verify_series close n in
  Some (Pandas.rolling_mean n c).

(** [ta.rma(close, length)]:
    [close.ewm(alpha=1.0 / length, min_periods=length).mean()]. *)
Definition rma (close : list float) (length : nat) : option (list float) :=
  let n := length_or 10 length in
  let alpha := (1 / Pandas.float_of_nat n)%float in
  let? c := verify_series close n in
  Some (Pandas.ewm_mean alpha n c).

(** [positive[positive < 0] = 0] and [negative[negative > 0] = 0]. *)
Definition clip_negative (x : float) : float :=
  if Py.lt x 0 then 0%float else x.
Definition clip_positive (x : float) : float :=
  if Py.gt x 0 then 0%float else x.

(** The last line of [ta.rsi]:
    [scalar * positive_avg / (positive_avg + negative_avg.abs())]
    with [scalar = 100]. *)
Definition rsi_value (positive_avg negative_avg : float) : float :=
  (100 * positive_avg / (positive_avg + PrimFloat.abs negative_avg))%float.

(** [ta.rsi(close, length)]:

      negative = close.diff(1)
      positive = negative.copy()
      positive[positive < 0] = 0
      negative[negative > 0] = 0
      positive_avg = rma(positive, length=length)
      negative_avg = rma(negative, length=length)
      rsi = scalar * positive_avg / (positive_avg + negative_avg.abs())
*)
Definition rsi_averages (close : list float) (length : nat)
    : option (list float * list float) :=
  let n := length_or 14 length in
  let? c := verify_series close n in
  let negative := Pandas.diff c in
  let positive := map clip_negative negative in
  let negative := map clip_positive negative in
  let? positive_avg := rma positive n in
  let? negative_avg := rma negative n in
  Some (positive_avg, negative_avg).

Definition rsi (close : list float) (length : nat) : option (list float) :=
  let? avgs := rsi_averages close length in
  Some (Pandas.zip_with rsi_value (fst avgs) (snd avgs)).

(** [sys.float_info.epsilon]. *)
Definition epsilon : float := 0x1p-52%float.

(** [non_zero_range(high, low)]:

      diff = high - low
      if diff.eq(0).any().any():
          diff += sflt.epsilon
      return diff
*)
Definition non_zero_range (high low : list float) : list float :=
  let d := Pandas.zip_with PrimFloat.sub high low in
  if existsb (fun x => PrimFloat.eqb x 0) d
  then map (fun x => (x + epsilon)%float) d
  else d.

(** [true_range(high, low, close)]:

      high_low_range = non_zero_range(high, low)
      prev_close = close.shift(1)
      ranges = [high_low_range, high - prev_close, prev_close - low]
      true_range = concat(ranges, axis=1)
      true_range = true_range.abs().max(axis=1)
      true_range.iloc[:1] = nan
*)
Definition range_max (a b c : float) : float :=
  Pandas.nanmax (Pandas.nanmax (PrimFloat.abs a) (PrimFloat.abs b))
                (PrimFloat.abs c).

Fixpoint zip_with3 (f : float -> float -> float -> float)
    (xs ys zs : list float) : list float :=
  match xs, ys, zs with
  | x :: xs', y :: ys', z :: zs' => f x y z :: zip_with3 f xs' ys' zs'
  | _, _, _ => []
  end.

Definition true_range (high low close : list float) : list float :=
  let high_low_range := non_zero_range high low in
  let prev_close := Pandas.shift close in
  let r2 := Pandas.zip_with PrimFloat.sub high prev_close in
  let r3 := Pandas.zip_with PrimFloat.sub prev_close low in
  match zip_with3 range_max high_low_range r2 r3 with
  | [] => []
  | _ :: rest => Pandas.nan :: rest
  end.

(** [ta.atr(high, low, close, length)] with the default [mamode="rma"]. *)
Definition atr (high low close : list float) (length : nat)
    : option (list float) :=
  let n := length_or 14 length in
  let? h := verify_series high n in
  let? l := verify_series low n in
  let? c := verify_series close n in
  rma (true_range h l c) n.

End TA.

(** ** The script's indicator functions *)

(** One row of the DataFrame returned by [get_binance_4h_data]. *)
Record Bar : Type := mkBar {
  Open : float;
  High : float;
  Low : float;
  Close : float;
  Volume : float
}.

(** A DataFrame is its rows; a column is read off them. *)
Definition DataFrame : Type := list Bar.

Definition column (f : Bar -> float) (data : DataFrame) : list float :=
  map f data.

(** [custom_rsi(data, length)] (lines 79-99). *)
Definition hlc3 (data : DataFrame) : list float :=
  map (fun x => (x / 3)%float)
      (Pandas.zip_with PrimFloat.add
         (Pandas.zip_with PrimFloat.add (column High data) (column Low data))
         (column Close data)).

Definition volume_average (data : DataFrame) (length : nat) : list float :=
  Pandas.rolling_mean length (column Volume data).

Definition normalized_volume (data : DataFrame) (length : nat) : list float :=
  Pandas.zip_with PrimFloat.div (column Volume data)
    (volume_average data length).

(** The series [hlc3 * normalized_volume] handed to [ta.rsi]. *)
Definition adjusted_price (data : DataFrame) (length : nat) : list float :=
  Pandas.zip_with PrimFloat.mul (hlc3 data) (normalized_volume data length).

Definition custom_rsi (data : DataFrame) (length : nat) : option (list float) :=
  TA.rsi (adjusted_price data length) length.

(** The two Wilder averages inside [custom_rsi]: of the gains and of the
    losses (the latter negative or zero). *)
Definition custom_rsi_averages (data : DataFrame) (length : nat)
    : option (list float * list float) :=
  TA.rsi_averages (adjusted_price data length) length.

(** [safe_sma(close_prices, period)] (lines 102-115); [None] is the
    AttributeError of [None.values]. *)
Definition safe_sma (close_prices : list float) (period : nat)
    : option (list float) :=
  if length close_prices <? period
  then Some (repeat Pandas.nan (length close_prices))
  else TA.sma close_prices period.

(** [Strategy.I(func, ...)] of backtesting.py: the value [func] returned
    becomes an array, and the call raises a ValueError unless that array is
    as long as the data. *)
Definition Strategy_I (data : DataFrame) (value : option (list float))
    : option (list float) :=
  let? v := value in
  if length v =? length data then Some v else None.

Record Indicators : Type := mkIndicators {
  ind_rsi : list float;
  ind_sma : list float;
  ind_atr : list float
}.

(** [CustomRSIStrategy.init] (lines 138-153). *)
Definition init (p : Params) (data : DataFrame) : option Indicators :=
  let? r := Strategy_I data (custom_rsi data (rsi_period p)) in
  let? s := Strategy_I data (safe_sma (column Close data) (sma_period p)) in
  let? a := Strategy_I data (TA.atr (column High data) (column Low data)
                           (column Close data) (atr_period p)) in
  Some (mkIndicators r s a).

(** The calls [next] makes at bar [i] of a run over [data]. *)
Definition run_bar (p : Params) (data : DataFrame) (pos : PositionState)
    (i : nat) : option (list Intent) :=
  let? ind := init p data in
  next_at p (column Close data) (ind_rsi ind) (ind_sma ind) (ind_atr ind) pos i.

(** ** [get_binance_4h_data] (lines 35-72) *)

(** The exceptions the function can end with: the ValueError of
    [pd.DataFrame] when the rows do not have the twelve columns named (it
    tells how many were passed), the error of [pd.to_datetime] on a
    timestamp, the ValueError of [astype(float)] on a cell, and the
    ValueError of line 70 with the number of rows received. *)
Inductive Exception : Type :=
| ColumnsError (passed : nat)
| DatetimeError
| FloatError
| NotEnoughData (rows : nat).

Inductive Outcome (A : Type) : Type :=
| Returns (a : A)
| Raises (e : Exception).

Arguments Returns {A} a.
Arguments Raises {A} e.

(** A conversion applied to every element: the list of the results, or
    nothing if one of them failed. *)
Fixpoint all_some {A : Type} (xs : list (option A)) : option (list A) :=
  match xs with
  | [] => Some []
  | None :: _ => None
  | Some a :: rest =>
      match all_some rest with
      | Some l => Some (a :: l)
      | None => None
      end
  end.

(** The floats of one kline, the timestamp being the index: the five
    columns the function keeps are the first five. *)
Definition bar_of_floats (r : list float) : Bar :=
  mkBar (nth 0 r Pandas.nan) (nth 1 r Pandas.nan) (nth 2 r Pandas.nan)
        (nth 3 r Pandas.nan) (nth 4 r Pandas.nan).

Section Klines.

(** A value of the JSON the exchange answers with (a number or a string),
    Python's [None], the two conversions pandas applies to such a value,
    and [client.get_historical_klines] of the client of line 28. *)
Variable Cell : Type.
Variable none : Cell.
Variable to_datetime : Cell -> option Z.
Variable to_float : Cell -> option float.
Variable get_historical_klines :
  String.string -> String.string -> String.string -> String.string ->
  list (list Cell).

(** [pd.DataFrame(rows, columns=[...])] for a list of lists: the rows are
    laid out in an array as wide as the longest one, the shorter ones
    filled up with [None], and the call raises unless that width is the
    number of column names; no row at all gives the empty frame. *)
Definition widest (rows : list (list Cell)) : nat :=
  fold_right (fun row k => Nat.max (length row) k) 0 rows.

Definition fill (k : nat) (row : list Cell) : list Cell :=
  row ++ repeat none (k - length row).

Definition frame_of_rows (columns : nat) (rows : list (list Cell))
    : Outcome (list (list Cell)) :=
  match rows with
  | [] => Returns []
  | _ :: _ =>
      if widest rows =? columns then Returns (map (fill columns) rows)
      else Raises (ColumnsError (widest rows))
  end.

(** Lines 55-72.  The twelve columns are timestamp, Open, High, Low, Close,
    Volume and six more; the timestamp becomes the index, every other
    column is converted to float, fewer than 200 rows are refused, and the
    first five columns are returned. *)
Definition get_binance_4h_data
    (symbol interval start_str end_str : String.string) : Outcome DataFrame :=
  let historical_klines :=
    get_historical_klines symbol interval start_str end_str in
  match frame_of_rows 12 historical_klines with
  | Raises e => Raises e
  | Returns df =>
      match all_some (map (fun row => to_datetime (nth 0 row none)) df) with
      | None => Raises DatetimeError
      | Some _ =>
          match all_some (map (fun row => all_some (map to_float (tl row)))
                              df) with
          | None => Raises FloatError
          | Some rows =>
              if length rows <? 200
              then Raises (NotEnoughData (length rows))
              else Returns (map bar_of_floats rows)
          end
      end
  end.

(** Line 184: the call with the default arguments. *)
Definition binance_data : Outcome DataFrame :=
  get_binance_4h_data "BTCUSDT"%string "4h"%string "2015-01-01"%string
                      "2025-02-16"%string.

End Klines.

(** ** Predicates of the specification *)

(** A finite non-zero float. *)
Definition finite_nonzero (x : float) : bool :=
  PrimFloat.is_finite x && negb (PrimFloat.eqb x 0).

(** A value is defined when it is not NaN. *)
Definition defined (x : float) : bool := negb (Py.isnan x).

(** [ready(i)]: the SMA and the ATR are defined at bar [i]. *)
Definition ready (sma atr : list float) (i : nat) : bool :=
  match nth_error sma i, nth_error atr i with
  | Some s, Some a => defined s && defined a
  | _, _ => false
  end.

(** The series goes from below [level] at bar [i-1] to above it at bar [i]
    (strictly on both sides); false at bar 0 and when a value is NaN. *)
Definition crosses_above (s : list float) (level : float) (i : nat) : bool :=
  match i with
  | O => false
  | S j =>
      match nth_error s j, nth_error s i with
      | Some x0, Some x1 => Py.lt x0 level && Py.gt x1 level
      | _, _ => false
      end
  end.

(** The series goes from above [level] at bar [i-1] to below it at bar [i]
    (strictly on both sides). *)
Definition crosses_below (s : list float) (level : float) (i : nat) : bool :=
  match i with
  | O => false
  | S j =>
      match nth_error s j, nth_error s i with
      | Some x0, Some x1 => Py.gt x0 level && Py.lt x1 level
      | _, _ => false
      end
  end.

(** The crossover as section 4.3 of the specification words it:
    [s[i-1] <= level] and [s[i] > level]. *)
Definition spec_crossover (s : list float) (level : float) (i : nat) : bool :=
  match i with
  | O => false
  | S j =>
      match nth_error s j, nth_error s i with
      | Some x0, Some x1 => Py.le x0 level && Py.gt x1 level
      | _, _ => false
      end
  end.

(** The crossunder as section 4.3 words it:
    [s[i-1] >= level] and [s[i] < level]. *)
Definition spec_crossunder (s : list float) (level : float) (i : nat) : bool :=
  match i with
  | O => false
  | S j =>
      match nth_error s j, nth_error s i with
      | Some x0, Some x1 => Py.ge x0 level && Py.lt x1 level
      | _, _ => false
      end
  end.

Definition is_open_long (x : Intent) : bool :=
  match x with
  | OpenLong _ _ => true
  | CloseLong => false
  end.

Definition is_close_long (x : Intent) : bool :=
  match x with
  | OpenLong _ _ => false
  | CloseLong => true
  end.

(** The stop-loss and take-profit levels of lines 166-167. *)
Definition stop_loss_level (p : Params) (close atr : float) : float :=
  (close - atr_multiplier_sl p * atr)%float.

Definition take_profit_level (p : Params) (close atr : float) : float :=
  (close + atr_multiplier_tp p * atr)%float.

(** What [next] does at a bar, rule by rule. *)
Definition decision (p : Params) (Close rsi sma atr : list float)
    (pos : PositionState) (i : nat) (c s a : float) : list Intent :=
  if negb (ready sma atr i) then []
  else if negb (position_bool pos)
          && crosses_above rsi (buy_threshold p) i && Py.gt c s
  then [OpenLong (stop_loss_level p c a) (take_profit_level p c a)]
  else if position_bool pos && crosses_below rsi (sell_threshold p) i
  then [CloseLong]
  else [].

(** The first [k] entries of a series are NaN. *)
Definition leading_nan (k : nat) (s : list float) : Prop :=
  Forall (fun x => x = Pandas.nan) (firstn k s).

(** Some bar of the data has [High - Low == 0]. *)
Definition has_zero_range (data : DataFrame) : bool :=
  existsb (fun x => PrimFloat.eqb x 0)
    (Pandas.zip_with PrimFloat.sub (column High data) (column Low data)).

(** A finite float above zero. *)
Definition finite_positive (x : float) : bool :=
  PrimFloat.is_finite x && PrimFloat.ltb 0 x.

(** NaN, or a float that is at least zero. *)
Definition nonneg_or_nan (x : float) : bool :=
  Py.isnan x || PrimFloat.leb 0 x.

(** The stop-loss and the take-profit an intent carries (NaN for a
    CloseLong, which has none). *)
Definition intent_sl (x : Intent) : float :=
  match x with
  | OpenLong sl _ => sl
  | CloseLong => Pandas.nan
  end.

Definition intent_tp (x : Intent) : float :=
  match x with
  | OpenLong _ tp => tp
  | CloseLong => Pandas.nan
  end.

(** ** The series behind the indicators, by name *)

(** The two averages [ta.rsi] works with, when the input is long enough. *)
Definition gains (close : list float) : list float :=
  map TA.clip_negative (Pandas.diff close).

Definition losses (close : list float) : list float :=
  map TA.clip_positive (Pandas.diff close).

Definition wilder (n : nat) (s : list float) : list float :=
  Pandas.ewm_mean (1 / Pandas.float_of_nat n)%float n s.

(** The series [custom_rsi] returns when it returns one. *)
Definition rsi_series (data : DataFrame) (n : nat) : list float :=
  Pandas.zip_with TA.rsi_value
    (wilder n (gains (adjusted_price data n)))
    (wilder n (losses (adjusted_price data n))).

(** The values of a series that [ewm] counts: those that are not NaN. *)
Definition observations (s : list float) : nat :=
  length (filter Pandas.is_observation s).

(** The Wilder average as the loop of [ewm] holds it, with nothing hidden
    by [min_periods]: [s.ewm(alpha=1.0 / n).mean()]. *)
Definition running_average (n : nat) (s : list float) : list float :=
  Pandas.ewm_mean (1 / Pandas.float_of_nat n)%float 1 s.

(** [non_zero_range] and [true_range] once it is known whether some bar has
    [High - Low == 0]. *)
Definition range_with (shifted : bool) (high low : list float) : list float :=
  let d := Pandas.zip_with PrimFloat.sub high low in
  if shifted then map (fun x => (x + TA.epsilon)%float) d else d.

Definition true_range_with (shifted : bool) (high low close : list float)
    : list float :=
  let prev_close := Pandas.shift close in
  match TA.zip_with3 TA.range_max (range_with shifted high low)
          (Pandas.zip_with PrimFloat.sub high prev_close)
          (Pandas.zip_with PrimFloat.sub prev_close low) with
  | [] => []
  | _ :: rest => Pandas.nan :: rest
  end.

(** ** Claims the code does not meet, as the specification states them *)

(** The open rule as the specification states it: with the crossover of
    section 4.3. *)
Definition spec_open_rule : Prop :=
  forall p Close rsi sma atr i c s a,
    nth_error Close i = Some c ->
    nth_error sma i = Some s ->
    nth_error atr i = Some a ->
    i < length rsi ->
    ready sma atr i = true ->
    spec_crossover rsi (buy_threshold p) i = true ->
    Py.gt c s = true ->
    next_at p Close rsi sma atr FLAT i
    = Some [OpenLong (stop_loss_level p c a) (take_profit_level p c a)].

(** The close rule as the specification states it: a LONG state and the
    crossunder of section 4.3 give one CloseLong. *)
Definition spec_close_rule : Prop :=
  forall p Close rsi sma atr i c s a,
    nth_error Close i = Some c ->
    nth_error sma i = Some s ->
    nth_error atr i = Some a ->
    i < length rsi ->
    spec_crossunder rsi (sell_threshold p) i = true ->
    next_at p Close rsi sma atr LONG i = Some [CloseLong].

(** The warm-up of the RSI as the specification states it: NaN below
    [length], a number from [length] on wherever the rolling volume average
    is a non-zero number. *)
Definition spec_rsi_warmup : Prop :=
  forall data n r,
    1 <= n ->
    custom_rsi data n = Some r ->
    forall i x,
      nth_error r i = Some x ->
      (i < n -> Py.isnan x = true)
      /\ (n <= i ->
          (forall j m, n <= j -> nth_error (volume_average data n) j = Some m ->
                       Py.isnan m = false /\ PrimFloat.eqb m 0 = false) ->
          Py.isnan x = false).

(** Division by zero as the specification states it: a NaN or zero rolling
    volume average gives a NaN normalized volume, and a zero Wilder average
    loss gives an RSI of 100. *)
Definition spec_division_by_zero : Prop :=
  (forall data n i v m nv,
      nth_error (column Volume data) i = Some v ->
      nth_error (volume_average data n) i = Some m ->
      Py.isnan m = true \/ PrimFloat.eqb m 0 = true ->
      nth_error (normalized_volume data n) i = Some nv ->
      Py.isnan nv = true)
  /\ (forall data n r avgs i l x,
         1 <= n ->
         custom_rsi data n = Some r ->
         custom_rsi_averages data n = Some avgs ->
         nth_error (snd avgs) i = Some l ->
         PrimFloat.eqb l 0 = true ->
         nth_error r i = Some x ->
         x = 100%float).

(** No look-ahead as the specification states it: two runs whose data
    agree on bars 0 to [i] have the same three indicator values at [i] and
    emit the same intents there. *)
Definition spec_no_lookahead : Prop :=
  forall p data1 data2 ind1 ind2 i,
    1 <= rsi_period p -> 1 <= sma_period p -> 1 <= atr_period p ->
    i < length data1 -> i < length data2 ->
    firstn (S i) data1 = firstn (S i) data2 ->
    init p data1 = Some ind1 ->
    init p data2 = Some ind2 ->
    nth_error (ind_rsi ind1) i = nth_error (ind_rsi ind2) i
    /\ nth_error (ind_sma ind1) i = nth_error (ind_sma ind2) i
    /\ nth_error (ind_atr ind1) i = nth_error (ind_atr ind2) i
    /\ forall pos, run_bar p data1 pos i = run_bar p data2 pos i.

(** The levels of an OpenLong as the specification states them: defined,
    on either side of the close, strictly when the ATR is positive. *)
Definition spec_levels_ordered : Prop :=
  forall p Close rsi sma atr pos i c s a out sl tp,
    finite_positive (atr_multiplier_sl p) = true ->
    finite_positive (atr_multiplier_tp p) = true ->
    nth_error Close i = Some c ->
    nth_error sma i = Some s ->
    nth_error atr i = Some a ->
    i < length rsi ->
    next_at p Close rsi sma atr pos i = Some out ->
    In (OpenLong sl tp) out ->
    Py.isnan sl = false /\ Py.isnan tp = false
    /\ Py.le sl c = true /\ Py.le c tp = true
    /\ (Py.gt a 0 = true -> Py.lt sl c = true /\ Py.lt c tp = true).

(** ** Sample data *)

(** A bar whose open, high, low and close are one price. *)
Definition bar_at (price volume : float) : Bar :=
  mkBar price price price price volume.

(** A bar at the price 3 with unit volume. *)
Definition flat_bar : Bar := mkBar 3 3 3 3 1.

(** Two hundred equal bars, the fewest [get_binance_4h_data] accepts. *)
Definition two_hundred_bars : DataFrame := repeat flat_bar 200.

(** Six equal bars: a market that does not move. *)
Definition six_flat_bars : DataFrame := repeat flat_bar 6.

(** Four bars of rising price and unit volume. *)
Definition rising_bars : DataFrame :=
  [bar_at 1 1; bar_at 2 1; bar_at 3 1; bar_at 4 1].

(** The first three of [rising_bars], then another last bar. *)
Definition rising_bars_then_jump : DataFrame :=
  [bar_at 1 1; bar_at 2 1; bar_at 3 1; bar_at 9 1].

(** Two bars whose volumes are zero and the smallest positive float: their
    mean over a window of two rounds to zero. *)
Definition tiny_volume_bars : DataFrame :=
  [bar_at 1 0; bar_at 1 0x1p-1074].

(** Two bars with a range of 0.5, and the same two followed by a bar whose
    high and low are equal. *)
Definition half_range_bar : Bar := mkBar 1.25 1.5 1 1.25 1.

Definition two_bars : DataFrame := [half_range_bar; half_range_bar].

Definition three_bars : DataFrame :=
  [half_range_bar; half_range_bar; bar_at 2 1].

(** Four bars whose price swings between 2^1022 and -2^1022 while the
    volume grows so fast that each normalized volume is 2: the adjusted
    prices are the finite 2^1023 and -2^1023, their differences are not. *)
Definition swinging_bars : DataFrame :=
  [bar_at 1 1; bar_at 0x1p1022 0x1p60; bar_at (-0x1p1022) 0x1p120;
   bar_at 0x1p1022 0x1p180]%float.

(** Four bars of unit volume whose price goes 1, 2, 1, 2. *)
Definition zigzag_bars : DataFrame :=
  [bar_at 1 1; bar_at 2 1; bar_at 1 1; bar_at 2 1].

(** The same four bars with another opening price. *)
Definition zigzag_bars_other_open : DataFrame :=
  [mkBar 7 1 1 1 1; mkBar 7 2 2 2 1; mkBar 7 1 1 1 1; mkBar 7 2 2 2 1]%float.

(** A kline of twelve cells that are floats already: its Open, High, Low
    and Close are 3 and its Volume is 1, as in [flat_bar]. *)
Definition sample_kline : list float :=
  [0; 3; 3; 3; 3; 1; 0; 0; 0; 0; 0; 0]%float.

(** A client that answers every request with [n] such klines, and the
    conversions of cells that are floats already. *)
Definition sample_client (n : nat)
    (symbol interval start_str end_str : String.string) : list (list float) :=
  repeat sample_kline n.

Definition float_cell (x : float) : option float := Some x.

Definition stamp_cell (x : float) : option Z := Some 0%Z.

(** Klines whose last cell, in the column named Ignore, does not convert;
    a cell is [None] when it does not. *)
Definition kline_with_bad_cell : list (option float) :=
  map Some (firstn 11 sample_kline) ++ [None].

Definition bad_client (n : nat)
    (symbol interval start_str end_str : String.string)
    : list (list (option float)) :=
  repeat kline_with_bad_cell n.

Definition parsed_cell (c : option float) : option float := c.

Definition stamp_of_parsed (c : option float) : option Z := Some 0%Z.

(** The parameters [p] with other periods. *)
Definition with_rsi_period (n : nat) (p : Params) : Params :=
  mkParams n (sma_period p) (atr_period p) (atr_multiplier_sl p)
           (atr_multiplier_tp p) (buy_threshold p) (sell_threshold p).

Definition with_periods (r s a : nat) (p : Params) : Params :=
  mkParams r s a (atr_multiplier_sl p)
           (atr_multiplier_tp p) (buy_threshold p) (sell_threshold p).

(** ** Notions used to follow the rounding of binary64 arithmetic

    [Prim2SF] gives a float as a sign, a mantissa and an exponent; the
    standard library specifies each operation as an exact integer
    computation followed by [binary_round]. *)
Module IEEE.

(** The float is zero or finite and not zero. *)
Definition SF_finite (x : spec_float) : Prop :=
  match x with
  | S754_zero _ | S754_finite _ _ _ => True
  | _ => False
  end.

(** The float is a zero, a positive number or plus infinity. *)
Definition SF_nonneg (y : spec_float) : Prop :=
  match y with
  | S754_zero _ => True
  | S754_infinity s => s = false
  | S754_finite s _ _ => s = false
  | S754_nan => False
  end.

(** What [k] right shifts of [M] leave in a shift record: the quotient, and
    no round or sticky bit when nothing was lost. *)
Definition shr_inv (M k : Z) (mrs : shr_record) : Prop :=
  (0 <= k)%Z /\ shr_m mrs = (M / 2 ^ k)%Z
  /\ ((M mod 2 ^ k)%Z = 0%Z -> shr_r mrs = false /\ shr_s mrs = false).

(** The float built from a rounded mantissa and its exponent. *)
Definition round_result (prec emax : Z) (s : bool) (m2 e2 : Z) : spec_float :=
  match m2 with
  | Z0 => S754_zero s
  | Zpos m =>
      if (e2 <=? emax - prec)%Z then S754_finite s m e2 else S754_infinity s
  | Zneg _ => S754_nan
  end.

(** [r] has sign [s] and a magnitude at most, or at least, that of the
    canonical float [mx * 2^ex]. *)
Definition mag_le (r : spec_float) (s : bool) (mx : positive) (ex : Z) : Prop :=
  r = S754_zero s
  \/ exists m2 e2, r = S754_finite s m2 e2
                   /\ ((e2 < ex)%Z \/ (e2 = ex /\ (Zpos m2 <= Zpos mx)%Z)).

Definition mag_ge (r : spec_float) (s : bool) (mx : positive) (ex : Z) : Prop :=
  r = S754_infinity s
  \/ exists m2 e2, r = S754_finite s m2 e2
                   /\ ((ex < e2)%Z \/ (e2 = ex /\ (Zpos mx <= Zpos m2)%Z)).

End IEEE.

(** ** Notions used to follow the sign of binary64 arithmetic *)
Module SignBit.

(** NaN, a zero, or a float with the sign bit clear. *)
Definition SF_nn (x : spec_float) : Prop :=
  match x with
  | S754_nan | S754_zero _ => True
  | S754_infinity s | S754_finite s _ _ => s = false
  end.

(** NaN or a float with the sign bit clear (so not the negative zero). *)
Definition SF_ps (x : spec_float) : Prop :=
  match x with
  | S754_nan => True
  | S754_zero s | S754_infinity s | S754_finite s _ _ => s = false
  end.

End SignBit.

(** * Properties *)

(** ** Indexing from the end of a slice *)

Lemma neg_index_slice (s : list float) (i k : nat) :
  i < length s -> k <= i ->
  Py.neg_index (Py.slice_to (S i) s) (S k) = nth_error s (i - k).
Proof.
  intros Hi Hk. unfold Py.neg_index, Py.slice_to.
  rewrite nth_error_rev, length_firstn.
  replace (Nat.min (S i) (length s)) with (S i) by lia.
  replace (S k - 1) with k by lia.
  destruct (Nat.ltb_spec k (S i)) as [_|H]; [|lia].
  rewrite nth_error_firstn.
  destruct (Nat.ltb_spec (S i - S k) (S i)) as [_|H]; [|lia].
  f_equal; lia.
Qed.

Lemma neg_index_slice_last (s : list float) (i : nat) (x : float) :
  nth_error s i = Some x -> Py.neg_index (Py.slice_to (S i) s) 1 = Some x.
Proof.
  intros H. assert (i < length s) by (apply nth_error_Some; congruence).
  rewrite (neg_index_slice s i 0) by lia.
  now rewrite Nat.sub_0_r.
Qed.

Lemma neg_index_slice_first_bar (s : list float) :
  Py.neg_index (Py.slice_to 1 s) 2 = None.
Proof. destruct s as [|x s]; reflexivity. Qed.

Lemma neg_index_slice_prev (s : list float) (j : nat) :
  S j < length s ->
  Py.neg_index (Py.slice_to (S (S j)) s) 2 = nth_error s j.
Proof.
  intros H. rewrite (neg_index_slice s (S j) 1) by lia.
  f_equal; lia.
Qed.

(** ** [crossover] on the slice of bar [i] *)

Lemma crossover_series_number (s : list float) (level : float) (i : nat) :
  i < length s ->
  Lib.crossover (Lib.Series (Py.slice_to (S i) s)) (Lib.Number level)
  = crosses_above s level i.
Proof.
  intros Hi. unfold Lib.crossover, crosses_above. cbn [Lib.as_sequence].
  destruct i as [|j].
  - now rewrite neg_index_slice_first_bar.
  - rewrite neg_index_slice_prev by assumption.
    rewrite (neg_index_slice s (S j) 0), Nat.sub_0_r by lia.
    change (Py.neg_index [level; level] 2) with (Some level).
    change (Py.neg_index [level; level] 1) with (Some level).
    destruct (nth_error s j) as [x0|] eqn:E0.
    + destruct (nth_error s (S j)) as [x1|]; destruct (Py.lt x0 level);
        reflexivity.
    + apply nth_error_None in E0. lia.
Qed.

Lemma crossover_number_series (s : list float) (level : float) (i : nat) :
  i < length s ->
  Lib.crossover (Lib.Number level) (Lib.Series (Py.slice_to (S i) s))
  = crosses_below s level i.
Proof.
  intros Hi. unfold Lib.crossover, crosses_below. cbn [Lib.as_sequence].
  change (Py.neg_index [level; level] 2) with (Some level).
  change (Py.neg_index [level; level] 1) with (Some level).
  destruct i as [|j].
  - now rewrite neg_index_slice_first_bar.
  - rewrite neg_index_slice_prev by assumption.
    rewrite (neg_index_slice s (S j) 0), Nat.sub_0_r by lia.
    destruct (nth_error s j) as [x0|] eqn:E0.
    + unfold Py.gt, Py.lt.
      destruct (nth_error s (S j)) as [x1|];
        destruct (PrimFloat.ltb level x0); reflexivity.
    + apply nth_error_None in E0. lia.
Qed.

(** ** [next] at bar [i], as one equation *)

Section NextAtBar.

Variables (p : Params) (Close rsi sma atr : list float).
Variables (i : nat) (c s a : float).
Hypothesis HClose : nth_error Close i = Some c.
Hypothesis Hsma : nth_error sma i = Some s.
Hypothesis Hatr : nth_error atr i = Some a.
Hypothesis Hrsi : i < length rsi.

Lemma guard_at_bar (pos : PositionState) :
  indicators_not_ready (view_at Close rsi sma atr pos i)
  = Some (negb (ready sma atr i)).
Proof.
  unfold indicators_not_ready, view_at, ready, defined; cbn [v_sma v_atr].
  rewrite (neg_index_slice_last _ _ _ Hsma), (neg_index_slice_last _ _ _ Hatr).
  rewrite Hsma, Hatr. cbn [bind].
  destruct (Py.isnan s); cbn [negb andb]; [reflexivity|].
  now rewrite negb_involutive.
Qed.

Lemma next_at_bar (pos : PositionState) :
  next_at p Close rsi sma atr pos i
  = Some (decision p Close rsi sma atr pos i c s a).
Proof.
  unfold next_at, next, decision. rewrite guard_at_bar. cbn [bind].
  destruct (ready sma atr i); cbn [negb]; [|reflexivity].
  unfold view_at at 1 2; cbn [v_Close v_atr].
  rewrite (neg_index_slice_last _ _ _ HClose),
    (neg_index_slice_last _ _ _ Hatr).
  cbn [bind].
  unfold buy_condition, sell_condition, view_at; cbn [v_position v_rsi v_sma].
  rewrite crossover_series_number, crossover_number_series by assumption.
  rewrite (neg_index_slice_last _ _ _ Hsma).
  destruct pos; cbn [position_bool negb andb bind].
  - destruct (crosses_above rsi (buy_threshold p) i); cbn [andb bind];
      [destruct (Py.gt c s)|]; reflexivity.
  - destruct (crosses_below rsi (sell_threshold p) i); reflexivity.
Qed.

End NextAtBar.

(** ** The signal rules (lines 155-175) *)

Lemma no_open_long_in_nil (x : Intent) : In x [] -> is_open_long x = false.
Proof. intros []. Qed.

Lemma only_close_long (x : Intent) : In x [CloseLong] -> is_open_long x = false.
Proof. intros [<-|[]]. reflexivity. Qed.

Lemma only_open_long (sl tp : float) (x : Intent) :
  In x [OpenLong sl tp] -> is_close_long x = false.
Proof. intros [<-|[]]. reflexivity. Qed.

Lemma no_close_long_in_nil (x : Intent) : In x [] -> is_close_long x = false.
Proof. intros []. Qed.

Create HintDb intents.

#[local] Hint Resolve no_open_long_in_nil only_close_long only_open_long
  no_close_long_in_nil : intents.

(** C1, as the code has it.  At a bar [i] where the state is FLAT, [ready(i)]
    holds, RSI[i-1] < buy_threshold and RSI[i] > buy_threshold (a NaN on
    either side makes the comparison false) and close[i] > SMA[i], [next]
    emits exactly one intent, OpenLong, with stop-loss
    close[i] - atr_multiplier_sl * atr[i] and take-profit
    close[i] + atr_multiplier_tp * atr[i]; when one of these conditions
    fails, [next] emits no OpenLong at bar [i]. *)
Theorem open_long_rule (p : Params) (Close rsi sma atr : list float)
    (pos : PositionState) (i : nat) (c s a : float) :
  nth_error Close i = Some c ->
  nth_error sma i = Some s ->
  nth_error atr i = Some a ->
  i < length rsi ->
  (pos = FLAT /\ ready sma atr i = true
   /\ crosses_above rsi (buy_threshold p) i = true /\ Py.gt c s = true ->
   next_at p Close rsi sma atr pos i
   = Some [OpenLong (stop_loss_level p c a) (take_profit_level p c a)])
  /\
  (~ (pos = FLAT /\ ready sma atr i = true
      /\ crosses_above rsi (buy_threshold p) i = true /\ Py.gt c s = true) ->
   exists out, next_at p Close rsi sma atr pos i = Some out
               /\ forall x, In x out -> is_open_long x = false).
Proof.
  intros HC Hs Ha Hr.
  rewrite (next_at_bar p _ _ _ _ _ _ _ _ HC Hs Ha Hr). unfold decision.
  split.
  - intros (-> & -> & -> & ->). reflexivity.
  - intros Hn. eexists; split; [reflexivity|].
    destruct (ready sma atr i); cbn [negb]; auto with intents.
    destruct pos; cbn [position_bool negb andb]; auto with intents.
    + destruct (crosses_above rsi (buy_threshold p) i); cbn [andb];
        auto with intents.
      destruct (Py.gt c s); auto with intents.
      exfalso; apply Hn; repeat split; reflexivity.
    + destruct (crosses_below rsi (sell_threshold p) i); auto with intents.
Qed.

Lemma open_long_rule_witness :
  next_at default_params [100; 101]%float [50; 60]%float [90; 90]%float
          [2; 2]%float FLAT 1
  = Some [OpenLong 98 111].
Proof.
  refine (proj1 (open_long_rule default_params [100; 101]%float
                   [50; 60]%float [90; 90]%float [2; 2]%float FLAT 1
                   101%float 90%float 2%float
                   eq_refl eq_refl eq_refl _) _).
  - cbn; lia.
  - repeat split; reflexivity.
Defined.

(** C1 as stated fails: with RSI[i-1] equal to the buy threshold and
    RSI[i] above it, every other condition holding, nothing is emitted. *)
Lemma open_long_rule_spec_refuted : ~ spec_open_rule.
Proof.
  intros H.
  specialize (H default_params [100; 101]%float [55; 60]%float [90; 90]%float
                [2; 2]%float 1 101%float 90%float 2%float
                eq_refl eq_refl eq_refl).
  assert (E : next_at default_params [100; 101]%float [55; 60]%float
                      [90; 90]%float [2; 2]%float FLAT 1 = Some [])
    by reflexivity.
  rewrite E in H.
  assert (G : Some (@nil Intent)
              = Some [OpenLong (stop_loss_level default_params 101 2)
                               (take_profit_level default_params 101 2)]).
  { apply H; [cbn; lia | reflexivity | reflexivity | reflexivity]. }
  discriminate G.
Qed.

(** C2, as the code has it.  At a bar [i] where the state is LONG,
    [ready(i)] holds, RSI[i-1] > sell_threshold and RSI[i] < sell_threshold,
    [next] emits exactly one intent, CloseLong (the whole position); when
    the state is LONG and this crossunder is false, or [ready(i)] is, no
    CloseLong is emitted. *)
Theorem close_long_rule (p : Params) (Close rsi sma atr : list float)
    (i : nat) (c s a : float) :
  nth_error Close i = Some c ->
  nth_error sma i = Some s ->
  nth_error atr i = Some a ->
  i < length rsi ->
  (ready sma atr i = true /\ crosses_below rsi (sell_threshold p) i = true ->
   next_at p Close rsi sma atr LONG i = Some [CloseLong])
  /\
  (ready sma atr i = false \/ crosses_below rsi (sell_threshold p) i = false ->
   next_at p Close rsi sma atr LONG i = Some []).
Proof.
  intros HC Hs Ha Hr.
  rewrite (next_at_bar p _ _ _ _ _ _ _ _ HC Hs Ha Hr). unfold decision.
  cbn [position_bool negb andb]. split.
  - intros (-> & ->). reflexivity.
  - intros [-> | ->]; [reflexivity|].
    destruct (ready sma atr i); reflexivity.
Qed.

Lemma close_long_rule_witness :
  next_at default_params [100; 101]%float [50; 40]%float [90; 90]%float
          [2; 2]%float LONG 1
  = Some [CloseLong].
Proof.
  refine (proj1 (close_long_rule default_params [100; 101]%float
                   [50; 40]%float [90; 90]%float [2; 2]%float 1
                   101%float 90%float 2%float
                   eq_refl eq_refl eq_refl _) _).
  - cbn; lia.
  - split; reflexivity.
Defined.

(** C2 as stated fails: with RSI[i-1] equal to the sell threshold and
    RSI[i] below it, in the LONG state, nothing is emitted. *)
Lemma close_long_rule_spec_refuted : ~ spec_close_rule.
Proof.
  intros H.
  specialize (H default_params [100; 101]%float [45; 40]%float [90; 90]%float
                [2; 2]%float 1 101%float 90%float 2%float
                eq_refl eq_refl eq_refl).
  assert (E : next_at default_params [100; 101]%float [45; 40]%float
                      [90; 90]%float [2; 2]%float LONG 1 = Some [])
    by reflexivity.
  rewrite E in H.
  assert (G : Some (@nil Intent) = Some [CloseLong]).
  { apply H; [cbn; lia | reflexivity]. }
  discriminate G.
Qed.

(** The guard of line 160 also stops the close rule: LONG with a clear
    crossunder, but an undefined SMA, emits nothing. *)
Example close_long_needs_ready :
  crosses_below [50; 40]%float 45 1 = true
  /\ next_at default_params [100; 101]%float [50; 40]%float
             [Pandas.nan; Pandas.nan] [2; 2]%float LONG 1 = Some [].
Proof. split; reflexivity. Qed.

(** C3.  [ready(i)] is exactly "SMA[i] and ATR[i] are not NaN"; it is what
    the guard of line 160 tests, the RSI plays no part in it; and at a bar
    where [ready(i)] is false [next] emits nothing, whatever the RSI, the
    close and the position. *)
Theorem readiness_gate (p : Params) (Close rsi sma atr : list float)
    (pos : PositionState) (i : nat) (c s a : float) :
  nth_error Close i = Some c ->
  nth_error sma i = Some s ->
  nth_error atr i = Some a ->
  i < length rsi ->
  (ready sma atr i = true <-> Py.isnan s = false /\ Py.isnan a = false)
  /\ (forall rsi', indicators_not_ready (view_at Close rsi' sma atr pos i)
                   = Some (negb (ready sma atr i)))
  /\ (ready sma atr i = false ->
      next_at p Close rsi sma atr pos i = Some []).
Proof.
  intros HC Hs Ha Hr. split; [|split].
  - unfold ready, defined. rewrite Hs, Ha.
    destruct (Py.isnan s), (Py.isnan a); cbn; intuition congruence.
  - intros rsi'.
    change (indicators_not_ready (view_at Close rsi' sma atr pos i))
      with (indicators_not_ready (view_at Close rsi sma atr pos i)).
    exact (guard_at_bar Close rsi _ _ _ _ _ Hs Ha pos).
  - intros Hn. rewrite (next_at_bar p _ _ _ _ _ _ _ _ HC Hs Ha Hr).
    unfold decision.
    now rewrite Hn.
Qed.

(** Readiness with an undefined RSI: the gate is open, the crossover is
    false, nothing is emitted. *)
Lemma readiness_gate_witness :
  ready [90; 90]%float [2; 2]%float 1 = true
  /\ indicators_not_ready
       (view_at [100; 101]%float [Pandas.nan; Pandas.nan] [90; 90]%float
                [2; 2]%float FLAT 1) = Some false
  /\ next_at default_params [100; 101]%float [50; 60]%float
             [90; Pandas.nan]%float [2; 2]%float FLAT 1 = Some [].
Proof.
  pose proof (readiness_gate default_params [100; 101]%float [50; 60]%float
                [90; 90]%float [2; 2]%float FLAT 1 101%float 90%float 2%float
                eq_refl eq_refl eq_refl) as H1.
  pose proof (readiness_gate default_params [100; 101]%float [50; 60]%float
                [90; Pandas.nan]%float [2; 2]%float FLAT 1 101%float Pandas.nan
                2%float eq_refl eq_refl eq_refl) as H2.
  split; [reflexivity|]. split.
  - refine (proj1 (proj2 (H1 _)) _). cbn; lia.
  - refine (proj2 (proj2 (H2 _)) _); [cbn; lia | reflexivity].
Defined.

(** C4.  Whatever the bar and the position state, [next] emits at most one
    intent; the open rule comes first (when its condition holds the result
    is the OpenLong alone, and a CloseLong is emitted only after the open
    rule's condition was found false); no OpenLong is emitted in the LONG
    state and no CloseLong in the FLAT state. *)
Theorem one_intent_per_bar (p : Params) (v : View) (out : list Intent) :
  next p v = Some out ->
  length out <= 1
  /\ (v_position v = LONG -> forall x, In x out -> is_open_long x = false)
  /\ (v_position v = FLAT -> forall x, In x out -> is_close_long x = false)
  /\ (forall cp, Py.neg_index (v_Close v) 1 = Some cp ->
                 indicators_not_ready v = Some false ->
                 buy_condition p v cp = Some true ->
                 exists sl tp, out = [OpenLong sl tp])
  /\ (In CloseLong out ->
      forall cp, Py.neg_index (v_Close v) 1 = Some cp ->
                 buy_condition p v cp = Some false
                 /\ sell_condition p v = true).
Proof.
  unfold next. intros H.
  destruct (indicators_not_ready v) as [[|]|] eqn:G; cbn [bind] in H;
    [injection H as <- | | discriminate].
  { split; [cbn; lia|]. split; [auto with intents|].
    split; [auto with intents|]. split; [intros cp _ [=] | intros []]. }
  destruct (Py.neg_index (v_Close v) 1) as [cp|] eqn:EC; cbn [bind] in H;
    [|discriminate].
  destruct (Py.neg_index (v_atr v) 1) as [a|] eqn:EA; cbn [bind] in H;
    [|discriminate].
  destruct (buy_condition p v cp) as [[|]|] eqn:B; cbn [bind] in H;
    [injection H as <- | | discriminate].
  - assert (P : v_position v = FLAT).
    { unfold buy_condition in B. destruct (v_position v); [reflexivity|].
      cbn in B. discriminate. }
    split; [cbn; lia|]. split; [rewrite P; discriminate|].
    split; [intros _ x Hx; exact (only_open_long _ _ x Hx)|].
    split; [intros cp' [= <-] _ _; eauto | intros [[=]|[]]].
  - destruct (sell_condition p v) eqn:S; injection H as <-.
    + assert (P : v_position v = LONG).
      { unfold sell_condition in S. destruct (v_position v); [|reflexivity].
        cbn in S. discriminate. }
      split; [cbn; lia|]. split; [auto with intents|].
      split; [rewrite P; discriminate|].
      split; [intros cp' [= <-] _ Hb; congruence
             | intros _ cp' [= <-]; split; [exact B | reflexivity]].
    + split; [cbn; lia|]. split; [auto with intents|].
      split; [auto with intents|].
      split; [intros cp' [= <-] _ Hb; congruence | intros []].
Qed.

Lemma one_intent_per_bar_witness :
  length [OpenLong 98 111] <= 1
  /\ next (default_params)
          (view_at [100; 101]%float [50; 60]%float [90; 90]%float
                   [2; 2]%float FLAT 1)
     = Some [OpenLong 98 111].
Proof.
  split; [|reflexivity].
  exact (proj1 (one_intent_per_bar default_params
                  (view_at [100; 101]%float [50; 60]%float [90; 90]%float
                           [2; 2]%float FLAT 1)
                  [OpenLong 98 111] eq_refl)).
Defined.

(** [next] does return at every bar the four arrays reach. *)
Lemma next_at_returns (p : Params) (Close rsi sma atr : list float)
    (pos : PositionState) (i : nat) :
  i < length Close -> i < length rsi -> i < length sma -> i < length atr ->
  exists out, next_at p Close rsi sma atr pos i = Some out.
Proof.
  intros HC Hr Hs Ha.
  destruct (nth_error Close i) as [c|] eqn:EC;
    [|apply nth_error_None in EC; lia].
  destruct (nth_error sma i) as [s|] eqn:ES;
    [|apply nth_error_None in ES; lia].
  destruct (nth_error atr i) as [a|] eqn:EA;
    [|apply nth_error_None in EA; lia].
  eexists. exact (next_at_bar p _ _ _ _ _ _ _ _ EC ES EA Hr pos).
Qed.

(** ** Safe SMA (lines 102-115) *)

(** C5.  For a close series shorter than [period] (so [period >= 1]),
    [safe_sma] returns, without raising, a series as long as its input in
    which every entry is NaN. *)
Theorem safe_sma_short_input (close_prices : list float) (period : nat) :
  1 <= period ->
  length close_prices < period ->
  safe_sma close_prices period
  = Some (repeat Pandas.nan (length close_prices))
  /\ length (repeat Pandas.nan (length close_prices)) = length close_prices
  /\ forall x, In x (repeat Pandas.nan (length close_prices)) ->
               Py.isnan x = true.
Proof.
  intros _ H. unfold safe_sma.
  destruct (Nat.ltb_spec (length close_prices) period) as [_|H']; [|lia].
  split; [reflexivity|]. split; [apply repeat_length|].
  intros x Hx. apply repeat_spec in Hx. subst x. reflexivity.
Qed.

Lemma safe_sma_short_input_witness :
  safe_sma [1; 2; 3]%float 50 = Some [Pandas.nan; Pandas.nan; Pandas.nan].
Proof.
  refine (proj1 (safe_sma_short_input [1; 2; 3]%float 50 _ _)); cbn; lia.
Defined.

(** ** Facts of binary64 arithmetic

    The primitive operations are specified by [Prim2SF] and the [SF64]
    operations of the standard library; the facts below are read off that
    specification. *)
Module F.

Lemma SF_of_nan : Prim2SF PrimFloat.nan = S754_nan.
Proof. reflexivity. Qed.

Lemma isnan_SF (x : float) : Py.isnan x = true <-> Prim2SF x = S754_nan.
Proof.
  unfold Py.isnan, PrimFloat.is_nan. rewrite eqb_spec. unfold SFeqb.
  destruct (Prim2SF x) as [s|s| |s m e]; cbn.
  - split; congruence.
  - destruct s; cbn; split; congruence.
  - split; reflexivity.
  - destruct s; rewrite Z.compare_refl, Pos.compare_cont_refl; cbn;
      split; congruence.
Qed.

Lemma isnan_eq (x : float) : Py.isnan x = true <-> x = Pandas.nan.
Proof.
  rewrite isnan_SF. split.
  - intros H. apply Prim2SF_inj. now rewrite H.
  - intros ->. reflexivity.
Qed.

Lemma observation_isnan (x : float) :
  Pandas.is_observation x = negb (Py.isnan x).
Proof.
  unfold Pandas.is_observation, Py.isnan, PrimFloat.is_nan.
  now rewrite negb_involutive.
Qed.

(** NaN in, NaN out. *)
Lemma sub_nan_l (y : float) : (Pandas.nan - y)%float = Pandas.nan.
Proof. apply Prim2SF_inj. rewrite sub_spec. reflexivity. Qed.

Lemma sub_nan_r (x : float) : (x - Pandas.nan)%float = Pandas.nan.
Proof.
  apply Prim2SF_inj. rewrite sub_spec. cbn.
  destruct (Prim2SF x); reflexivity.
Qed.

Lemma add_nan_l (y : float) : (Pandas.nan + y)%float = Pandas.nan.
Proof. apply Prim2SF_inj. rewrite add_spec. reflexivity. Qed.

Lemma add_nan_r (x : float) : (x + Pandas.nan)%float = Pandas.nan.
Proof.
  apply Prim2SF_inj. rewrite add_spec. cbn.
  destruct (Prim2SF x); reflexivity.
Qed.

Lemma mul_nan_l (y : float) : (Pandas.nan * y)%float = Pandas.nan.
Proof. apply Prim2SF_inj. rewrite mul_spec. reflexivity. Qed.

Lemma mul_nan_r (x : float) : (x * Pandas.nan)%float = Pandas.nan.
Proof.
  apply Prim2SF_inj. rewrite mul_spec. cbn.
  destruct (Prim2SF x); reflexivity.
Qed.

Lemma div_nan_l (y : float) : (Pandas.nan / y)%float = Pandas.nan.
Proof. apply Prim2SF_inj. rewrite div_spec. reflexivity. Qed.

Lemma div_nan_r (x : float) : (x / Pandas.nan)%float = Pandas.nan.
Proof.
  apply Prim2SF_inj. rewrite div_spec. cbn.
  destruct (Prim2SF x); reflexivity.
Qed.

(** A float equal to zero is one of the two zeros. *)
Lemma eqb_zero_SF (x : float) :
  PrimFloat.eqb x 0 = true <-> exists s, Prim2SF x = S754_zero s.
Proof.
  rewrite eqb_spec. change (Prim2SF 0) with (S754_zero false). unfold SFeqb.
  destruct (Prim2SF x) as [s|s| |s m e]; cbn.
  - split; eauto.
  - destruct s; split; try congruence; intros [? [=]].
  - split; try congruence; intros [? [=]].
  - destruct s; split; try congruence; intros [? [=]].
Qed.

Lemma is_infinity_SF (x : float) :
  PrimFloat.is_infinity x = true <-> exists s, Prim2SF x = S754_infinity s.
Proof.
  unfold PrimFloat.is_infinity. rewrite eqb_spec, abs_spec.
  change (Prim2SF infinity) with (S754_infinity false). unfold SFeqb.
  destruct (Prim2SF x) as [s|s| |s m e]; cbn.
  - split; try congruence; intros [? [=]].
  - split; eauto.
  - split; try congruence; intros [? [=]].
  - split; try congruence; intros [? [=]].
Qed.

(** Division by a zero: NaN for a zero or NaN numerator, an infinity for
    any other. *)
Lemma div_by_zero (v m : float) :
  PrimFloat.eqb m 0 = true ->
  (PrimFloat.eqb v 0 = true \/ Py.isnan v = true -> Py.isnan (v / m) = true)
  /\ (PrimFloat.eqb v 0 = false -> Py.isnan v = false ->
      PrimFloat.is_infinity (v / m) = true).
Proof.
  intros Hm. apply eqb_zero_SF in Hm as [sm Hm]. split.
  - intros Hv. apply isnan_SF. rewrite div_spec, Hm.
    destruct Hv as [Hv|Hv].
    + apply eqb_zero_SF in Hv as [sv ->]. reflexivity.
    + apply isnan_SF in Hv. rewrite Hv. reflexivity.
  - intros Hz Hn. apply is_infinity_SF. rewrite div_spec, Hm.
    destruct (Prim2SF v) as [s|s| |s mv e] eqn:E.
    + assert (PrimFloat.eqb v 0 = true) by (apply eqb_zero_SF; eauto).
      congruence.
    + cbn. eauto.
    + assert (Py.isnan v = true) by (now apply isnan_SF). congruence.
    + cbn. eauto.
Qed.

(** The rounding of the specification never produces NaN from a
    non-negative mantissa. *)
Lemma shr_1_nonneg (mrs : shr_record) :
  (0 <= shr_m mrs)%Z -> (0 <= shr_m (shr_1 mrs))%Z.
Proof.
  destruct mrs as [m r s]. cbn [shr_m]. intros H.
  destruct m as [|[p|p|]|[p|p|]]; cbn; lia.
Qed.

Lemma iter_pos_inv (A : Type) (P : A -> Prop) (f : A -> A) :
  (forall x, P x -> P (f x)) -> forall p x, P x -> P (iter_pos f p x).
Proof.
  intros Hf. induction p as [p IH|p IH|]; intros x Hx; cbn; auto.
Qed.

Lemma shr_nonneg (mrs : shr_record) (e n : Z) :
  (0 <= shr_m mrs)%Z -> (0 <= shr_m (fst (shr mrs e n)))%Z.
Proof.
  intros H. unfold shr. destruct n; cbn [fst]; auto.
  apply (iter_pos_inv shr_record (fun r => (0 <= shr_m r)%Z));
    auto using shr_1_nonneg.
Qed.

Lemma shr_record_of_loc_m (m : Z) (l : location) :
  shr_m (shr_record_of_loc m l) = m.
Proof. destruct l as [|[]]; reflexivity. Qed.

Lemma shr_fexp_nonneg (prec emax m e : Z) (l : location) :
  (0 <= m)%Z -> (0 <= shr_m (fst (shr_fexp prec emax m e l)))%Z.
Proof.
  intros H. unfold shr_fexp. apply shr_nonneg.
  now rewrite shr_record_of_loc_m.
Qed.

Lemma round_nearest_even_nonneg (m : Z) (l : location) :
  (0 <= m)%Z -> (0 <= round_nearest_even m l)%Z.
Proof.
  intros H. unfold round_nearest_even.
  destruct l as [|[]]; try lia. destruct (Z.even m); lia.
Qed.

Lemma binary_round_aux_not_nan (prec emax : Z) (sx : bool) (mx ex : Z)
    (lx : location) :
  (0 <= mx)%Z -> binary_round_aux prec emax sx mx ex lx <> S754_nan.
Proof.
  intros H. unfold binary_round_aux.
  pose proof (shr_fexp_nonneg prec emax mx ex lx H) as H1.
  destruct (shr_fexp prec emax mx ex lx) as [mrs' e']. cbn [fst] in H1.
  pose proof (shr_fexp_nonneg prec emax _ e' loc_Exact
                (round_nearest_even_nonneg _ (loc_of_shr_record mrs') H1))
    as H2.
  destruct (shr_fexp prec emax _ e' loc_Exact) as [mrs'' e''].
  cbn [fst] in H2.
  destruct (shr_m mrs''); try lia; try discriminate.
  destruct (_ <=? _)%Z; discriminate.
Qed.

Lemma binary_normalize_not_nan (prec emax m e : Z) (sz : bool) :
  binary_normalize prec emax m e sz <> S754_nan.
Proof.
  unfold binary_normalize, binary_round.
  destruct m; try discriminate;
    destruct (shl_align _ _ _); apply binary_round_aux_not_nan; lia.
Qed.

Lemma finite_nonzero_SF (x : float) :
  finite_nonzero x = true <-> exists s m e, Prim2SF x = S754_finite s m e.
Proof.
  unfold finite_nonzero, PrimFloat.is_finite.
  pose proof (isnan_SF x) as Hn. unfold Py.isnan in Hn.
  pose proof (is_infinity_SF x) as Hi.
  pose proof (eqb_zero_SF x) as Hz.
  destruct (Prim2SF x) as [s|s| |s m e].
  - assert (E : PrimFloat.eqb x 0 = true) by (apply Hz; eauto).
    rewrite E, andb_false_r. split; [discriminate | intros (?&?&?&[=])].
  - assert (E : PrimFloat.is_infinity x = true) by (apply Hi; eauto).
    rewrite E, orb_true_r. split; [discriminate | intros (?&?&?&[=])].
  - assert (E : PrimFloat.is_nan x = true) by (now apply Hn).
    rewrite E. split; [discriminate | intros (?&?&?&[=])].
  - destruct (PrimFloat.is_nan x);
      [destruct Hn as [Hn _]; discriminate (Hn eq_refl)|].
    destruct (PrimFloat.is_infinity x);
      [destruct Hi as [Hi _]; destruct (Hi eq_refl) as [? [=]]|].
    destruct (PrimFloat.eqb x 0);
      [destruct Hz as [Hz _]; destruct (Hz eq_refl) as [? [=]]|].
    split; eauto.
Qed.

Lemma SFmul_finite_not_nan (s : bool) (m : positive) (e : Z) (y : spec_float) :
  y <> S754_nan -> SF64mul (S754_finite s m e) y <> S754_nan.
Proof.
  intros Hy. destruct y as [sy|sy| |sy my ey]; cbn; try discriminate;
    [congruence|].
  apply binary_round_aux_not_nan. lia.
Qed.

Lemma SFdiv_finite_not_nan (x : spec_float) (s : bool) (m : positive) (e : Z) :
  x <> S754_nan -> SF64div x (S754_finite s m e) <> S754_nan.
Proof.
  intros Hx. destruct x as [sx|sx| |sx mx ex]; cbn; try discriminate;
    [congruence|].
  unfold SFdiv_core_binary.
  set (m' := match _ with Z0 => _ | Zpos _ => _ | Zneg _ => _ end).
  assert (Hm : (0 <= m')%Z).
  { subst m'. destruct (_ - _)%Z; try lia. apply Z.shiftl_nonneg. lia. }
  pose proof (Z.div_pos m' (Zpos m) Hm eq_refl) as Hq.
  unfold Z.div in Hq. destruct (Z.div_eucl m' (Zpos m)) as [q r].
  cbn [fst] in Hq. now apply binary_round_aux_not_nan.
Qed.

(** Adding a zero to a finite non-zero float changes nothing. *)
Lemma add_abs_zero (p l : float) :
  finite_nonzero p = true -> PrimFloat.eqb l 0 = true ->
  (p + PrimFloat.abs l)%float = p.
Proof.
  intros Hp Hl. apply finite_nonzero_SF in Hp as (s & m & e & Hp).
  apply eqb_zero_SF in Hl as [sl Hl].
  apply Prim2SF_inj. rewrite add_spec, abs_spec, Hp, Hl. reflexivity.
Qed.

End F.

(** ** Lengths: every Series operation keeps the index *)

Lemma zip_with_length (f : float -> float -> float) (xs ys : list float) :
  length (Pandas.zip_with f xs ys) = Nat.min (length xs) (length ys).
Proof.
  revert ys. induction xs as [|x xs IH]; intros [|y ys]; cbn; auto.
Qed.

Lemma zip_with3_length (f : float -> float -> float -> float)
    (xs ys zs : list float) :
  length (TA.zip_with3 f xs ys zs)
  = Nat.min (length xs) (Nat.min (length ys) (length zs)).
Proof.
  revert ys zs.
  induction xs as [|x xs IH]; intros [|y ys] [|z zs]; cbn; auto.
Qed.

Lemma rolling_from_length (window : nat) (recent xs : list float) :
  length (Pandas.rolling_from window recent xs) = length xs.
Proof.
  revert recent. induction xs as [|x xs IH]; intros recent; cbn; auto.
Qed.

Lemma rolling_mean_length (window : nat) (s : list float) :
  length (Pandas.rolling_mean window s) = length s.
Proof. apply rolling_from_length. Qed.

Lemma diff_from_length (prev : float) (xs : list float) :
  length (Pandas.diff_from prev xs) = length xs.
Proof.
  revert prev. induction xs as [|x xs IH]; intros prev; cbn; auto.
Qed.

Lemma diff_length (s : list float) : length (Pandas.diff s) = length s.
Proof. destruct s; cbn; [|rewrite diff_from_length]; reflexivity. Qed.

Lemma shift_from_length (prev : float) (xs : list float) :
  length (Pandas.shift_from prev xs) = length xs.
Proof.
  revert prev. induction xs as [|x xs IH]; intros prev; cbn; auto.
Qed.

Lemma ewm_from_length (f w : float) (minp : nat) (st : Pandas.ewm_state)
    (xs : list float) :
  length (Pandas.ewm_from f w minp st xs) = length xs.
Proof.
  revert st. induction xs as [|x xs IH]; intros st; cbn; auto.
Qed.

Lemma ewm_mean_length (alpha : float) (min_periods : nat) (s : list float) :
  length (Pandas.ewm_mean alpha min_periods s) = length s.
Proof.
  destruct s; cbn; [|rewrite ewm_from_length]; reflexivity.
Qed.

Lemma column_length (f : Bar -> float) (data : DataFrame) :
  length (column f data) = length data.
Proof. apply length_map. Qed.

Lemma hlc3_length (data : DataFrame) : length (hlc3 data) = length data.
Proof.
  unfold hlc3. rewrite length_map, !zip_with_length, !column_length. lia.
Qed.

Lemma volume_average_length (data : DataFrame) (n : nat) :
  length (volume_average data n) = length data.
Proof.
  unfold volume_average. now rewrite rolling_mean_length, column_length.
Qed.

Lemma normalized_volume_length (data : DataFrame) (n : nat) :
  length (normalized_volume data n) = length data.
Proof.
  unfold normalized_volume.
  rewrite zip_with_length, volume_average_length, column_length. lia.
Qed.

Lemma adjusted_price_length (data : DataFrame) (n : nat) :
  length (adjusted_price data n) = length data.
Proof.
  unfold adjusted_price.
  rewrite zip_with_length, hlc3_length, normalized_volume_length. lia.
Qed.

Lemma non_zero_range_length (high low : list float) :
  length (TA.non_zero_range high low)
  = Nat.min (length high) (length low).
Proof.
  unfold TA.non_zero_range.
  destruct (existsb _ _); rewrite ?length_map; apply zip_with_length.
Qed.

Lemma true_range_length (high low close : list float) :
  length high = length close -> length low = length close ->
  length (TA.true_range high low close) = length close.
Proof.
  intros Hh Hl. unfold TA.true_range.
  pose proof (zip_with3_length TA.range_max (TA.non_zero_range high low)
                (Pandas.zip_with PrimFloat.sub high (Pandas.shift close))
                (Pandas.zip_with PrimFloat.sub (Pandas.shift close) low)) as E.
  rewrite non_zero_range_length, !zip_with_length in E.
  unfold Pandas.shift in E. rewrite shift_from_length in E.
  destruct (TA.zip_with3 _ _ _ _); cbn in *; lia.
Qed.

(** ** When the pandas_ta indicators return a Series *)

Lemma verify_series_some (s : list float) (n : nat) :
  n <= length s -> TA.verify_series s n = Some s.
Proof.
  intros H. unfold TA.verify_series.
  destruct (Nat.ltb_spec (length s) n); [lia|reflexivity].
Qed.

Lemma verify_series_none (s : list float) (n : nat) :
  length s < n -> TA.verify_series s n = None.
Proof.
  intros H. unfold TA.verify_series.
  destruct (Nat.ltb_spec (length s) n); [reflexivity|lia].
Qed.

Lemma length_or_positive (d n : nat) : 1 <= n -> TA.length_or d n = n.
Proof. destruct n; [lia|reflexivity]. Qed.

Lemma length_or_idem (d n : nat) :
  TA.length_or 10 (TA.length_or d n) = TA.length_or d n
  \/ TA.length_or d n = 0.
Proof. destruct n as [|n]; cbn; [destruct d; cbn; auto|auto]. Qed.

Lemma rma_some (s : list float) (n : nat) :
  1 <= n -> n <= length s ->
  TA.rma s n
  = Some (Pandas.ewm_mean (1 / Pandas.float_of_nat n)%float n s).
Proof.
  intros Hn Hs. unfold TA.rma. rewrite (length_or_positive 10 n Hn).
  now rewrite verify_series_some.
Qed.

Lemma rma_none (s : list float) (n : nat) :
  1 <= n -> length s < n -> TA.rma s n = None.
Proof.
  intros Hn Hs. unfold TA.rma. rewrite (length_or_positive 10 n Hn).
  now rewrite verify_series_none.
Qed.

Lemma gains_length (close : list float) : length (gains close) = length close.
Proof. unfold gains. now rewrite length_map, diff_length. Qed.

Lemma losses_length (close : list float) :
  length (losses close) = length close.
Proof. unfold losses. now rewrite length_map, diff_length. Qed.

Lemma wilder_length (n : nat) (s : list float) :
  length (wilder n s) = length s.
Proof. apply ewm_mean_length. Qed.

Lemma rsi_averages_some (close : list float) (n : nat) :
  1 <= n -> n <= length close ->
  TA.rsi_averages close n
  = Some (wilder n (gains close), wilder n (losses close)).
Proof.
  intros Hn Hs. unfold TA.rsi_averages.
  rewrite (length_or_positive 14 n Hn), verify_series_some by assumption.
  cbn [bind].
  rewrite (rma_some (map TA.clip_negative (Pandas.diff close)) n Hn)
    by (rewrite length_map, diff_length; assumption).
  cbn [bind].
  rewrite (rma_some (map TA.clip_positive (Pandas.diff close)) n Hn)
    by (rewrite length_map, diff_length; assumption).
  reflexivity.
Qed.

Lemma rsi_averages_none (close : list float) (n : nat) :
  1 <= n -> length close < n -> TA.rsi_averages close n = None.
Proof.
  intros Hn Hs. unfold TA.rsi_averages.
  rewrite (length_or_positive 14 n Hn), verify_series_none by assumption.
  reflexivity.
Qed.

Lemma rsi_some (close : list float) (n : nat) :
  1 <= n -> n <= length close ->
  TA.rsi close n
  = Some (Pandas.zip_with TA.rsi_value (wilder n (gains close))
                          (wilder n (losses close))).
Proof.
  intros Hn Hs. unfold TA.rsi. now rewrite rsi_averages_some.
Qed.

Lemma rsi_none (close : list float) (n : nat) :
  1 <= n -> length close < n -> TA.rsi close n = None.
Proof.
  intros Hn Hs. unfold TA.rsi. now rewrite rsi_averages_none.
Qed.

Lemma custom_rsi_some (data : DataFrame) (n : nat) :
  1 <= n -> n <= length data ->
  custom_rsi data n
  = Some (Pandas.zip_with TA.rsi_value
            (wilder n (gains (adjusted_price data n)))
            (wilder n (losses (adjusted_price data n)))).
Proof.
  intros Hn Hs. unfold custom_rsi.
  apply rsi_some; [assumption|]. now rewrite adjusted_price_length.
Qed.

Lemma custom_rsi_none (data : DataFrame) (n : nat) :
  1 <= n -> length data < n -> custom_rsi data n = None.
Proof.
  intros Hn Hs. unfold custom_rsi.
  apply rsi_none; [assumption|]. now rewrite adjusted_price_length.
Qed.

Lemma custom_rsi_length (data : DataFrame) (n : nat) (r : list float) :
  1 <= n -> custom_rsi data n = Some r -> length r = length data.
Proof.
  intros Hn H.
  destruct (Nat.le_gt_cases n (length data)) as [Hs|Hs].
  - rewrite (custom_rsi_some data n Hn Hs) in H. injection H as <-.
    rewrite zip_with_length, !wilder_length, gains_length, losses_length,
      adjusted_price_length. lia.
  - rewrite (custom_rsi_none data n Hn Hs) in H. discriminate.
Qed.

Lemma sma_some (close : list float) (n : nat) :
  1 <= n -> n <= length close ->
  TA.sma close n = Some (Pandas.rolling_mean n close).
Proof.
  intros Hn Hs. unfold TA.sma. rewrite (length_or_positive 10 n Hn).
  now rewrite verify_series_some.
Qed.

Lemma safe_sma_some (close : list float) (n : nat) :
  1 <= n ->
  safe_sma close n
  = Some (if length close <? n then repeat Pandas.nan (length close)
          else Pandas.rolling_mean n close).
Proof.
  intros Hn. unfold safe_sma.
  destruct (Nat.ltb_spec (length close) n); [reflexivity|].
  now apply sma_some.
Qed.

Lemma safe_sma_length (close : list float) (n : nat) (r : list float) :
  1 <= n -> safe_sma close n = Some r -> length r = length close.
Proof.
  intros Hn H. rewrite (safe_sma_some close n Hn) in H. injection H as <-.
  destruct (length close <? n);
    [apply repeat_length | apply rolling_mean_length].
Qed.

Lemma atr_some (high low close : list float) (n : nat) :
  1 <= n -> length high = length close -> length low = length close ->
  n <= length close ->
  TA.atr high low close n = Some (wilder n (TA.true_range high low close)).
Proof.
  intros Hn Hh Hl Hs. unfold TA.atr.
  rewrite (length_or_positive 14 n Hn), !verify_series_some by lia.
  cbn [bind]. apply rma_some; [assumption|].
  now rewrite true_range_length.
Qed.

Lemma atr_none (high low close : list float) (n : nat) :
  1 <= n -> length high < n -> TA.atr high low close n = None.
Proof.
  intros Hn Hs. unfold TA.atr.
  rewrite (length_or_positive 14 n Hn), verify_series_none by lia.
  reflexivity.
Qed.

(** ** [init]: the three indicators and their lengths *)

Lemma Strategy_I_some (data : DataFrame) (v : option (list float))
    (r : list float) :
  Strategy_I data v = Some r <-> v = Some r /\ length r = length data.
Proof.
  unfold Strategy_I. destruct v as [w|]; cbn [bind].
  - destruct (Nat.eqb_spec (length w) (length data)) as [E|E].
    + split; [intros [= <-]; auto | intros [[= <-] _]; reflexivity].
    + split; [discriminate | intros [[= <-] E']; contradiction].
  - split; [discriminate | intros [[=] _]].
Qed.

Lemma init_lengths (p : Params) (data : DataFrame) (ind : Indicators) :
  init p data = Some ind ->
  length (ind_rsi ind) = length data
  /\ length (ind_sma ind) = length data
  /\ length (ind_atr ind) = length data.
Proof.
  unfold init. intros H.
  destruct (Strategy_I data (custom_rsi data (rsi_period p))) as [r|] eqn:Er;
    [|discriminate].
  destruct (Strategy_I data (safe_sma (column Close data) (sma_period p)))
    as [s|] eqn:Es;
    [|discriminate].
  destruct (Strategy_I data (TA.atr (column High data) (column Low data)
                           (column Close data) (atr_period p))) as [a|] eqn:Ea;
    [|discriminate].
  cbn [bind] in H. injection H as <-. cbn.
  apply Strategy_I_some in Er, Es, Ea. tauto.
Qed.

Lemma init_some (p : Params) (data : DataFrame) :
  1 <= rsi_period p -> 1 <= sma_period p -> 1 <= atr_period p ->
  rsi_period p <= length data -> atr_period p <= length data ->
  exists ind, init p data = Some ind.
Proof.
  intros Hr Hs Ha Lr La. unfold init.
  destruct (custom_rsi data (rsi_period p)) as [r|] eqn:Er;
    [|rewrite custom_rsi_some in Er by assumption; discriminate].
  assert (Ir : Strategy_I data (Some r) = Some r).
  { apply Strategy_I_some. split; [reflexivity|].
    exact (custom_rsi_length data (rsi_period p) r Hr Er). }
  destruct (safe_sma (column Close data) (sma_period p)) as [s|] eqn:Es;
    [|rewrite safe_sma_some in Es by assumption; discriminate].
  assert (Is : Strategy_I data (Some s) = Some s).
  { apply Strategy_I_some. split; [reflexivity|].
    rewrite (safe_sma_length _ _ s Hs Es). apply column_length. }
  assert (Ia : Strategy_I data (TA.atr (column High data) (column Low data)
                              (column Close data) (atr_period p))
               = Some (wilder (atr_period p)
                         (TA.true_range (column High data) (column Low data)
                                        (column Close data)))).
  { apply Strategy_I_some. split.
    - apply atr_some; rewrite ?column_length; auto.
    - rewrite wilder_length, true_range_length;
        rewrite ?column_length; reflexivity. }
  rewrite Ir, Is, Ia. cbn [bind]. eauto.
Qed.

Lemma init_none_rsi (p : Params) (data : DataFrame) :
  1 <= rsi_period p -> length data < rsi_period p -> init p data = None.
Proof.
  intros Hr Lr. unfold init.
  now rewrite (custom_rsi_none data (rsi_period p) Hr Lr).
Qed.

Lemma init_none_atr (p : Params) (data : DataFrame) :
  1 <= atr_period p -> length data < atr_period p -> init p data = None.
Proof.
  intros Ha La. unfold init.
  rewrite (atr_none (column High data) (column Low data) (column Close data)
             (atr_period p) Ha)
    by (now rewrite column_length).
  destruct (Strategy_I data (custom_rsi data (rsi_period p))); cbn [bind];
    [|reflexivity].
  destruct (Strategy_I data (safe_sma (column Close data) (sma_period p)));
    reflexivity.
Qed.

(** The three indicators are as long as the data exactly when [init]
    returns, which it does when neither the RSI window nor the ATR window
    is longer than the data. *)
Lemma indicator_lengths (p : Params) (data : DataFrame) :
  1 <= rsi_period p -> 1 <= sma_period p -> 1 <= atr_period p ->
  (rsi_period p <= length data /\ atr_period p <= length data ->
   exists ind, init p data = Some ind
               /\ length (ind_rsi ind) = length data
               /\ length (ind_sma ind) = length data
               /\ length (ind_atr ind) = length data)
  /\ (length data < rsi_period p \/ length data < atr_period p ->
      init p data = None).
Proof.
  intros Hr Hs Ha. split.
  - intros [Lr La]. destruct (init_some p data Hr Hs Ha Lr La) as [ind E].
    exists ind. split; [assumption|]. exact (init_lengths p data ind E).
  - intros [L|L]; [now apply init_none_rsi | now apply init_none_atr].
Qed.

(** C7, at the failing input.  On 200 bars with [rsi_period = 201] the SMA
    path pads ([safe_sma] gives 200 NaN for a window of 201), but
    [custom_rsi] returns None, [ta.atr] does so for a window of 201, and
    [init] raises: there are no three series of the data's length. *)
Theorem init_raises_when_window_exceeds_data :
  safe_sma (column Close two_hundred_bars) 201 = Some (repeat Pandas.nan 200)
  /\ custom_rsi two_hundred_bars 201 = None
  /\ TA.atr (column High two_hundred_bars) (column Low two_hundred_bars)
            (column Close two_hundred_bars) 201 = None
  /\ init (with_rsi_period 201 default_params) two_hundred_bars = None.
Proof.
  split; [|split; [|split]].
  - rewrite safe_sma_some by lia. reflexivity.
  - apply custom_rsi_none; cbn; lia.
  - apply atr_none; [lia | rewrite column_length; cbn; lia].
  - apply init_none_rsi; cbn; lia.
Qed.

(** ** Leading NaN entries: how the warm-up adds up *)

Lemma leading_nan_nth (k : nat) (s : list float) :
  leading_nan k s <->
  forall i x, i < k -> nth_error s i = Some x -> x = Pandas.nan.
Proof.
  unfold leading_nan. revert s. induction k as [|k IH]; intros s.
  - cbn. split; [intros _ i x H; lia | constructor].
  - destruct s as [|y s]; cbn [firstn].
    + split; [intros _ [|i] x _ [=] | constructor].
    + split.
      * intros H. inversion H as [|? ? Hy Hs]; subst.
        intros [|i] x Hi Hx; cbn in Hx; [congruence|].
        apply (proj1 (IH s) Hs i x); [lia|assumption].
      * intros H. constructor.
        -- apply (H 0 y); [lia|reflexivity].
        -- apply IH. intros i x Hi Hx. apply (H (S i) x); [lia|assumption].
Qed.

Lemma leading_nan_le (j k : nat) (s : list float) :
  j <= k -> leading_nan k s -> leading_nan j s.
Proof.
  intros Hjk H. apply leading_nan_nth. intros i x Hi Hx.
  apply ((proj1 (leading_nan_nth k s)) H i x); [lia|assumption].
Qed.

Lemma leading_nan_cons (k : nat) (x : float) (s : list float) :
  leading_nan (S k) (x :: s) <-> x = Pandas.nan /\ leading_nan k s.
Proof.
  unfold leading_nan. cbn [firstn]. split.
  - intros H. inversion H; subst; auto.
  - intros [-> H]. now constructor.
Qed.

Lemma leading_nan_nil (k : nat) : leading_nan k [].
Proof. unfold leading_nan. rewrite firstn_nil. constructor. Qed.

Lemma leading_nan_zero (s : list float) : leading_nan 0 s.
Proof. constructor. Qed.

#[local] Hint Resolve leading_nan_nil leading_nan_zero : intents.

Lemma window_mean_short (window : nat) (recent : list float) :
  length recent < window -> Pandas.window_mean window recent = Pandas.nan.
Proof.
  intros H. unfold Pandas.window_mean.
  rewrite firstn_all2 by lia.
  destruct (Nat.eqb_spec (length recent) window) as [E|_]; [lia|].
  now rewrite andb_false_r.
Qed.

Lemma rolling_from_leading (window : nat) (xs recent : list float) (k : nat) :
  length recent + k < window ->
  leading_nan k (Pandas.rolling_from window recent xs).
Proof.
  revert recent k. induction xs as [|x xs IH]; intros recent k H;
    [apply leading_nan_nil|].
  destruct k as [|k]; [apply leading_nan_zero|].
  cbn [Pandas.rolling_from]. apply leading_nan_cons. split.
  - apply window_mean_short. cbn. lia.
  - apply IH. cbn. lia.
Qed.

(** The rolling mean is NaN on its first [window - 1] entries. *)
Lemma rolling_mean_leading (window : nat) (s : list float) :
  leading_nan (window - 1) (Pandas.rolling_mean window s).
Proof.
  destruct window as [|w]; [apply leading_nan_zero|].
  apply rolling_from_leading. cbn. lia.
Qed.

Lemma zip_with_leading_r (f : float -> float -> float) (k : nat)
    (xs ys : list float) :
  (forall x, f x Pandas.nan = Pandas.nan) ->
  leading_nan k ys -> leading_nan k (Pandas.zip_with f xs ys).
Proof.
  intros Hf. revert xs ys.
  induction k as [|k IH]; intros xs ys H; [apply leading_nan_zero|].
  destruct xs as [|x xs]; [apply leading_nan_nil|].
  destruct ys as [|y ys]; [apply leading_nan_nil|].
  apply leading_nan_cons in H as [-> H]. cbn [Pandas.zip_with].
  apply leading_nan_cons. split; [apply Hf | now apply IH].
Qed.

Lemma zip_with_leading_l (f : float -> float -> float) (k : nat)
    (xs ys : list float) :
  (forall y, f Pandas.nan y = Pandas.nan) ->
  leading_nan k xs -> leading_nan k (Pandas.zip_with f xs ys).
Proof.
  intros Hf. revert xs ys.
  induction k as [|k IH]; intros xs ys H; [apply leading_nan_zero|].
  destruct xs as [|x xs]; [apply leading_nan_nil|].
  destruct ys as [|y ys]; [apply leading_nan_nil|].
  apply leading_nan_cons in H as [-> H]. cbn [Pandas.zip_with].
  apply leading_nan_cons. split; [apply Hf | now apply IH].
Qed.

Lemma map_leading (f : float -> float) (k : nat) (s : list float) :
  f Pandas.nan = Pandas.nan -> leading_nan k s -> leading_nan k (map f s).
Proof.
  intros Hf. revert s.
  induction k as [|k IH]; intros s H; [apply leading_nan_zero|].
  destruct s as [|x s]; [apply leading_nan_nil|].
  apply leading_nan_cons in H as [-> H]. cbn [map].
  apply leading_nan_cons. split; [exact Hf | now apply IH].
Qed.

Lemma diff_from_leading (xs : list float) (k : nat) :
  leading_nan k xs -> leading_nan (S k) (Pandas.diff_from Pandas.nan xs).
Proof.
  revert k. induction xs as [|x xs IH]; intros k H; [apply leading_nan_nil|].
  cbn [Pandas.diff_from]. apply leading_nan_cons. split.
  - apply F.sub_nan_r.
  - destruct k as [|k]; [apply leading_nan_zero|].
    apply leading_nan_cons in H as [-> H]. now apply IH.
Qed.

(** [diff] makes the NaN prefix one entry longer. *)
Lemma diff_leading (s : list float) (k : nat) :
  leading_nan k s -> leading_nan (S k) (Pandas.diff s).
Proof.
  intros H. destruct s as [|x s]; [apply leading_nan_nil|].
  cbn [Pandas.diff]. apply leading_nan_cons. split; [reflexivity|].
  destruct k as [|k]; [apply leading_nan_zero|].
  apply leading_nan_cons in H as [-> H]. now apply diff_from_leading.
Qed.

Lemma ewm_step_nobs_le (f w : float) (st : Pandas.ewm_state) (x : float) :
  Pandas.nobs (Pandas.ewm_step f w st x) <= S (Pandas.nobs st).
Proof.
  unfold Pandas.ewm_step.
  destruct (Pandas.is_observation (Pandas.weighted st)),
    (Pandas.is_observation x); cbn; lia.
Qed.

Lemma ewm_step_nobs_nan (f w : float) (st : Pandas.ewm_state) :
  Pandas.nobs (Pandas.ewm_step f w st Pandas.nan) = Pandas.nobs st.
Proof.
  unfold Pandas.ewm_step.
  change (Pandas.is_observation Pandas.nan) with false.
  destruct (Pandas.is_observation (Pandas.weighted st)); reflexivity.
Qed.

Lemma ewm_output_nan (minp : nat) (st : Pandas.ewm_state) :
  Pandas.nobs st < minp -> Pandas.ewm_output minp st = Pandas.nan.
Proof.
  intros H. unfold Pandas.ewm_output.
  destruct (Nat.leb_spec minp (Pandas.nobs st)); [lia|reflexivity].
Qed.

(** After [k] NaN inputs the exponential mean stays NaN for as long as it
    has counted fewer than [minp] observations: [d] more entries when the
    count stands at [minp - 1 - d] or less. *)
Lemma ewm_from_leading (f w : float) (minp : nat) (xs : list float)
    (st : Pandas.ewm_state) (k d : nat) :
  leading_nan k xs -> Pandas.nobs st + d < minp ->
  leading_nan (k + d) (Pandas.ewm_from f w minp st xs).
Proof.
  revert st k d. induction xs as [|x xs IH]; intros st k d Hk Hd;
    [apply leading_nan_nil|].
  cbn [Pandas.ewm_from]. destruct k as [|k].
  - destruct d as [|d]; [apply leading_nan_zero|].
    cbn [Nat.add]. apply leading_nan_cons.
    pose proof (ewm_step_nobs_le f w st x). split.
    + apply ewm_output_nan. lia.
    + apply (IH _ 0 d); [apply leading_nan_zero | lia].
  - apply leading_nan_cons in Hk as [-> Hk].
    cbn [Nat.add]. apply leading_nan_cons. split.
    + apply ewm_output_nan. rewrite ewm_step_nobs_nan. lia.
    + apply IH; [assumption | rewrite ewm_step_nobs_nan; lia].
Qed.

Lemma ewm_mean_leading (alpha : float) (n : nat) (s : list float) (k : nat) :
  1 <= n -> leading_nan k s ->
  leading_nan (k + n - 1) (Pandas.ewm_mean alpha n s).
Proof.
  intros Hn H. destruct s as [|x s]; [apply leading_nan_nil|].
  unfold Pandas.ewm_mean. rewrite (Nat.max_l n 1) by lia.
  destruct k as [|k].
  - destruct n as [|[|n]]; [lia | apply leading_nan_zero |].
    replace (0 + S (S n) - 1) with (S (0 + n)) by lia.
    apply leading_nan_cons. split.
    + apply ewm_output_nan. cbn [Pandas.nobs].
      destruct (Pandas.is_observation x); lia.
    + apply ewm_from_leading; [apply leading_nan_zero|].
      cbn [Pandas.nobs]. destruct (Pandas.is_observation x); lia.
  - apply leading_nan_cons in H as [-> H].
    replace (S k + n - 1) with (S (k + (n - 1))) by lia.
    apply leading_nan_cons. split.
    + apply ewm_output_nan. cbn. lia.
    + apply ewm_from_leading; [assumption | cbn; lia].
Qed.

Lemma rsi_value_nan_l (y : float) : TA.rsi_value Pandas.nan y = Pandas.nan.
Proof.
  unfold TA.rsi_value.
  rewrite (F.mul_nan_r 100). apply F.div_nan_l.
Qed.

(** The adjusted price is NaN until the volume average has its window. *)
Lemma adjusted_price_leading (data : DataFrame) (n : nat) :
  leading_nan (n - 1) (adjusted_price data n).
Proof.
  unfold adjusted_price, normalized_volume, volume_average.
  apply zip_with_leading_r; [apply F.mul_nan_r|].
  apply zip_with_leading_r; [apply F.div_nan_r|].
  apply rolling_mean_leading.
Qed.

Lemma gains_leading (s : list float) (k : nat) :
  leading_nan k s -> leading_nan (S k) (gains s).
Proof.
  intros H. unfold gains. apply map_leading; [reflexivity|].
  now apply diff_leading.
Qed.

(** ** Division by zero in [custom_rsi] (lines 91-97) *)

Lemma zip_with_nth (f : float -> float -> float) (xs ys : list float)
    (i : nat) :
  nth_error (Pandas.zip_with f xs ys) i
  = match nth_error xs i, nth_error ys i with
    | Some x, Some y => Some (f x y)
    | _, _ => None
    end.
Proof.
  revert ys i. induction xs as [|x xs IH]; intros [|y ys] [|i]; cbn; auto.
  - destruct (nth_error xs i); reflexivity.
Qed.

Lemma isnan_nan_iff_false (x : float) :
  Py.isnan x = false <-> Prim2SF x <> S754_nan.
Proof.
  pose proof (F.isnan_SF x) as H. destruct (Py.isnan x).
  - split; [discriminate | intros N; exfalso; apply N, H; reflexivity].
  - split; [intros _ E; apply H in E; discriminate | reflexivity].
Qed.

(** The last line of [ta.rsi] when the average loss is zero. *)
Lemma rsi_value_zero_loss (g l : float) :
  PrimFloat.eqb l 0 = true ->
  (PrimFloat.eqb g 0 = true -> Py.isnan (TA.rsi_value g l) = true)
  /\ (finite_nonzero g = true ->
      TA.rsi_value g l = (100 * g / g)%float
      /\ Py.isnan (TA.rsi_value g l) = false).
Proof.
  intros Hl. split.
  - intros Hg. apply F.isnan_SF. unfold TA.rsi_value.
    apply F.eqb_zero_SF in Hl as [sl Hl]. apply F.eqb_zero_SF in Hg as [sg Hg].
    rewrite div_spec, mul_spec, add_spec, abs_spec, Hg, Hl.
    destruct sg; reflexivity.
  - intros Hg. unfold TA.rsi_value. rewrite (F.add_abs_zero g l Hg Hl).
    split; [reflexivity|].
    apply isnan_nan_iff_false.
    apply F.finite_nonzero_SF in Hg as (s & m & e & Hg).
    rewrite div_spec, Hg. apply F.SFdiv_finite_not_nan.
    rewrite mul_spec, Hg.
    change (Prim2SF 100) with (S754_finite false 7036874417766400 (-46)).
    apply F.SFmul_finite_not_nan. discriminate.
Qed.

(** C6, as the code has it.  At every bar the normalized volume is
    Volume[i] / volAvg[i] and the adjusted price is hlc3[i] times that: both
    are NaN when volAvg[i] is NaN, and when volAvg[i] is zero and Volume[i]
    is zero or NaN; when volAvg[i] is zero and Volume[i] is any other
    number the normalized volume is an infinity.  Where the Wilder average
    loss is zero, the RSI is NaN if the average gain is zero too, and is the
    number 100 * g / g if the average gain [g] is finite and not zero.
    None of this raises: with at least [length >= 1] bars [custom_rsi]
    returns a series as long as the data. *)
Theorem division_by_zero (data : DataFrame) (n : nat) :
  (forall i v m h,
      nth_error (column Volume data) i = Some v ->
      nth_error (volume_average data n) i = Some m ->
      nth_error (hlc3 data) i = Some h ->
      nth_error (normalized_volume data n) i = Some (v / m)%float
      /\ nth_error (adjusted_price data n) i = Some (h * (v / m))%float
      /\ (Py.isnan m = true ->
          Py.isnan (v / m) = true /\ Py.isnan (h * (v / m)) = true)
      /\ (PrimFloat.eqb m 0 = true ->
          (PrimFloat.eqb v 0 = true \/ Py.isnan v = true ->
           Py.isnan (v / m) = true /\ Py.isnan (h * (v / m)) = true)
          /\ (PrimFloat.eqb v 0 = false -> Py.isnan v = false ->
              PrimFloat.is_infinity (v / m) = true)))
  /\ (forall r avgs i g l,
         1 <= n ->
         custom_rsi data n = Some r ->
         custom_rsi_averages data n = Some avgs ->
         nth_error (fst avgs) i = Some g ->
         nth_error (snd avgs) i = Some l ->
         PrimFloat.eqb l 0 = true ->
         nth_error r i = Some (TA.rsi_value g l)
         /\ (PrimFloat.eqb g 0 = true -> Py.isnan (TA.rsi_value g l) = true)
         /\ (finite_nonzero g = true ->
             TA.rsi_value g l = (100 * g / g)%float
             /\ Py.isnan (TA.rsi_value g l) = false))
  /\ (1 <= n -> n <= length data ->
      exists r, custom_rsi data n = Some r /\ length r = length data).
Proof.
  split; [|split].
  - intros i v m h Hv Hm Hh.
    assert (Env : nth_error (normalized_volume data n) i = Some (v / m)%float).
    { unfold normalized_volume. now rewrite zip_with_nth, Hv, Hm. }
    assert (Ead : nth_error (adjusted_price data n) i
                  = Some (h * (v / m))%float).
    { unfold adjusted_price. now rewrite zip_with_nth, Hh, Env. }
    split; [exact Env|]. split; [exact Ead|]. split.
    + intros Hn. apply F.isnan_eq in Hn. subst m.
      rewrite F.div_nan_r, F.mul_nan_r. split; reflexivity.
    + intros Hz. destruct (F.div_by_zero v m Hz) as [Hnan Hinf].
      split; [|exact Hinf].
      intros Hv0. specialize (Hnan Hv0). split; [exact Hnan|].
      apply F.isnan_eq in Hnan. rewrite Hnan, F.mul_nan_r. reflexivity.
  - intros r avgs i g l Hn Hr Ha Hg Hl Hz.
    split; [|exact (rsi_value_zero_loss g l Hz)].
    unfold custom_rsi, TA.rsi in Hr. unfold custom_rsi_averages in Ha.
    rewrite Ha in Hr. cbn [bind] in Hr. injection Hr as <-.
    now rewrite zip_with_nth, Hg, Hl.
  - intros Hn Hs. eexists. split; [apply (custom_rsi_some data n Hn Hs)|].
    rewrite zip_with_length, !wilder_length, gains_length, losses_length,
      adjusted_price_length. lia.
Qed.

(** On a market that does not move the average loss is zero at bar 3 and
    the RSI there is NaN; on [tiny_volume_bars] the volume average of bar 1
    is zero and the normalized volume is infinite. *)
Lemma division_by_zero_witness :
  (nth_error [Pandas.nan; Pandas.nan; Pandas.nan; Pandas.nan; Pandas.nan;
              Pandas.nan] 3 = Some (TA.rsi_value 0 0)
   /\ Py.isnan (TA.rsi_value 0 0) = true)
  /\ (nth_error (normalized_volume tiny_volume_bars 2) 1
      = Some (0x1p-1074 / 0)%float
      /\ PrimFloat.is_infinity (0x1p-1074 / 0) = true).
Proof.
  split.
  - destruct (division_by_zero six_flat_bars 2) as (_ & H & _).
    destruct (H [Pandas.nan; Pandas.nan; Pandas.nan; Pandas.nan; Pandas.nan;
                 Pandas.nan]
                ([Pandas.nan; Pandas.nan; Pandas.nan; 0; 0; 0]%float,
                 [Pandas.nan; Pandas.nan; Pandas.nan; 0; 0; 0]%float)
                3 0%float 0%float (le_S 1 1 (le_n 1))
                eq_refl eq_refl eq_refl eq_refl eq_refl) as (H1 & H2 & _).
    split; [exact H1 | exact (H2 eq_refl)].
  - destruct (division_by_zero tiny_volume_bars 2) as (H & _).
    destruct (H 1 0x1p-1074%float 0%float 1%float eq_refl eq_refl eq_refl)
      as (H1 & _ & _ & H2).
    split; [exact H1|].
    destruct (H2 eq_refl) as [_ H3]. exact (H3 eq_refl eq_refl).
Defined.

(** C6 as stated fails: on six equal bars with [length = 2] the Wilder
    average loss at bar 3 is zero and the RSI there is NaN, not 100. *)
Lemma division_by_zero_spec_refuted : ~ spec_division_by_zero.
Proof.
  intros [_ H].
  specialize (H six_flat_bars 2
                [Pandas.nan; Pandas.nan; Pandas.nan; Pandas.nan; Pandas.nan;
                 Pandas.nan]
                ([Pandas.nan; Pandas.nan; Pandas.nan; 0; 0; 0]%float,
                 [Pandas.nan; Pandas.nan; Pandas.nan; 0; 0; 0]%float)
                3 0%float Pandas.nan (le_S 1 1 (le_n 1))
                eq_refl eq_refl eq_refl eq_refl eq_refl).
  assert (E : Py.isnan Pandas.nan = Py.isnan 100) by (now rewrite H).
  discriminate E.
Qed.

(** The first half of C6 as stated fails too, on volumes that are not
    negative: the mean of 0 and the smallest positive float rounds to zero,
    and the normalized volume of bar 1 is infinite. *)
Example zero_volume_average_gives_infinity :
  nth_error (column Volume tiny_volume_bars) 1 = Some 0x1p-1074%float
  /\ nth_error (volume_average tiny_volume_bars 2) 1 = Some 0%float
  /\ nth_error (normalized_volume tiny_volume_bars 2) 1 = Some infinity.
Proof. repeat split. Qed.

(** ** No look-ahead: every operation commutes with taking a prefix *)

Lemma firstn_zip_with (f : float -> float -> float) (n : nat)
    (xs ys : list float) :
  firstn n (Pandas.zip_with f xs ys)
  = Pandas.zip_with f (firstn n xs) (firstn n ys).
Proof.
  revert xs ys. induction n as [|n IH]; intros [|x xs] [|y ys]; cbn;
    try reflexivity.
  now rewrite IH.
Qed.

Lemma firstn_zip_with3 (f : float -> float -> float -> float) (n : nat)
    (xs ys zs : list float) :
  firstn n (TA.zip_with3 f xs ys zs)
  = TA.zip_with3 f (firstn n xs) (firstn n ys) (firstn n zs).
Proof.
  revert xs ys zs.
  induction n as [|n IH]; intros [|x xs] [|y ys] [|z zs]; cbn;
    try reflexivity.
  now rewrite IH.
Qed.

Lemma firstn_rolling_from (window n : nat) (recent xs : list float) :
  firstn n (Pandas.rolling_from window recent xs)
  = Pandas.rolling_from window recent (firstn n xs).
Proof.
  revert recent xs. induction n as [|n IH]; intros recent [|x xs]; cbn;
    try reflexivity.
  now rewrite IH.
Qed.

Lemma firstn_diff_from (n : nat) (prev : float) (xs : list float) :
  firstn n (Pandas.diff_from prev xs) = Pandas.diff_from prev (firstn n xs).
Proof.
  revert prev xs. induction n as [|n IH]; intros prev [|x xs]; cbn;
    try reflexivity.
  now rewrite IH.
Qed.

Lemma firstn_diff (n : nat) (s : list float) :
  firstn n (Pandas.diff s) = Pandas.diff (firstn n s).
Proof.
  destruct n as [|n]; destruct s as [|x s]; cbn; try reflexivity.
  now rewrite firstn_diff_from.
Qed.

Lemma firstn_shift_from (n : nat) (prev : float) (xs : list float) :
  firstn n (Pandas.shift_from prev xs) = Pandas.shift_from prev (firstn n xs).
Proof.
  revert prev xs. induction n as [|n IH]; intros prev [|x xs]; cbn;
    try reflexivity.
  now rewrite IH.
Qed.

Lemma firstn_ewm_from (f w : float) (minp n : nat) (st : Pandas.ewm_state)
    (xs : list float) :
  firstn n (Pandas.ewm_from f w minp st xs)
  = Pandas.ewm_from f w minp st (firstn n xs).
Proof.
  revert st xs. induction n as [|n IH]; intros st [|x xs]; cbn;
    try reflexivity.
  now rewrite IH.
Qed.

Lemma firstn_ewm_mean (alpha : float) (minp n : nat) (s : list float) :
  firstn n (Pandas.ewm_mean alpha minp s)
  = Pandas.ewm_mean alpha minp (firstn n s).
Proof.
  destruct n as [|n]; destruct s as [|x s]; cbn; try reflexivity.
  now rewrite firstn_ewm_from.
Qed.

Lemma firstn_column (f : Bar -> float) (n : nat) (data : DataFrame) :
  firstn n (column f data) = column f (firstn n data).
Proof. apply firstn_map. Qed.

Lemma firstn_adjusted_price (n k : nat) (data : DataFrame) :
  firstn n (adjusted_price data k) = adjusted_price (firstn n data) k.
Proof.
  unfold adjusted_price, normalized_volume, volume_average, hlc3,
    Pandas.rolling_mean.
  now rewrite !firstn_zip_with, firstn_map, !firstn_zip_with,
    firstn_rolling_from, !firstn_column.
Qed.

Lemma firstn_rsi_series (n k : nat) (data : DataFrame) :
  firstn n (rsi_series data k) = rsi_series (firstn n data) k.
Proof.
  unfold rsi_series, wilder, gains, losses.
  now rewrite firstn_zip_with, !firstn_ewm_mean, !firstn_map, !firstn_diff,
    firstn_adjusted_price.
Qed.

Lemma firstn_true_range_with (b : bool) (n : nat)
    (high low close : list float) :
  firstn n (true_range_with b high low close)
  = true_range_with b (firstn n high) (firstn n low) (firstn n close).
Proof.
  unfold true_range_with, range_with, Pandas.shift.
  rewrite <- firstn_shift_from, <- !firstn_zip_with.
  replace (if b
           then map (fun x => (x + TA.epsilon)%float)
                    (firstn n (Pandas.zip_with PrimFloat.sub high low))
           else firstn n (Pandas.zip_with PrimFloat.sub high low))
    with (firstn n (if b
                    then map (fun x => (x + TA.epsilon)%float)
                             (Pandas.zip_with PrimFloat.sub high low)
                    else Pandas.zip_with PrimFloat.sub high low))
    by (destruct b; [apply firstn_map | reflexivity]).
  rewrite <- firstn_zip_with3.
  destruct (TA.zip_with3 _ _ _ _) as [|t ts]; destruct n; reflexivity.
Qed.

Lemma true_range_as_with (data : DataFrame) :
  TA.true_range (column High data) (column Low data) (column Close data)
  = true_range_with (has_zero_range data) (column High data)
      (column Low data) (column Close data).
Proof. reflexivity. Qed.

(** A rolling mean over more values than there are is NaN throughout, which
    is what [safe_sma] returns by hand. *)
Lemma all_nan_repeat (s : list float) :
  leading_nan (length s) s -> s = repeat Pandas.nan (length s).
Proof.
  unfold leading_nan. rewrite firstn_all.
  induction 1 as [|x s Hx _ IH]; cbn; [reflexivity|]. now rewrite Hx, <- IH.
Qed.

Lemma rolling_mean_short (n : nat) (s : list float) :
  length s < n -> Pandas.rolling_mean n s = repeat Pandas.nan (length s).
Proof.
  intros H.
  pose proof (all_nan_repeat (Pandas.rolling_mean n s)) as E.
  rewrite rolling_mean_length in E. apply E.
  apply (leading_nan_le (length s) (n - 1)); [lia|].
  apply rolling_mean_leading.
Qed.

Lemma safe_sma_rolling (close : list float) (n : nat) :
  1 <= n -> safe_sma close n = Some (Pandas.rolling_mean n close).
Proof.
  intros Hn. rewrite (safe_sma_some close n Hn).
  destruct (Nat.ltb_spec (length close) n) as [H|H]; [|reflexivity].
  now rewrite rolling_mean_short.
Qed.

(** What [init] computes, when it returns. *)
Lemma init_series (p : Params) (data : DataFrame) (ind : Indicators) :
  1 <= rsi_period p -> 1 <= sma_period p -> 1 <= atr_period p ->
  init p data = Some ind ->
  ind_rsi ind = rsi_series data (rsi_period p)
  /\ ind_sma ind = Pandas.rolling_mean (sma_period p) (column Close data)
  /\ ind_atr ind
     = wilder (atr_period p)
         (true_range_with (has_zero_range data) (column High data)
            (column Low data) (column Close data)).
Proof.
  intros Hr Hs Ha H.
  destruct (Nat.le_gt_cases (rsi_period p) (length data)) as [Lr|Lr];
    [|rewrite (init_none_rsi p data Hr Lr) in H; discriminate].
  destruct (Nat.le_gt_cases (atr_period p) (length data)) as [La|La];
    [|rewrite (init_none_atr p data Ha La) in H; discriminate].
  unfold init in H.
  rewrite (custom_rsi_some data _ Hr Lr) in H.
  rewrite (safe_sma_rolling (column Close data) _ Hs) in H.
  rewrite (atr_some (column High data) (column Low data) (column Close data)
             (atr_period p) Ha) in H
    by (rewrite ?column_length; auto).
  fold (rsi_series data (rsi_period p)) in H.
  destruct (Strategy_I data (Some (rsi_series data (rsi_period p))))
    as [r|] eqn:Er;
    [|discriminate].
  destruct (Strategy_I data (Some (Pandas.rolling_mean (sma_period p)
                            (column Close data)))) as [s|] eqn:Es;
    [|discriminate].
  destruct (Strategy_I data (Some (wilder (atr_period p)
                            (TA.true_range (column High data)
                               (column Low data) (column Close data)))))
    as [a|] eqn:Ea; [|discriminate].
  cbn [bind] in H. injection H as <-. cbn.
  apply Strategy_I_some in Er as [[= <-] _].
  apply Strategy_I_some in Es as [[= <-] _].
  apply Strategy_I_some in Ea as [[= <-] _]. auto.
Qed.

Lemma nth_error_of_prefix (i : nat) (xs ys : list float) :
  firstn (S i) xs = firstn (S i) ys -> nth_error xs i = nth_error ys i.
Proof.
  intros H.
  assert (E : forall l : list float,
             nth_error (firstn (S i) l) i = nth_error l i).
  { intros l. rewrite nth_error_firstn.
    destruct (Nat.ltb_spec i (S i)); [reflexivity|lia]. }
  rewrite <- (E xs), <- (E ys). now rewrite H.
Qed.

(** C9, as the code has it.  Let two bar sequences agree on bars 0 to [i]
    and let [init] return on both.  Then the RSI and the SMA agree up to
    bar [i].  If moreover both sequences, or neither, contain a bar with
    High equal to Low (pandas_ta shifts every High - Low range by the
    machine epsilon as soon as one bar of the whole data has a zero range),
    the ATR agrees up to bar [i] as well, and [next] emits the same intents
    at bar [i] for the same position state. *)
Theorem no_lookahead (p : Params) (data1 data2 : DataFrame)
    (ind1 ind2 : Indicators) (i : nat) :
  1 <= rsi_period p -> 1 <= sma_period p -> 1 <= atr_period p ->
  firstn (S i) data1 = firstn (S i) data2 ->
  init p data1 = Some ind1 ->
  init p data2 = Some ind2 ->
  (firstn (S i) (ind_rsi ind1) = firstn (S i) (ind_rsi ind2)
   /\ nth_error (ind_rsi ind1) i = nth_error (ind_rsi ind2) i)
  /\ (firstn (S i) (ind_sma ind1) = firstn (S i) (ind_sma ind2)
      /\ nth_error (ind_sma ind1) i = nth_error (ind_sma ind2) i)
  /\ (has_zero_range data1 = has_zero_range data2 ->
      firstn (S i) (ind_atr ind1) = firstn (S i) (ind_atr ind2)
      /\ nth_error (ind_atr ind1) i = nth_error (ind_atr ind2) i
      /\ forall pos, run_bar p data1 pos i = run_bar p data2 pos i).
Proof.
  intros Hr Hs Ha Hd H1 H2.
  destruct (init_series p data1 ind1 Hr Hs Ha H1) as (R1 & S1 & A1).
  destruct (init_series p data2 ind2 Hr Hs Ha H2) as (R2 & S2 & A2).
  assert (ER : firstn (S i) (ind_rsi ind1) = firstn (S i) (ind_rsi ind2)).
  { rewrite R1, R2, !firstn_rsi_series. now rewrite Hd. }
  assert (ES : firstn (S i) (ind_sma ind1) = firstn (S i) (ind_sma ind2)).
  { rewrite S1, S2. unfold Pandas.rolling_mean.
    rewrite !firstn_rolling_from, !firstn_column. now rewrite Hd. }
  split; [split; [exact ER | now apply nth_error_of_prefix]|].
  split; [split; [exact ES | now apply nth_error_of_prefix]|].
  intros Hz.
  assert (EA : firstn (S i) (ind_atr ind1) = firstn (S i) (ind_atr ind2)).
  { rewrite A1, A2. unfold wilder.
    rewrite !firstn_ewm_mean, !firstn_true_range_with, !firstn_column.
    now rewrite Hd, Hz. }
  split; [exact EA|]. split; [now apply nth_error_of_prefix|].
  intros pos. unfold run_bar. rewrite H1, H2. cbn [bind].
  unfold next_at, view_at, Py.slice_to.
  rewrite ER, ES, EA, !firstn_column. now rewrite Hd.
Qed.

Lemma no_lookahead_witness :
  nth_error [Pandas.nan; 100; 100; 100]%float 2
  = nth_error [Pandas.nan; 100; 100; 100]%float 2
  /\ nth_error [1; 2; 3; 4]%float 2 = nth_error [1; 2; 3; 9]%float 2
  /\ nth_error [Pandas.nan; 1; 1; 1]%float 2
     = nth_error [Pandas.nan; 1; 1; 6]%float 2.
Proof.
  destruct (no_lookahead (with_periods 1 1 1 default_params)
              rising_bars rising_bars_then_jump
              (mkIndicators [Pandas.nan; 100; 100; 100]%float
                            [1; 2; 3; 4]%float [Pandas.nan; 1; 1; 1]%float)
              (mkIndicators [Pandas.nan; 100; 100; 100]%float
                            [1; 2; 3; 9]%float [Pandas.nan; 1; 1; 6]%float)
              2 (le_n 1) (le_n 1) (le_n 1) eq_refl eq_refl eq_refl)
    as ((_ & HR) & (_ & HS) & HA).
  destruct (HA eq_refl) as (_ & HA' & _).
  exact (conj HR (conj HS HA')).
Defined.

(** C9 as stated fails for the ATR: [two_bars] and [three_bars] agree on
    bars 0 and 1, but the third bar of [three_bars] has High = Low, which
    moves the ATR of bar 1 from 0.5 to the next float above it. *)
Lemma no_lookahead_spec_refuted : ~ spec_no_lookahead.
Proof.
  intros H.
  destruct (H (with_periods 1 1 1 default_params) two_bars three_bars
              (mkIndicators [Pandas.nan; Pandas.nan] [1.25; 1.25]%float
                            [Pandas.nan; 0.5]%float)
              (mkIndicators [Pandas.nan; Pandas.nan; 100]%float
                            [1.25; 1.25; 2]%float
                            [Pandas.nan; 0x1.0000000000002p-1; 0.75]%float)
              1 (le_n 1) (le_n 1) (le_n 1) (le_n 2) (le_S 2 2 (le_n 2))
              eq_refl eq_refl eq_refl)
    as (_ & _ & HA & _).
  pose proof (f_equal (fun o : option float =>
                         match o with
                         | Some x => PrimFloat.eqb 0.5 x
                         | None => false
                         end) HA) as E.
  vm_compute in E. discriminate E.
Qed.

(** ** Rounding to nearest keeps the order with a float

    [x - y] and [x + y] are the exact difference and sum of two scaled
    integers, rounded by [binary_round].  The lemmas below follow that
    rounding (shift right, round to nearest even, shift again if the
    mantissa overflowed) far enough to compare its result with [x]. *)
Module Round.

Import IEEE.

Local Open Scope Z_scope.

(** *** The number of binary digits *)

Lemma digits2_size (p : positive) : digits2_pos p = Pos.size p.
Proof. induction p; cbn; congruence. Qed.

Lemma digits_bounds (p : positive) :
  2 ^ (Zpos (digits2_pos p) - 1) <= Zpos p < 2 ^ Zpos (digits2_pos p).
Proof.
  rewrite digits2_size. split.
  - pose proof (Pos.size_le p) as H.
    assert (H' : 2 ^ Zpos (Pos.size p) <= 2 * Zpos p).
    { rewrite <- Pos2Z.inj_pow. change (2 * Zpos p) with (Zpos p~0).
      exact H. }
    replace (Zpos (Pos.size p)) with (Zpos (Pos.size p) - 1 + 1) in H'
      by lia.
    rewrite Z.pow_add_r in H' by lia. lia.
  - pose proof (Pos.size_gt p) as H.
    rewrite <- Pos2Z.inj_pow. exact H.
Qed.

Lemma digits_unique (p : positive) (d : Z) :
  2 ^ (d - 1) <= Zpos p < 2 ^ d -> Zpos (digits2_pos p) = d.
Proof.
  intros [H1 H2]. destruct (digits_bounds p) as [B1 B2].
  assert (0 < d).
  { destruct (Z.ltb_spec 0 d); auto.
    destruct (Z.eq_dec d 0) as [->|];
      [cbn in H2; lia | rewrite Z.pow_neg_r in H2 by lia; lia]. }
  assert (d - 1 < Zpos (digits2_pos p))
    by (apply (Z.pow_lt_mono_r_iff 2); lia).
  assert (Zpos (digits2_pos p) - 1 < d)
    by (apply (Z.pow_lt_mono_r_iff 2); lia).
  lia.
Qed.

Lemma digits_mono (p q : positive) :
  Zpos p <= Zpos q -> Zpos (digits2_pos p) <= Zpos (digits2_pos q).
Proof.
  intros H. destruct (digits_bounds p) as [B1 _].
  destruct (digits_bounds q) as [_ B2].
  assert (Zpos (digits2_pos p) - 1 < Zpos (digits2_pos q))
    by (apply (Z.pow_lt_mono_r_iff 2); lia).
  lia.
Qed.

Lemma pow2_pos (k : Z) : 0 <= k -> 0 < 2 ^ k.
Proof. intros. apply Z.pow_pos_nonneg; lia. Qed.

Lemma pow2_split (a b : Z) : 0 <= a -> 0 <= b -> 2 ^ (a + b) = 2 ^ a * 2 ^ b.
Proof. intros. apply Z.pow_add_r; lia. Qed.

Lemma digits_shift (p : positive) (k : Z) (q : positive) :
  0 <= k -> Zpos q = Zpos p * 2 ^ k ->
  Zpos (digits2_pos q) = Zpos (digits2_pos p) + k.
Proof.
  intros Hk E. apply digits_unique. destruct (digits_bounds p) as [B1 B2].
  rewrite E.
  replace (Zpos (digits2_pos p) + k - 1) with (Zpos (digits2_pos p) - 1 + k)
    by lia.
  rewrite !Z.pow_add_r by lia.
  pose proof (pow2_pos k Hk). split; nia.
Qed.

Lemma Zdigits2_bounds (a : Z) :
  0 < a -> 2 ^ (Zdigits2 a - 1) <= a < 2 ^ Zdigits2 a.
Proof. destruct a as [|p|p]; try lia. intros _. apply digits_bounds. Qed.

Lemma Zdigits2_nonneg (a : Z) : 0 <= Zdigits2 a.
Proof. destruct a; cbn; lia. Qed.

Lemma Zdigits2_mono (a b : Z) : 0 <= a <= b -> Zdigits2 a <= Zdigits2 b.
Proof.
  intros [Ha Hab]. destruct a as [|p|p]; try lia.
  - apply Zdigits2_nonneg.
  - destruct b as [|q|q]; try lia. now apply digits_mono.
Qed.

Lemma Zdigits2_shift (a k : Z) :
  0 < a -> 0 <= k -> Zdigits2 (a * 2 ^ k) = Zdigits2 a + k.
Proof.
  intros Ha Hk. destruct a as [|p|p]; try lia.
  pose proof (pow2_pos k Hk) as P.
  destruct (Zpos p * 2 ^ k) as [|q|q] eqn:E; try lia.
  cbn [Zdigits2]. apply (digits_shift p k q); lia.
Qed.

(** *** Shifting right *)

Lemma shr_1_inv (M k : Z) (mrs : shr_record) :
  0 <= M -> shr_inv M k mrs -> shr_inv M (k + 1) (shr_1 mrs).
Proof.
  intros HM (Hk & Hm & Hex). destruct mrs as [m r s].
  cbn [shr_m shr_r shr_s] in *.
  pose proof (pow2_pos k Hk) as P.
  assert (Hm0 : 0 <= m) by (subst m; apply Z.div_pos; lia).
  assert (E2 : 2 ^ (k + 1) = 2 ^ k * 2)
    by (rewrite Z.pow_add_r by lia; reflexivity).
  assert (D : M / 2 ^ (k + 1) = m / 2).
  { rewrite E2, <- Z.div_div by lia. now rewrite Hm. }
  assert (Mod : M mod 2 ^ (k + 1) = 0 -> M mod 2 ^ k = 0 /\ m mod 2 = 0).
  { intros H0. rewrite E2 in H0.
    rewrite Z.rem_mul_r in H0 by lia. rewrite <- Hm in H0.
    pose proof (Z.mod_pos_bound M (2 ^ k) P).
    pose proof (Z.mod_pos_bound m 2 ltac:(lia)). nia. }
  split; [lia|]. split.
  - rewrite D. clear - Hm0. destruct m as [|[p|p|]|p]; cbn [shr_1 shr_m].
    + reflexivity.
    + apply Z.div_unique with (r := 1); lia.
    + apply Z.div_unique with (r := 0); lia.
    + reflexivity.
    + lia.
  - intros H0. destruct (Mod H0) as [Ha Hb]. destruct (Hex Ha) as [-> ->].
    clear - Hb Hm0. destruct m as [|[p|p|]|p]; cbn; auto.
    + exfalso. rewrite Pos2Z.inj_xI in Hb.
      replace (2 * Z.pos p + 1) with (1 + Z.pos p * 2) in Hb by lia.
      rewrite Z.mod_add in Hb by lia. discriminate.
    + discriminate.
    + lia.
Qed.

Lemma iter_shr_inv (M : Z) (p : positive) :
  0 <= M ->
  forall k mrs, shr_inv M k mrs ->
                shr_inv M (k + Zpos p) (iter_pos shr_1 p mrs).
Proof.
  intros HM. induction p as [p IH|p IH|]; intros k mrs H; cbn [iter_pos].
  - replace (k + Zpos p~1) with (k + 1 + Zpos p + Zpos p) by lia.
    apply IH, IH. now apply shr_1_inv.
  - replace (k + Zpos p~0) with (k + Zpos p + Zpos p) by lia.
    apply IH, IH. assumption.
  - now apply shr_1_inv.
Qed.

Lemma shr_inv_0 (M : Z) : shr_inv M 0 (Build_shr_record M false false).
Proof. split; [lia|]. cbn. rewrite Z.div_1_r. auto. Qed.

Lemma rne_bounds (m : Z) (l : location) :
  m <= round_nearest_even m l <= m + 1.
Proof.
  unfold round_nearest_even. destruct l as [|[]]; try lia.
  destruct (Z.even m); lia.
Qed.

(** Shifting an exact record right by [n] divides by [2^n]; the location
    is exact again when the division is. *)
Lemma shr_exact (M e n : Z) :
  0 <= M ->
  exists mrs,
    shr (Build_shr_record M false false) e n = (mrs, e + Z.max n 0)
    /\ shr_m mrs = M / 2 ^ (Z.max n 0)
    /\ (M mod 2 ^ (Z.max n 0) = 0 -> loc_of_shr_record mrs = loc_Exact).
Proof.
  intros HM. unfold shr. destruct n as [|p|p].
  - eexists. split; [f_equal; lia|]. cbn. rewrite Z.div_1_r. auto.
  - destruct (iter_shr_inv M p HM 0 _ (shr_inv_0 M)) as (_ & Hm & Hex).
    eexists. split; [reflexivity|].
    rewrite Z.max_l by lia. cbn [Z.add] in *.
    split; [exact Hm|]. intros H0. destruct (Hex H0) as [Hr Hs].
    destruct (iter_pos shr_1 p _) as [m r s]. cbn in Hr, Hs. subst.
    reflexivity.
  - eexists. split; [f_equal; lia|]. cbn. rewrite Z.div_1_r. auto.
Qed.

Lemma iter_xO_spec (m d : positive) :
  Zpos (Pos.iter xO m d) = Zpos m * 2 ^ Zpos d.
Proof.
  change (Pos.iter xO m d) with (shift_pos d m).
  rewrite shift_pos_correct, Z.pow_pos_fold. lia.
Qed.

Lemma shl_align_spec (m : positive) (e e' : Z) :
  snd (shl_align m e e') = Z.min e e'
  /\ Zpos (fst (shl_align m e e')) = Zpos m * 2 ^ (e - Z.min e e').
Proof.
  unfold shl_align. destruct (e' - e) as [|p|p] eqn:E; cbn [fst snd].
  - assert (e' = e) by lia. subst. rewrite Z.min_id, Z.sub_diag. cbn. lia.
  - rewrite Z.min_l by lia. rewrite Z.sub_diag. cbn. lia.
  - rewrite Z.min_r by lia. rewrite iter_xO_spec.
    replace (e - e') with (Zpos p) by lia. auto.
Qed.

Lemma shl_align_fst (m : positive) (e ez : Z) :
  ez <= e -> Zpos (fst (shl_align m e ez)) = Zpos m * 2 ^ (e - ez).
Proof.
  intros H. destruct (shl_align_spec m e ez) as [_ E]. rewrite E.
  now rewrite Z.min_r by lia.
Qed.

(** *** [binary_round], step by step *)

Section Format.

Variables prec emax : Z.
Hypothesis Hprec : 0 < prec.

Lemma fexp_mono (a b : Z) :
  a <= b -> SpecFloat.fexp prec emax a <= SpecFloat.fexp prec emax b.
Proof. unfold SpecFloat.fexp. lia. Qed.

Lemma fexp_ge_emin (a : Z) :
  SpecFloat.emin prec emax <= SpecFloat.fexp prec emax a.
Proof. unfold SpecFloat.fexp. lia. Qed.

Lemma bounded_canonical (mx : positive) (ex : Z) :
  bounded prec emax mx ex = true ->
  SpecFloat.fexp prec emax (Zpos (digits2_pos mx) + ex) = ex
  /\ ex <= emax - prec.
Proof.
  unfold bounded, canonical_mantissa. intros H.
  apply andb_true_iff in H as [H1 H2].
  apply Z.eqb_eq in H1. apply Z.leb_le in H2. auto.
Qed.

(** [binary_round_aux] on an exact mantissa [M]: a first shift by [n1] to
    the exponent [fexp] asks for, the rounding [m1] of what is left, and a
    second shift by [n2] in case [m1] gained a digit. *)
Lemma bra_exact (s : bool) (M e : Z) :
  0 <= M ->
  exists m1 : Z,
    let n1 := Z.max (SpecFloat.fexp prec emax (Zdigits2 M + e) - e) 0 in
    let e1 := e + n1 in
    let n2 := Z.max (SpecFloat.fexp prec emax (Zdigits2 m1 + e1) - e1) 0 in
    M / 2 ^ n1 <= m1 <= M / 2 ^ n1 + 1
    /\ (M mod 2 ^ n1 = 0 -> m1 = M / 2 ^ n1)
    /\ binary_round_aux prec emax s M e loc_Exact
       = round_result prec emax s (m1 / 2 ^ n2) (e1 + n2).
Proof.
  intros HM. unfold binary_round_aux, shr_fexp. cbn [shr_record_of_loc].
  destruct (shr_exact M e (SpecFloat.fexp prec emax (Zdigits2 M + e) - e) HM)
    as (mrs & E1 & Hm & Hex).
  rewrite E1.
  set (n1 := Z.max (SpecFloat.fexp prec emax (Zdigits2 M + e) - e) 0) in *.
  set (m1 := round_nearest_even (shr_m mrs) (loc_of_shr_record mrs)).
  assert (Hm1 : 0 <= m1).
  { pose proof (rne_bounds (shr_m mrs) (loc_of_shr_record mrs)).
    assert (0 <= M / 2 ^ n1) by (apply Z.div_pos; [lia | apply pow2_pos; lia]).
    subst m1. lia. }
  destruct (shr_exact m1 (e + n1)
              (SpecFloat.fexp prec emax (Zdigits2 m1 + (e + n1)) - (e + n1))
              Hm1) as (mrs2 & E2 & Hm2 & _).
  rewrite E2. exists m1. cbn zeta. fold n1.
  split; [rewrite <- Hm; apply rne_bounds|].
  split; [intros H0; subst m1; rewrite (Hex H0); exact Hm|].
  rewrite Hm2. reflexivity.
Qed.

(** [binary_round] of [m * 2^e], with [eA] the exponent the result should
    have: [m1] is [m] brought to [eA], rounded if bits had to go. *)
Lemma binary_round_spec (s : bool) (m : positive) (e : Z) :
  let eA := SpecFloat.fexp prec emax (Zpos (digits2_pos m) + e) in
  exists m1 : Z,
    (e <= eA ->
     Zpos m / 2 ^ (eA - e) <= m1 <= Zpos m / 2 ^ (eA - e) + 1
     /\ (Zpos m mod 2 ^ (eA - e) = 0 -> m1 = Zpos m / 2 ^ (eA - e)))
    /\ (eA < e -> m1 = Zpos m * 2 ^ (e - eA))
    /\ binary_round prec emax s m e
       = round_result prec emax s
           (m1 / 2 ^ Z.max (SpecFloat.fexp prec emax (Zdigits2 m1 + eA) - eA) 0)
           (eA + Z.max (SpecFloat.fexp prec emax (Zdigits2 m1 + eA) - eA) 0).
Proof.
  intros eA. unfold binary_round.
  destruct (shl_align_spec m e eA) as [Hez Hmz]. fold eA.
  destruct (shl_align m e eA) as [mz ez]. cbn [fst snd] in *.
  assert (Hd : Zpos (digits2_pos mz) + ez = Zpos (digits2_pos m) + e).
  { rewrite (digits_shift m (e - Z.min e eA) mz) by lia. lia. }
  destruct (bra_exact s (Zpos mz) ez ltac:(lia)) as (m1 & H).
  cbn zeta in H. cbn [Zdigits2] in H. rewrite Hd in H. fold eA in H.
  assert (En1 : Z.max (eA - ez) 0 = eA - ez) by lia.
  rewrite En1 in H. replace (ez + (eA - ez)) with eA in H by lia.
  destruct H as (B & Hex & ->).
  exists m1. split; [|split; [|reflexivity]].
  - intros Hle. assert (E : ez = e) by lia. rewrite E in *.
    rewrite Z.min_l, Z.sub_diag, Z.mul_1_r in Hmz by lia. rewrite Hmz in *.
    auto.
  - intros Hlt. assert (E : ez = eA) by lia. rewrite E in *.
    rewrite Z.min_r in Hmz by lia.
    rewrite Z.sub_diag, Z.div_1_r in *. rewrite Hmz in *.
    apply Hex. apply Z.mod_1_r.
Qed.

(** A rounded value has the sign it was given. *)
Lemma round_sign (s : bool) (m : positive) (e : Z) :
  binary_round prec emax s m e = S754_zero s
  \/ binary_round prec emax s m e = S754_infinity s
  \/ exists m2 e2, binary_round prec emax s m e = S754_finite s m2 e2.
Proof.
  destruct (binary_round_spec s m e) as (m1 & H1 & H2 & ->).
  set (eA := SpecFloat.fexp prec emax (Zpos (digits2_pos m) + e)) in *.
  assert (0 <= m1).
  { destruct (Z.le_gt_cases e eA) as [L|L].
    - destruct (H1 L) as [[Lo _] _].
      assert (0 <= Zpos m / 2 ^ (eA - e))
        by (apply Z.div_pos; [lia | apply pow2_pos; lia]).
      lia.
    - rewrite (H2 L). pose proof (pow2_pos (e - eA) ltac:(lia)). nia. }
  set (n2 := Z.max _ 0).
  assert (0 <= m1 / 2 ^ n2)
    by (apply Z.div_pos; [lia | apply pow2_pos; lia]).
  unfold round_result. destruct (m1 / 2 ^ n2); try lia; auto.
  destruct (_ <=? _); eauto.
Qed.

(** Rounding a value that is at most the float [mx * 2^ex] gives at most
    that float. *)
Lemma round_le (s : bool) (m : positive) (e : Z) (mx : positive) (ex : Z) :
  bounded prec emax mx ex = true ->
  e <= ex -> Zpos m <= Zpos mx * 2 ^ (ex - e) ->
  mag_le (binary_round prec emax s m e) s mx ex.
Proof.
  intros Hb He Hm. destruct (bounded_canonical mx ex Hb) as [Hc Hmax].
  destruct (binary_round_spec s m e) as (m1 & H1 & H2 & ->).
  set (eA := SpecFloat.fexp prec emax (Zpos (digits2_pos m) + e)) in *.
  assert (HeA : eA <= ex).
  { rewrite <- Hc. apply fexp_mono.
    assert (Zdigits2 (Zpos m) <= Zdigits2 (Zpos mx * 2 ^ (ex - e)))
      by (apply Zdigits2_mono; lia).
    rewrite Zdigits2_shift in H by lia. cbn [Zdigits2] in H. lia. }
  set (X' := Zpos mx * 2 ^ (ex - eA)).
  pose proof (pow2_pos (ex - eA) ltac:(lia)) as PX.
  assert (B1 : 0 <= m1 <= X').
  { destruct (Z.le_gt_cases e eA) as [L|L].
    - destruct (H1 L) as [[Lo Hi] Hex]. clear H2.
      set (k := eA - e) in *.
      pose proof (pow2_pos k ltac:(lia)) as Pk.
      assert (EX : Zpos mx * 2 ^ (ex - e) = X' * 2 ^ k).
      { unfold X'. replace (ex - e) with (ex - eA + k) by lia.
        rewrite pow2_split by lia. lia. }
      assert (D : Zpos m / 2 ^ k <= X').
      { rewrite <- (Z.div_mul X' (2 ^ k)) by lia.
        apply Z.div_le_mono; lia. }
      assert (0 <= Zpos m / 2 ^ k) by (apply Z.div_pos; lia).
      split; [lia|].
      destruct (Z.eq_dec (Zpos m / 2 ^ k) X') as [E|NE]; [|lia].
      assert (M : Zpos m = X' * 2 ^ k).
      { pose proof (Z.mul_div_le (Zpos m) (2 ^ k) Pk). nia. }
      rewrite Hex; [lia|]. rewrite M. apply Z.mod_mul. lia.
    - rewrite (H2 L). clear H1 H2.
      pose proof (pow2_pos (e - eA) ltac:(lia)) as Pk.
      split; [nia|]. unfold X'.
      replace (ex - eA) with (ex - e + (e - eA)) by lia.
      rewrite pow2_split by lia. nia. }
  clear H1 H2.
  set (n2 := Z.max (SpecFloat.fexp prec emax (Zdigits2 m1 + eA) - eA) 0).
  assert (Hn2 : 0 <= n2) by lia.
  assert (He2 : eA + n2 <= ex).
  { assert (Zdigits2 m1 <= Zdigits2 X') by (apply Zdigits2_mono; lia).
    unfold X' in H. rewrite Zdigits2_shift in H by lia. cbn [Zdigits2] in H.
    assert (SpecFloat.fexp prec emax (Zdigits2 m1 + eA) <= ex)
      by (rewrite <- Hc; apply fexp_mono; lia).
    lia. }
  pose proof (pow2_pos n2 Hn2) as Pn.
  assert (Hm2 : 0 <= m1 / 2 ^ n2) by (apply Z.div_pos; lia).
  unfold round_result.
  destruct (m1 / 2 ^ n2) as [|p|p] eqn:E; [left; reflexivity| |lia].
  right. destruct (Z.leb_spec (eA + n2) (emax - prec)); [|lia].
  eexists _, _. split; [reflexivity|].
  destruct (Z.eq_dec (eA + n2) ex) as [E2|NE]; [right|left; lia].
  split; [assumption|].
  assert (En : n2 = ex - eA) by lia.
  rewrite <- E, En.
  rewrite <- (Z.div_mul (Zpos mx) (2 ^ (ex - eA))) by lia.
  apply Z.div_le_mono; [lia|]. fold X'. lia.
Qed.

(** Rounding a value that is at least the float [mx * 2^ex] gives at least
    that float. *)
Lemma round_ge (s : bool) (m : positive) (e : Z) (mx : positive) (ex : Z) :
  bounded prec emax mx ex = true ->
  e <= ex -> Zpos mx * 2 ^ (ex - e) <= Zpos m ->
  mag_ge (binary_round prec emax s m e) s mx ex.
Proof.
  intros Hb He Hm. destruct (bounded_canonical mx ex Hb) as [Hc Hmax].
  destruct (binary_round_spec s m e) as (m1 & H1 & _ & ->).
  set (eA := SpecFloat.fexp prec emax (Zpos (digits2_pos m) + e)) in *.
  pose proof (pow2_pos (ex - e) ltac:(lia)) as Pe.
  assert (HeA : ex <= eA).
  { rewrite <- Hc. apply fexp_mono.
    assert (Zdigits2 (Zpos mx * 2 ^ (ex - e)) <= Zdigits2 (Zpos m))
      by (apply Zdigits2_mono; nia).
    rewrite Zdigits2_shift in H by lia. cbn [Zdigits2] in H. lia. }
  destruct (H1 ltac:(lia)) as [[Lo _] _]. clear H1.
  set (k := eA - e) in *.
  pose proof (pow2_pos k ltac:(lia)) as Pk.
  assert (Hemin : SpecFloat.emin prec emax <= ex)
    by (rewrite <- Hc; apply fexp_ge_emin).
  assert (Hm1 : 1 <= Zpos m / 2 ^ k).
  { destruct (Z.eq_dec eA ex) as [E|NE].
    - assert (Ek : k = ex - e) by lia.
      assert (Zpos mx <= Zpos m / 2 ^ k)
        by (rewrite Ek; apply Z.div_le_lower_bound; lia).
      lia.
    - assert (E : eA = Zpos (digits2_pos m) + e - prec)
        by (unfold eA, SpecFloat.fexp in *; lia).
      destruct (digits_bounds m) as [Bl _].
      apply Z.div_le_lower_bound; [lia|]. rewrite Z.mul_1_r.
      apply Z.le_trans with (2 ^ (Zpos (digits2_pos m) - 1)); [|assumption].
      apply Z.pow_le_mono_r; lia. }
  assert (Hm2 : eA = ex -> Zpos mx <= Zpos m / 2 ^ k).
  { intros E. assert (Ek : k = ex - e) by lia. rewrite Ek.
    apply Z.div_le_lower_bound; lia. }
  set (n2 := Z.max (SpecFloat.fexp prec emax (Zdigits2 m1 + eA) - eA) 0).
  assert (Hn2 : 0 <= n2) by lia.
  pose proof (pow2_pos n2 Hn2) as Pn.
  assert (Q1 : 1 <= m1 / 2 ^ n2).
  { destruct (Z.eq_dec n2 0) as [E|NE].
    - rewrite E. cbn. rewrite Z.div_1_r. lia.
    - assert (E : n2 = Zdigits2 m1 - prec)
        by (unfold n2, SpecFloat.fexp in *; lia).
      destruct (Zdigits2_bounds m1 ltac:(lia)) as [Bl _].
      apply Z.div_le_lower_bound; [lia|]. rewrite Z.mul_1_r.
      apply Z.le_trans with (2 ^ (Zdigits2 m1 - 1)); [|assumption].
      apply Z.pow_le_mono_r; lia. }
  assert (Q2 : n2 = 0 -> m1 / 2 ^ n2 = m1)
    by (intros ->; cbn; apply Z.div_1_r).
  unfold round_result.
  destruct (m1 / 2 ^ n2) as [|p|p] eqn:E; try lia.
  destruct (Z.leb_spec (eA + n2) (emax - prec)); [right|left; reflexivity].
  eexists _, _. split; [reflexivity|].
  destruct (Z.eq_dec (eA + n2) ex) as [E2|NE]; [right|left; lia].
  split; [assumption|].
  assert (N0 : n2 = 0) by lia. assert (EA : eA = ex) by lia.
  rewrite (Q2 N0) in E. specialize (Hm2 EA). lia.
Qed.

End Format.

(** *** Comparing with the float *)

Lemma pos_compare_le (p q : positive) :
  Zpos p <= Zpos q ->
  Pos.compare_cont Eq p q = Lt \/ Pos.compare_cont Eq p q = Eq.
Proof.
  intros H. rewrite Pos.compare_cont_spec. cbn.
  destruct (Pos.compare_spec p q); auto. lia.
Qed.

Lemma pos_compare_ge (p q : positive) :
  Zpos q <= Zpos p ->
  Pos.compare_cont Eq p q = Gt \/ Pos.compare_cont Eq p q = Eq.
Proof.
  intros H. rewrite Pos.compare_cont_spec. cbn.
  destruct (Pos.compare_spec p q); auto. lia.
Qed.

Lemma leb_mag_le_pos (r : spec_float) (mx : positive) (ex : Z) :
  mag_le r false mx ex -> SFleb r (S754_finite false mx ex) = true.
Proof.
  intros [->|(m2 & e2 & -> & H)]; [reflexivity|].
  unfold SFleb, SFcompare. destruct H as [H|[-> H]].
  - destruct (Z.compare_spec e2 ex); solve [lia | reflexivity].
  - rewrite Z.compare_refl.
    destruct (pos_compare_le m2 mx H) as [-> | ->]; reflexivity.
Qed.

Lemma leb_mag_le_neg (r : spec_float) (mx : positive) (ex : Z) :
  mag_le r true mx ex -> SFleb (S754_finite true mx ex) r = true.
Proof.
  intros [->|(m2 & e2 & -> & H)]; [reflexivity|].
  unfold SFleb, SFcompare. destruct H as [H|[-> H]].
  - destruct (Z.compare_spec ex e2); solve [lia | reflexivity].
  - rewrite Z.compare_refl.
    destruct (pos_compare_ge mx m2 H) as [-> | ->]; reflexivity.
Qed.

Lemma leb_mag_ge_pos (r : spec_float) (mx : positive) (ex : Z) :
  mag_ge r false mx ex -> SFleb (S754_finite false mx ex) r = true.
Proof.
  intros [->|(m2 & e2 & -> & H)]; [reflexivity|].
  unfold SFleb, SFcompare. destruct H as [H|[-> H]].
  - destruct (Z.compare_spec ex e2); solve [lia | reflexivity].
  - rewrite Z.compare_refl.
    destruct (pos_compare_le mx m2 H) as [-> | ->]; reflexivity.
Qed.

Lemma leb_mag_ge_neg (r : spec_float) (mx : positive) (ex : Z) :
  mag_ge r true mx ex -> SFleb r (S754_finite true mx ex) = true.
Proof.
  intros [->|(m2 & e2 & -> & H)]; [reflexivity|].
  unfold SFleb, SFcompare. destruct H as [H|[-> H]].
  - destruct (Z.compare_spec e2 ex); solve [lia | reflexivity].
  - rewrite Z.compare_refl.
    destruct (pos_compare_ge m2 mx H) as [-> | ->]; reflexivity.
Qed.

Lemma prec_pos : 0 < prec.
Proof. reflexivity. Qed.

Lemma SFleb_refl (x : spec_float) : x <> S754_nan -> SFleb x x = true.
Proof.
  unfold SFleb. destruct x as [s|s| |s m e]; cbn; try congruence.
  - destruct s; reflexivity.
  - destruct s; rewrite Z.compare_refl, Pos.compare_cont_refl; reflexivity.
Qed.

(** [x - y <= x] for a finite [x] and a [y] that is not negative. *)
Lemma SFsub_le (x y : spec_float) :
  valid_binary x = true -> SF_finite x -> SF_nonneg y ->
  SFleb (SF64sub x y) x = true.
Proof.
  intros Hv Hx Hy.
  destruct x as [sx|sx| |sx mx ex]; try contradiction;
    destruct y as [sy|sy| |sy my ey]; try contradiction;
    cbn in Hy; subst; cbn [SF64sub SFsub negb].
  - destruct sx, sy; reflexivity.
  - destruct sx; reflexivity.
  - destruct sx; reflexivity.
  - apply SFleb_refl. discriminate.
  - destruct sx; reflexivity.
  - cbn in Hv. set (ez := Z.min ex ey).
    rewrite (shl_align_fst mx ex ez), (shl_align_fst my ey ez) by lia.
    pose proof (pow2_pos (ex - ez) ltac:(lia)) as Px.
    pose proof (pow2_pos (ey - ez) ltac:(lia)) as Py.
    destruct sx; cbn [cond_Zopp].
    + destruct (- (Zpos mx * 2 ^ (ex - ez)) - Zpos my * 2 ^ (ey - ez))
        as [|p|p] eqn:E; try nia.
      cbn [binary_normalize]. apply leb_mag_ge_neg.
      apply (round_ge prec emax prec_pos); [assumption | lia | nia].
    + destruct (Zpos mx * 2 ^ (ex - ez) - Zpos my * 2 ^ (ey - ez))
        as [|p|p] eqn:E; cbn [binary_normalize].
      * reflexivity.
      * apply leb_mag_le_pos.
        apply (round_le prec emax); [assumption | lia | nia].
      * destruct (round_sign prec emax true p ez)
          as [-> |[-> |(m2 & e2 & ->)]]; reflexivity.
Qed.

(** [x <= x + y] for a finite [x] and a [y] that is not negative. *)
Lemma SFadd_ge (x y : spec_float) :
  valid_binary x = true -> SF_finite x -> SF_nonneg y ->
  SFleb x (SF64add x y) = true.
Proof.
  intros Hv Hx Hy.
  destruct x as [sx|sx| |sx mx ex]; try contradiction;
    destruct y as [sy|sy| |sy my ey]; try contradiction;
    cbn in Hy; subst; cbn [SF64add SFadd].
  - destruct sx, sy; reflexivity.
  - destruct sx; reflexivity.
  - destruct sx; reflexivity.
  - apply SFleb_refl. discriminate.
  - destruct sx; reflexivity.
  - cbn in Hv. set (ez := Z.min ex ey).
    rewrite (shl_align_fst mx ex ez), (shl_align_fst my ey ez) by lia.
    pose proof (pow2_pos (ex - ez) ltac:(lia)) as Px.
    pose proof (pow2_pos (ey - ez) ltac:(lia)) as Py.
    destruct sx; cbn [cond_Zopp].
    + destruct (- (Zpos mx * 2 ^ (ex - ez)) + Zpos my * 2 ^ (ey - ez))
        as [|p|p] eqn:E; cbn [binary_normalize].
      * reflexivity.
      * destruct (round_sign prec emax false p ez)
          as [-> |[-> |(m2 & e2 & ->)]]; reflexivity.
      * apply leb_mag_le_neg.
        apply (round_le prec emax); [assumption | lia | nia].
    + destruct (Zpos mx * 2 ^ (ex - ez) + Zpos my * 2 ^ (ey - ez))
        as [|p|p] eqn:E; try nia.
      cbn [binary_normalize]. apply leb_mag_ge_pos.
      apply (round_ge prec emax prec_pos); [assumption | lia | nia].
Qed.

End Round.

(** ** Order facts of binary64 arithmetic *)
Module Order.

Import IEEE.

Lemma is_finite_SF (c : float) :
  PrimFloat.is_finite c = true <-> SF_finite (Prim2SF c).
Proof.
  unfold PrimFloat.is_finite.
  pose proof (F.isnan_SF c) as Hn. unfold Py.isnan in Hn.
  pose proof (F.is_infinity_SF c) as Hi.
  destruct (Prim2SF c) as [s|s| |s m e]; cbn [SF_finite].
  - destruct (PrimFloat.is_nan c);
      [destruct Hn as [Hn _]; discriminate (Hn eq_refl)|].
    destruct (PrimFloat.is_infinity c);
      [destruct Hi as [Hi _]; destruct (Hi eq_refl) as [? [=]]|].
    split; auto.
  - assert (E : PrimFloat.is_infinity c = true) by (apply Hi; eauto).
    rewrite E, orb_true_r. split; [discriminate | contradiction].
  - assert (E : PrimFloat.is_nan c = true) by (now apply Hn).
    rewrite E. split; [discriminate | contradiction].
  - destruct (PrimFloat.is_nan c);
      [destruct Hn as [Hn _]; discriminate (Hn eq_refl)|].
    destruct (PrimFloat.is_infinity c);
      [destruct Hi as [Hi _]; destruct (Hi eq_refl) as [? [=]]|].
    split; auto.
Qed.

Lemma leb_zero_SF (y : float) :
  PrimFloat.leb 0 y = true <-> SF_nonneg (Prim2SF y).
Proof.
  rewrite leb_spec. change (Prim2SF 0) with (S754_zero false).
  unfold SFleb, SFcompare.
  destruct (Prim2SF y) as [s|s| |s m e]; cbn [SF_nonneg].
  - split; auto.
  - destruct s; split; congruence.
  - split; [discriminate | contradiction].
  - destruct s; split; congruence.
Qed.

Lemma finite_positive_SF (m : float) :
  finite_positive m = true <-> exists mm e, Prim2SF m = S754_finite false mm e.
Proof.
  unfold finite_positive. rewrite andb_true_iff, is_finite_SF, ltb_spec.
  change (Prim2SF 0) with (S754_zero false). unfold SFltb, SFcompare.
  destruct (Prim2SF m) as [s|s| |s mm e]; cbn [SF_finite].
  - split; [intros [_ [=]] | intros (? & ? & [=])].
  - split; [intros [[] _] | intros (? & ? & [=])].
  - split; [intros [[] _] | intros (? & ? & [=])].
  - destruct s; split; eauto; try (intros [_ [=]]); intros (? & ? & [=]).
Qed.

Lemma ltb_not_nan (x y : float) :
  PrimFloat.ltb x y = true -> Py.isnan x = false /\ Py.isnan y = false.
Proof.
  rewrite ltb_spec. unfold SFltb. intros H.
  split; apply isnan_nan_iff_false; intros E; rewrite E in H;
    [|destruct (Prim2SF x)]; discriminate.
Qed.

Lemma binary_round_aux_sign (prec emax : Z) (sx : bool) (mx ex : Z)
    (lx : location) :
  (0 <= mx)%Z ->
  binary_round_aux prec emax sx mx ex lx = S754_zero sx
  \/ binary_round_aux prec emax sx mx ex lx = S754_infinity sx
  \/ exists m e, binary_round_aux prec emax sx mx ex lx = S754_finite sx m e.
Proof.
  intros H.
  pose proof (F.binary_round_aux_not_nan prec emax sx mx ex lx H) as N.
  unfold binary_round_aux in *.
  destruct (shr_fexp prec emax mx ex lx) as [mrs' e'].
  destruct (shr_fexp prec emax _ e' loc_Exact) as [mrs'' e''].
  destruct (shr_m mrs''); [auto | | congruence].
  destruct (_ <=? _)%Z; eauto.
Qed.

Lemma SFmul_nonneg (m : positive) (e : Z) (y : spec_float) :
  SF_nonneg y -> SF_nonneg (SF64mul (S754_finite false m e) y).
Proof.
  destruct y as [s|s| |s my ey]; cbn; try tauto.
  intros ->.
  destruct (binary_round_aux_sign prec emax false (Zpos (m * my)) (e + ey)
              loc_Exact) as [-> |[-> |(m2 & e2 & ->)]]; cbn; auto.
  lia.
Qed.

Lemma SFsub_finite_not_nan (x y : spec_float) :
  SF_finite x -> y <> S754_nan -> SF64sub x y <> S754_nan.
Proof.
  intros Hx Hy.
  destruct x as [sx|sx| |sx mx ex]; try contradiction;
    destruct y as [sy|sy| |sy my ey]; try congruence; cbn;
    try discriminate.
  - destruct sx, sy; discriminate.
  - apply F.binary_normalize_not_nan.
Qed.

Lemma SFadd_finite_not_nan (x y : spec_float) :
  SF_finite x -> y <> S754_nan -> SF64add x y <> S754_nan.
Proof.
  intros Hx Hy.
  destruct x as [sx|sx| |sx mx ex]; try contradiction;
    destruct y as [sy|sy| |sy my ey]; try congruence; cbn;
    try discriminate.
  - destruct sx, sy; discriminate.
  - apply F.binary_normalize_not_nan.
Qed.

(** Taking a non-negative float off a finite one does not go above it. *)
Lemma sub_le_self (c y : float) :
  PrimFloat.is_finite c = true -> PrimFloat.leb 0 y = true ->
  PrimFloat.leb (c - y) c = true.
Proof.
  intros Hc Hy. rewrite leb_spec, sub_spec.
  apply Round.SFsub_le;
    [apply Prim2SF_valid | now apply is_finite_SF | now apply leb_zero_SF].
Qed.

(** Adding a non-negative float to a finite one does not go below it. *)
Lemma add_ge_self (c y : float) :
  PrimFloat.is_finite c = true -> PrimFloat.leb 0 y = true ->
  PrimFloat.leb c (c + y) = true.
Proof.
  intros Hc Hy. rewrite leb_spec, add_spec.
  apply Round.SFadd_ge;
    [apply Prim2SF_valid | now apply is_finite_SF | now apply leb_zero_SF].
Qed.

Lemma mul_nonneg (m a : float) :
  finite_positive m = true -> PrimFloat.leb 0 a = true ->
  PrimFloat.leb 0 (m * a) = true.
Proof.
  intros Hm Ha. apply finite_positive_SF in Hm as (mm & e & Hm).
  apply leb_zero_SF. rewrite mul_spec, Hm.
  apply SFmul_nonneg. now apply leb_zero_SF.
Qed.

Lemma mul_not_nan (m a : float) :
  finite_positive m = true -> Py.isnan a = false ->
  Py.isnan (m * a) = false.
Proof.
  intros Hm Ha. apply finite_positive_SF in Hm as (mm & e & Hm).
  apply isnan_nan_iff_false. rewrite mul_spec, Hm.
  apply F.SFmul_finite_not_nan. now apply isnan_nan_iff_false.
Qed.

Lemma sub_not_nan (c y : float) :
  PrimFloat.is_finite c = true -> Py.isnan y = false ->
  Py.isnan (c - y) = false.
Proof.
  intros Hc Hy. apply isnan_nan_iff_false. rewrite sub_spec.
  apply SFsub_finite_not_nan;
    [now apply is_finite_SF | now apply isnan_nan_iff_false].
Qed.

Lemma add_not_nan (c y : float) :
  PrimFloat.is_finite c = true -> Py.isnan y = false ->
  Py.isnan (c + y) = false.
Proof.
  intros Hc Hy. apply isnan_nan_iff_false. rewrite add_spec.
  apply SFadd_finite_not_nan;
    [now apply is_finite_SF | now apply isnan_nan_iff_false].
Qed.

End Order.

(** ** The levels of an OpenLong (lines 163-171) *)

Lemma open_long_emitted (p : Params) (Close rsi sma atr : list float)
    (pos : PositionState) (i : nat) (c s a : float) (x : Intent) :
  In x (decision p Close rsi sma atr pos i c s a) ->
  is_open_long x = true ->
  x = OpenLong (stop_loss_level p c a) (take_profit_level p c a)
  /\ ready sma atr i = true /\ Py.gt c s = true.
Proof.
  unfold decision. intros Hin Hx.
  destruct (ready sma atr i); cbn [negb] in Hin; [|destruct Hin].
  destruct (negb (position_bool pos)
            && crosses_above rsi (buy_threshold p) i) eqn:E1;
    cbn [andb] in Hin.
  - destruct (Py.gt c s); cbn in Hin.
    + destruct Hin as [<-|[]]. auto.
    + destruct (position_bool pos && crosses_below rsi (sell_threshold p) i);
        [destruct Hin as [<-|[]]; discriminate | destruct Hin].
  - destruct (position_bool pos && crosses_below rsi (sell_threshold p) i);
      [destruct Hin as [<-|[]]; discriminate | destruct Hin].
Qed.

(** C10, as the code has it.  An OpenLong emitted at bar [i] carries the
    stop-loss close[i] - atr_multiplier_sl * atr[i] and the take-profit
    close[i] + atr_multiplier_tp * atr[i], computed in double arithmetic
    from an atr[i] and a close[i] that are not NaN.  When close[i] is
    finite and the two multipliers are finite and positive, both levels are
    defined, and when moreover atr[i] >= 0 they satisfy
    stopLoss <= close[i] <= takeProfit; for atr[i] > 0 the inequalities
    need not be strict. *)
Theorem open_long_levels (p : Params) (Close rsi sma atr : list float)
    (pos : PositionState) (i : nat) (c s a : float) (out : list Intent)
    (sl tp : float) :
  nth_error Close i = Some c ->
  nth_error sma i = Some s ->
  nth_error atr i = Some a ->
  i < length rsi ->
  next_at p Close rsi sma atr pos i = Some out ->
  In (OpenLong sl tp) out ->
  (sl = stop_loss_level p c a /\ tp = take_profit_level p c a)
  /\ (Py.isnan a = false /\ Py.isnan c = false)
  /\ (PrimFloat.is_finite c = true ->
      finite_positive (atr_multiplier_sl p) = true ->
      finite_positive (atr_multiplier_tp p) = true ->
      Py.isnan sl = false /\ Py.isnan tp = false
      /\ (Py.le 0 a = true -> Py.le sl c = true /\ Py.le c tp = true)).
Proof.
  intros HC Hs Ha Hr Hn Hin.
  rewrite (next_at_bar p _ _ _ _ _ _ _ _ HC Hs Ha Hr) in Hn.
  injection Hn as <-.
  destruct (open_long_emitted p Close rsi sma atr pos i c s a _ Hin eq_refl)
    as (E & Hrdy & Hgt).
  assert (Esl : sl = stop_loss_level p c a)
    by exact (f_equal intent_sl E).
  assert (Etp : tp = take_profit_level p c a)
    by exact (f_equal intent_tp E).
  assert (Na : Py.isnan a = false).
  { unfold ready, defined in Hrdy. rewrite Hs, Ha in Hrdy.
    apply andb_true_iff in Hrdy as [_ H]. now apply negb_true_iff in H. }
  assert (Nc : Py.isnan c = false).
  { unfold Py.gt in Hgt. now destruct (Order.ltb_not_nan s c Hgt). }
  split; [auto|]. split; [auto|].
  intros Fc Fsl Ftp. subst sl tp.
  unfold stop_loss_level, take_profit_level.
  split; [|split].
  - apply Order.sub_not_nan; [assumption|]. now apply Order.mul_not_nan.
  - apply Order.add_not_nan; [assumption|]. now apply Order.mul_not_nan.
  - intros Pa. unfold Py.le in *. split.
    + apply Order.sub_le_self; [assumption|]. now apply Order.mul_nonneg.
    + apply Order.add_ge_self; [assumption|]. now apply Order.mul_nonneg.
Qed.

Lemma open_long_levels_witness :
  Py.isnan 98 = false /\ Py.isnan 111 = false
  /\ Py.le 98 101 = true /\ Py.le 101 111 = true.
Proof.
  destruct (open_long_levels default_params [100; 101]%float [50; 60]%float
              [90; 90]%float [2; 2]%float FLAT 1 101%float 90%float 2%float
              [OpenLong 98 111] 98%float 111%float
              eq_refl eq_refl eq_refl (le_n 2) eq_refl (or_introl eq_refl))
    as (_ & _ & H).
  destruct (H eq_refl eq_refl eq_refl) as (H1 & H2 & H3).
  destruct (H3 eq_refl) as [H4 H5].
  exact (conj H1 (conj H2 (conj H4 H5))).
Defined.

(** C10 as stated fails: with a close of 50000 and an ATR of 2^-40 (a
    positive number), 1.5 times the ATR is less than half the distance from
    50000 to the float below it, and the stop-loss is 50000 itself. *)
Lemma open_long_levels_spec_refuted : ~ spec_levels_ordered.
Proof.
  intros H.
  destruct (H default_params [100; 50000]%float [50; 60]%float
              [90; 90]%float [2; 0x1p-40]%float FLAT 1
              50000%float 90%float 0x1p-40%float
              [OpenLong 50000 0x1.86a0000000001p+15] 50000%float
              0x1.86a0000000001p+15%float
              eq_refl eq_refl eq_refl eq_refl eq_refl (le_n 2) eq_refl
              (or_introl eq_refl))
    as (_ & _ & _ & _ & Hs).
  destruct (Hs eq_refl) as [Hlt _]. discriminate Hlt.
Qed.

(** ** The warm-up of the RSI (lines 91-99)

    [ta.rsi] averages the gains and the losses with
    [ewm(alpha=1.0 / length, min_periods=length)] (pandas_ta 0.3.14b0):
    the loop of [ewm] holds a running average from the first value that is
    not NaN, and [min_periods] hides it until [length] such values are
    counted. *)

Lemma ewm_step_nobs (f w : float) (st : Pandas.ewm_state) (x : float) :
  Pandas.nobs (Pandas.ewm_step f w st x)
  = Pandas.nobs st + observations [x].
Proof.
  unfold Pandas.ewm_step, observations. cbn [filter].
  destruct (Pandas.is_observation (Pandas.weighted st)),
    (Pandas.is_observation x); cbn; lia.
Qed.

Lemma observations_cons (x : float) (s : list float) :
  observations (x :: s) = observations [x] + observations s.
Proof.
  unfold observations. cbn [filter].
  destruct (Pandas.is_observation x); reflexivity.
Qed.

Lemma observations_one (x : float) :
  Pandas.is_observation x = true -> observations [x] = 1.
Proof. intros H. unfold observations. cbn [filter]. now rewrite H. Qed.

Lemma ewm_output_reached (minp : nat) (st : Pandas.ewm_state) :
  minp <= Pandas.nobs st -> Pandas.ewm_output minp st = Pandas.weighted st.
Proof.
  intros H. unfold Pandas.ewm_output.
  destruct (Nat.leb_spec minp (Pandas.nobs st)); [reflexivity|lia].
Qed.

(** Once [minp] observations are counted, [min_periods] hides nothing. *)
Lemma ewm_from_unmasked (f w : float) (minp : nat) (xs : list float) :
  forall (st : Pandas.ewm_state) (i : nat),
    1 <= minp ->
    minp <= Pandas.nobs st + observations (firstn (S i) xs) ->
    nth_error (Pandas.ewm_from f w minp st xs) i
    = nth_error (Pandas.ewm_from f w 1 st xs) i.
Proof.
  induction xs as [|x xs IH]; intros st i H1 H; [reflexivity|].
  cbn [Pandas.ewm_from]. cbn [firstn] in H. rewrite observations_cons in H.
  pose proof (ewm_step_nobs f w st x) as E.
  destruct i as [|i]; cbn [nth_error].
  - cbn [firstn] in H. change (observations []) with 0 in H.
    rewrite !ewm_output_reached by lia. reflexivity.
  - apply IH; [assumption | lia].
Qed.

Lemma ewm_mean_unmasked (alpha : float) (n : nat) (s : list float) (i : nat) :
  1 <= n -> n <= observations (firstn (S i) s) ->
  nth_error (Pandas.ewm_mean alpha n s) i
  = nth_error (Pandas.ewm_mean alpha 1 s) i.
Proof.
  intros Hn H. destruct s as [|x s]; [reflexivity|].
  unfold Pandas.ewm_mean. rewrite (Nat.max_l n 1) by lia.
  cbn [Nat.max]. cbn [firstn] in H. rewrite observations_cons in H.
  assert (E : observations [x]
              = if Pandas.is_observation x then 1 else 0).
  { unfold observations. cbn [filter].
    destruct (Pandas.is_observation x); reflexivity. }
  destruct i as [|i]; cbn [nth_error].
  - cbn [firstn] in H. change (observations []) with 0 in H.
    rewrite !ewm_output_reached by (cbn [Pandas.nobs]; lia). reflexivity.
  - apply ewm_from_unmasked; [assumption | cbn [Pandas.nobs]; lia].
Qed.

(** Values that are all observations from [lo] to [i] count for as many. *)
Lemma observations_from (s : list float) :
  forall lo i,
    i < length s ->
    (forall j x, lo <= j <= i -> nth_error s j = Some x ->
                 Pandas.is_observation x = true) ->
    S i - lo <= observations (firstn (S i) s).
Proof.
  induction s as [|y s IH]; intros lo i Hi H; [cbn in Hi; lia|].
  cbn [firstn]. rewrite observations_cons.
  destruct i as [|i].
  - cbn [firstn]. destruct lo as [|lo]; [|lia].
    rewrite (observations_one y (H 0 y ltac:(lia) eq_refl)). lia.
  - cbn in Hi. destruct lo as [|lo].
    + assert (Ey : observations [y] = 1)
        by exact (observations_one y (H 0 y ltac:(lia) eq_refl)).
      pose proof (IH 0 i ltac:(lia)
                    (fun j x Hj Hx => H (S j) x ltac:(lia) Hx)).
      lia.
    + pose proof (IH lo i ltac:(lia)
                    (fun j x Hj Hx => H (S j) x ltac:(lia) Hx)).
      lia.
Qed.

Lemma diff_from_nth (xs : list float) :
  forall prev j,
    nth_error (Pandas.diff_from prev xs) j
    = match nth_error xs j, nth_error (prev :: xs) j with
      | Some x, Some y => Some (x - y)%float
      | _, _ => None
      end.
Proof.
  induction xs as [|x xs IH]; intros prev [|j]; cbn; auto.
Qed.

(** [diff] at [j >= 1] is [s[j] - s[j-1]]. *)
Lemma diff_nth (s : list float) (j : nat) :
  nth_error (Pandas.diff s) (S j)
  = match nth_error s (S j), nth_error s j with
    | Some x, Some y => Some (x - y)%float
    | _, _ => None
    end.
Proof.
  destruct s as [|x s]; [reflexivity|]. cbn [Pandas.diff nth_error].
  rewrite diff_from_nth. reflexivity.
Qed.

Lemma clip_negative_observation (x : float) :
  Py.isnan x = false -> Pandas.is_observation (TA.clip_negative x) = true.
Proof.
  intros H. unfold TA.clip_negative.
  destruct (Py.lt x 0); [reflexivity|].
  unfold Pandas.is_observation. unfold Py.isnan, PrimFloat.is_nan in H.
  now apply negb_false_iff in H.
Qed.

Lemma clip_positive_observation (x : float) :
  Py.isnan x = false -> Pandas.is_observation (TA.clip_positive x) = true.
Proof.
  intros H. unfold TA.clip_positive.
  destruct (Py.gt x 0); [reflexivity|].
  unfold Pandas.is_observation. unfold Py.isnan, PrimFloat.is_nan in H.
  now apply negb_false_iff in H.
Qed.

Lemma is_finite_not_nan (x : float) :
  PrimFloat.is_finite x = true -> Py.isnan x = false.
Proof.
  unfold PrimFloat.is_finite, Py.isnan. intros H.
  apply negb_true_iff, orb_false_iff in H. tauto.
Qed.

(** Where the series is finite from [lo] to [i], its clipped changes from
    [lo + 1] to [i] are observations: the difference of two finite floats
    is an infinity at worst. *)
Lemma clipped_change_observed (clip : float -> float) (s : list float)
    (lo i : nat) :
  (forall x, Py.isnan x = false -> Pandas.is_observation (clip x) = true) ->
  (forall j a, lo <= j <= i -> nth_error s j = Some a ->
               PrimFloat.is_finite a = true) ->
  forall j x, S lo <= j <= i ->
              nth_error (map clip (Pandas.diff s)) j = Some x ->
              Pandas.is_observation x = true.
Proof.
  intros Hclip Hfin j x Hj Hx.
  destruct j as [|j]; [lia|].
  rewrite nth_error_map, diff_nth in Hx.
  destruct (nth_error s (S j)) as [a1|] eqn:E1; [|discriminate].
  destruct (nth_error s j) as [a0|] eqn:E0; [|discriminate].
  cbn in Hx. injection Hx as <-. apply Hclip.
  apply Order.sub_not_nan.
  - apply (Hfin (S j) a1); [lia | assumption].
  - apply is_finite_not_nan. apply (Hfin j a0); [lia | assumption].
Qed.

(** [rsi_value] is a number when the sum of the two averages is finite and
    not zero. *)
Lemma rsi_value_defined (g l : float) :
  finite_nonzero (g + PrimFloat.abs l) = true ->
  Py.isnan (TA.rsi_value g l) = false.
Proof.
  intros H. unfold TA.rsi_value.
  assert (Ng : Py.isnan g = false).
  { destruct (Py.isnan g) eqn:E; [|reflexivity].
    apply F.isnan_eq in E. subst g. rewrite F.add_nan_l in H. discriminate. }
  apply F.finite_nonzero_SF in H as (s & m & e & H).
  apply isnan_nan_iff_false. rewrite div_spec, H.
  apply F.SFdiv_finite_not_nan.
  apply isnan_nan_iff_false. now apply Order.mul_not_nan.
Qed.

(** C8, as the code has it.  With at least [length >= 1] bars, the RSI
    series is as long as the data, and the boundary of its warm-up is
    [2 * length - 1], not [length].  Below it every entry is NaN:
    [length - 1] entries for the volume average, one for the difference,
    and [length - 1] more for the Wilder average to count [length]
    changes.  From it on nothing is hidden any more: at every
    [i >= 2 * length - 1] up to which the adjusted price has been finite
    since bar [length - 1] (so the rolling volume average is a non-zero
    number there), RSI[i] is [100 * g / (g + |l|)] for the running Wilder
    averages [g] of the gains and [l] of the losses, and it is defined
    whenever [g + |l|] is finite and not zero. *)
Theorem rsi_warmup (data : DataFrame) (n : nat) (r : list float) :
  1 <= n ->
  custom_rsi data n = Some r ->
  length r = length data
  /\ (forall i x, i < 2 * n - 1 -> nth_error r i = Some x ->
                  Py.isnan x = true)
  /\ (forall i x,
        2 * n - 1 <= i -> nth_error r i = Some x ->
        (forall j a, n - 1 <= j <= i ->
                     nth_error (adjusted_price data n) j = Some a ->
                     PrimFloat.is_finite a = true) ->
        exists g l,
          nth_error (running_average n (gains (adjusted_price data n))) i
          = Some g
          /\ nth_error (running_average n (losses (adjusted_price data n))) i
             = Some l
          /\ x = TA.rsi_value g l
          /\ (finite_nonzero (g + PrimFloat.abs l) = true ->
              Py.isnan x = false)).
Proof.
  intros Hn H. split; [exact (custom_rsi_length data n r Hn H)|].
  destruct (Nat.le_gt_cases n (length data)) as [Hs|Hs];
    [|rewrite (custom_rsi_none data n Hn Hs) in H; discriminate].
  rewrite (custom_rsi_some data n Hn Hs) in H. injection H as <-.
  split.
  - intros i x Hi Hx. apply F.isnan_eq.
    refine (proj1 (leading_nan_nth (2 * n - 1) _) _ i x Hi Hx).
    apply zip_with_leading_l; [apply rsi_value_nan_l|].
    unfold wilder.
    replace (2 * n - 1) with (S (n - 1) + n - 1) by lia.
    apply ewm_mean_leading; [assumption|].
    apply gains_leading, adjusted_price_leading.
  - intros i x Hi Hx Hfin. rewrite zip_with_nth in Hx.
    set (a := adjusted_price data n) in *.
    destruct (nth_error (wilder n (gains a)) i) as [g|] eqn:Eg;
      [|discriminate].
    destruct (nth_error (wilder n (losses a)) i) as [l|] eqn:El;
      [|discriminate].
    injection Hx as <-.
    assert (Li : i < length a).
    { assert (i < length (wilder n (gains a)))
        by (apply nth_error_Some; congruence).
      now rewrite wilder_length, gains_length in H. }
    assert (Og : n <= observations (firstn (S i) (gains a))).
    { pose proof (observations_from (gains a) n i
                    ltac:(now rewrite gains_length)) as O.
      assert (S i - n <= observations (firstn (S i) (gains a))); [|lia].
      apply O. intros j y Hj Hy.
      apply (clipped_change_observed TA.clip_negative a (n - 1) i
               clip_negative_observation Hfin j y); [lia | exact Hy]. }
    assert (Ol : n <= observations (firstn (S i) (losses a))).
    { pose proof (observations_from (losses a) n i
                    ltac:(now rewrite losses_length)) as O.
      assert (S i - n <= observations (firstn (S i) (losses a))); [|lia].
      apply O. intros j y Hj Hy.
      apply (clipped_change_observed TA.clip_positive a (n - 1) i
               clip_positive_observation Hfin j y); [lia | exact Hy]. }
    unfold wilder in Eg, El.
    rewrite (ewm_mean_unmasked _ n _ i Hn Og) in Eg.
    rewrite (ewm_mean_unmasked _ n _ i Hn Ol) in El.
    exists g, l. split; [exact Eg|]. split; [exact El|].
    split; [reflexivity | apply rsi_value_defined].
Qed.

(** On [rising_bars] with [length = 2]: RSI[2] is NaN, and RSI[3], the
    first entry at which two changes are counted, is the number 100. *)
Lemma rsi_warmup_witness :
  length [Pandas.nan; Pandas.nan; Pandas.nan; 100%float] = length rising_bars
  /\ Py.isnan Pandas.nan = true
  /\ Py.isnan 100 = false.
Proof.
  destruct (rsi_warmup rising_bars 2
              [Pandas.nan; Pandas.nan; Pandas.nan; 100%float]
              (le_S 1 1 (le_n 1)) eq_refl) as (HL & HN & HD).
  split; [exact HL|]. split.
  - apply (HN 2 Pandas.nan); [cbn; lia | reflexivity].
  - destruct (HD 3 100%float) as (g & l & Eg & El & _ & Hdef).
    + cbn; lia.
    + reflexivity.
    + intros j a Hj Ha.
      change (adjusted_price rising_bars 2)
        with [Pandas.nan; 2%float; 3%float; 4%float] in Ha.
      destruct j as [|[|[|[|j]]]]; cbn in Hj, Ha; try lia;
        try discriminate; injection Ha as <-; reflexivity.
    + change (Some 1%float = Some g) in Eg.
      change (Some 0%float = Some l) in El.
      injection Eg as <-. injection El as <-. apply Hdef. reflexivity.
Defined.

(** C8 as stated fails: for [length = 2] on four bars of unit volume the
    rolling volume average is 1 at bars 1, 2 and 3, and RSI[2] is NaN
    although [2 >= length]. *)
Lemma rsi_warmup_spec_refuted : ~ spec_rsi_warmup.
Proof.
  intros H.
  destruct (H rising_bars 2 [Pandas.nan; Pandas.nan; Pandas.nan; 100%float]
              (le_S 1 1 (le_n 1)) eq_refl 2 Pandas.nan eq_refl) as [_ H2].
  assert (E : Py.isnan Pandas.nan = false).
  { apply H2; [lia|]. intros j m Hj Hm.
    change (volume_average rising_bars 2)
      with [Pandas.nan; 1%float; 1%float; 1%float] in Hm.
    destruct j as [|[|[|[|j]]]]; try lia; cbn in Hm.
    - injection Hm as <-. split; reflexivity.
    - injection Hm as <-. split; reflexivity.
    - destruct j; discriminate. }
  discriminate E.
Qed.

(** At bar 2 of [rising_bars] the running averages are already the
    numbers 1 and 0, for which [rsi_value] is 100: RSI[2] is NaN because
    [min_periods] hides them, not because they are missing. *)
Example warmup_hides_running_averages :
  nth_error (running_average 2 (gains (adjusted_price rising_bars 2))) 2
  = Some 1%float
  /\ nth_error (running_average 2 (losses (adjusted_price rising_bars 2))) 2
     = Some 0%float
  /\ TA.rsi_value 1 0 = 100%float
  /\ custom_rsi rising_bars 2
     = Some [Pandas.nan; Pandas.nan; Pandas.nan; 100%float].
Proof. repeat split. Qed.

(** Past the warm-up the RSI need not be defined.  On a market that does
    not move both running averages are zero and RSI is 0/0. *)
Example flat_market_has_no_rsi :
  adjusted_price six_flat_bars 2 = Pandas.nan :: repeat 3%float 5
  /\ nth_error (running_average 2 (gains (adjusted_price six_flat_bars 2))) 3
     = Some 0%float
  /\ nth_error (running_average 2 (losses (adjusted_price six_flat_bars 2))) 3
     = Some 0%float
  /\ custom_rsi six_flat_bars 2 = Some (repeat Pandas.nan 6).
Proof. repeat split. Qed.

(** Nor do finite adjusted prices suffice: on [swinging_bars] they are
    2^1023 and -2^1023, their differences are infinite, so are the running
    averages, and RSI[3] is infinity over infinity. *)
Example overflowing_changes_have_no_rsi :
  adjusted_price swinging_bars 2
  = [Pandas.nan; 0x1p1023; -0x1p1023; 0x1p1023]%float
  /\ nth_error (running_average 2 (gains (adjusted_price swinging_bars 2))) 3
     = Some infinity
  /\ nth_error (running_average 2 (losses (adjusted_price swinging_bars 2))) 3
     = Some neg_infinity
  /\ custom_rsi swinging_bars 2 = Some (repeat Pandas.nan 4).
Proof. repeat split. Qed.

(** ** Reading the klines (lines 35-72) *)

Lemma all_some_length {A : Type} (xs : list (option A)) (l : list A) :
  all_some xs = Some l -> length l = length xs.
Proof.
  revert l. induction xs as [|[a|] xs IH]; intros l H; cbn in H.
  - injection H as <-. reflexivity.
  - destruct (all_some xs) as [l'|]; [|discriminate].
    injection H as <-. cbn. f_equal. now apply IH.
  - discriminate.
Qed.

Lemma all_some_nth {A : Type} (xs : list (option A)) (l : list A) (i : nat)
    (a : A) :
  all_some xs = Some l -> nth_error l i = Some a ->
  nth_error xs i = Some (Some a).
Proof.
  revert l i. induction xs as [|[b|] xs IH]; intros l i H Hi; cbn in H.
  - injection H as <-. destruct i; discriminate.
  - destruct (all_some xs) as [l'|] eqn:E; [|discriminate].
    injection H as <-. destruct i as [|i]; cbn in *.
    + congruence.
    + now apply (IH l').
  - discriminate.
Qed.

Lemma all_some_map_nth {A B : Type} (f : A -> option B) (xs : list A)
    (l : list B) (d : A) (db : B) (k : nat) :
  all_some (map f xs) = Some l -> k < length xs ->
  f (nth k xs d) = Some (nth k l db).
Proof.
  revert l k. induction xs as [|x xs IH]; intros l k H Hk; [cbn in Hk; lia|].
  cbn in H. destruct (f x) as [b|] eqn:Ex; [|discriminate].
  destruct (all_some (map f xs)) as [l'|] eqn:E; [|discriminate].
  injection H as <-. destruct k as [|k]; cbn; [assumption|].
  apply IH; [reflexivity | cbn in Hk; lia].
Qed.

Lemma all_some_forall {A B : Type} (f : A -> option B) (xs : list A) :
  Forall (fun x => f x <> None) xs ->
  exists l, all_some (map f xs) = Some l.
Proof.
  induction 1 as [|x xs Hx _ [l IH]]; [exists []; reflexivity|].
  cbn. destruct (f x) as [b|]; [|congruence]. rewrite IH. eauto.
Qed.

Lemma all_some_none {A B : Type} (f : A -> option B) (xs : list A) (x : A) :
  In x xs -> f x = None -> all_some (map f xs) = None.
Proof.
  induction xs as [|y xs IH]; intros Hin Hx; [destruct Hin|].
  cbn. destruct Hin as [->|Hin].
  - now rewrite Hx.
  - destruct (f y); [|reflexivity]. now rewrite IH.
Qed.

Section KlinesFacts.

Variable Cell : Type.
Variable none : Cell.
Variable to_datetime : Cell -> option Z.
Variable to_float : Cell -> option float.
Variable get_historical_klines :
  String.string -> String.string -> String.string -> String.string ->
  list (list Cell).

Lemma widest_bound (rows : list (list Cell)) (row : list Cell) :
  In row rows -> length row <= widest Cell rows.
Proof.
  induction rows as [|r rows IH]; intros H; [destruct H|].
  cbn [widest fold_right]. destruct H as [->|H]; [lia|].
  specialize (IH H). unfold widest in IH. lia.
Qed.

Lemma fill_length (k : nat) (row : list Cell) :
  length row <= k -> length (fill Cell none k row) = k.
Proof.
  intros H. unfold fill. rewrite length_app, repeat_length. lia.
Qed.

Lemma fill_nth (k j : nat) (row : list Cell) :
  nth j (fill Cell none k row) none = nth j row none.
Proof.
  unfold fill. destruct (Nat.lt_ge_cases j (length row)) as [L|G].
  - now rewrite app_nth1.
  - rewrite app_nth2 by assumption. rewrite (nth_overflow row) by assumption.
    destruct (Nat.lt_ge_cases (j - length row) (k - length row)) as [L|G'].
    + apply nth_repeat_lt. assumption.
    + apply nth_overflow. now rewrite repeat_length.
Qed.

Lemma frame_of_rows_returns (rows df : list (list Cell)) :
  frame_of_rows Cell none 12 rows = Returns df ->
  df = map (fill Cell none 12) rows
  /\ Forall (fun row => length row <= 12) rows.
Proof.
  unfold frame_of_rows. destruct rows as [|r rows]; intros H.
  - injection H as <-. split; [reflexivity | constructor].
  - destruct (Nat.eqb_spec (widest Cell (r :: rows)) 12) as [E|E];
      [|discriminate].
    injection H as <-. split; [reflexivity|].
    apply Forall_forall. intros row Hin.
    rewrite <- E. now apply widest_bound.
Qed.

Lemma tl_nth (j : nat) (row : list Cell) :
  nth j (tl row) none = nth (S j) row none.
Proof. destruct row; [destruct j|]; reflexivity. Qed.

(** X1.  When [get_binance_4h_data] returns, the frame has one row for each
    kline received, in the same order, and at least 200 of them; the Open,
    High, Low, Close and Volume of a row are the float conversions of the
    cells 1 to 5 of its kline (cell 0 is the timestamp). *)
Theorem fetch_returns_the_klines
    (symbol interval start_str end_str : String.string) (data : DataFrame) :
  get_binance_4h_data Cell none to_datetime to_float get_historical_klines
    symbol interval start_str end_str = Returns data ->
  let klines := get_historical_klines symbol interval start_str end_str in
  length data = length klines
  /\ 200 <= length data
  /\ forall i bar,
       nth_error data i = Some bar ->
       exists row,
         nth_error klines i = Some row
         /\ to_float (nth 1 row none) = Some (Open bar)
         /\ to_float (nth 2 row none) = Some (High bar)
         /\ to_float (nth 3 row none) = Some (Low bar)
         /\ to_float (nth 4 row none) = Some (Close bar)
         /\ to_float (nth 5 row none) = Some (Volume bar).
Proof.
  unfold get_binance_4h_data. cbn zeta.
  set (klines := get_historical_klines symbol interval start_str end_str).
  destruct (frame_of_rows Cell none 12 klines) as [df|e] eqn:Ef;
    [|discriminate].
  destruct (frame_of_rows_returns klines df Ef) as [-> Hw].
  destruct (all_some (map (fun row => to_datetime (nth 0 row none)) _));
    [|discriminate].
  destruct (all_some (map (fun row => all_some (map to_float (tl row))) _))
    as [rows|] eqn:Er; [|discriminate].
  pose proof (all_some_length _ _ Er) as Lr. rewrite !length_map in Lr.
  destruct (Nat.ltb_spec (length rows) 200) as [L|L]; [discriminate|].
  intros H. injection H as <-. rewrite length_map.
  split; [assumption|]. split; [assumption|].
  intros i bar Hi. rewrite nth_error_map in Hi.
  destruct (nth_error rows i) as [r|] eqn:Ei; [|discriminate].
  cbn in Hi. injection Hi as <-.
  pose proof (all_some_nth _ _ _ _ Er Ei) as Hrow.
  rewrite !nth_error_map in Hrow.
  destruct (nth_error klines i) as [row|] eqn:Ek; [|discriminate].
  cbn in Hrow. injection Hrow as Hrow.
  exists row. split; [reflexivity|].
  assert (Lrow : length (tl (fill Cell none 12 row)) = 11).
  { assert (length row <= 12).
    { rewrite Forall_forall in Hw. apply Hw.
      eapply nth_error_In; eassumption. }
    pose proof (fill_length 12 row H) as E.
    destruct (fill Cell none 12 row); cbn in *; lia. }
  assert (G : forall j, j < 11 ->
                to_float (nth (S j) row none) = Some (nth j r Pandas.nan)).
  { intros j Hj. rewrite <- (fill_nth 12 (S j) row), <- tl_nth.
    apply (all_some_map_nth to_float _ r none Pandas.nan j Hrow). lia. }
  cbn [bar_of_floats Open High Low Close Volume].
  repeat split; apply G; lia.
Qed.

Lemma widest_all (rows : list (list Cell)) (k : nat) :
  rows <> [] -> Forall (fun row => length row = k) rows ->
  widest Cell rows = k.
Proof.
  intros Hne H. induction H as [|row rest Hl Hrest IH]; [congruence|].
  cbn [widest fold_right]. destruct rest as [|r rest'].
  - cbn. lia.
  - assert (E : widest Cell (r :: rest') = k) by (apply IH; discriminate).
    unfold widest in E. lia.
Qed.

Lemma fill_full (k : nat) (row : list Cell) :
  length row = k -> fill Cell none k row = row.
Proof.
  intros <-. unfold fill. rewrite Nat.sub_diag. apply app_nil_r.
Qed.

Lemma frame_of_full_rows (rows : list (list Cell)) :
  Forall (fun row => length row = 12) rows ->
  frame_of_rows Cell none 12 rows = Returns rows.
Proof.
  intros H. unfold frame_of_rows. destruct rows as [|r rows]; [reflexivity|].
  rewrite (widest_all (r :: rows) 12) by (assumption || discriminate).
  cbn [Nat.eqb]. f_equal.
  rewrite <- (map_id (r :: rows)) at 2. apply map_ext_in.
  intros row Hin. apply fill_full.
  rewrite Forall_forall in H. now apply H.
Qed.

(** X2.  On klines of twelve cells each, every one of which converts,
    [get_binance_4h_data] raises the ValueError of line 70, with the number
    of rows received, when there are fewer than 200 of them (none at all
    included), and returns a frame of as many rows otherwise. *)
Theorem fetch_refuses_short_history
    (symbol interval start_str end_str : String.string) :
  let klines := get_historical_klines symbol interval start_str end_str in
  Forall (fun row => length row = 12
                     /\ to_datetime (nth 0 row none) <> None
                     /\ Forall (fun c => to_float c <> None) (tl row))
         klines ->
  (length klines < 200 ->
   get_binance_4h_data Cell none to_datetime to_float get_historical_klines
     symbol interval start_str end_str
   = Raises (NotEnoughData (length klines)))
  /\ (200 <= length klines ->
      exists data,
        get_binance_4h_data Cell none to_datetime to_float
          get_historical_klines symbol interval start_str end_str
        = Returns data
        /\ length data = length klines).
Proof.
  cbn zeta. unfold get_binance_4h_data. cbn zeta.
  set (klines := get_historical_klines symbol interval start_str end_str).
  intros Hwf.
  rewrite frame_of_full_rows
    by (eapply Forall_impl; [|exact Hwf]; cbn; tauto).
  destruct (all_some_forall (fun row => to_datetime (nth 0 row none)) klines)
    as [ts ->]; [eapply Forall_impl; [|exact Hwf]; cbn; tauto|].
  destruct (all_some_forall (fun row => all_some (map to_float (tl row)))
              klines) as [rows Er].
  { eapply Forall_impl; [|exact Hwf]. cbn. intros row (_ & _ & H).
    destruct (all_some_forall to_float (tl row) H) as [l ->]. discriminate. }
  rewrite Er. pose proof (all_some_length _ _ Er) as Lr.
  rewrite length_map in Lr. rewrite Lr. split; intros H.
  - destruct (Nat.ltb_spec (length klines) 200); [reflexivity|lia].
  - destruct (Nat.ltb_spec (length klines) 200); [lia|].
    eexists. split; [reflexivity|]. now rewrite length_map.
Qed.

(** X3.  A cell after the timestamp that does not convert to float makes
    [get_binance_4h_data] raise, whichever column it is in: also one of the
    six columns that line 72 drops, and however many rows there are. *)
Theorem fetch_raises_on_bad_cell
    (symbol interval start_str end_str : String.string)
    (row : list Cell) (c : Cell) :
  let klines := get_historical_klines symbol interval start_str end_str in
  In row klines -> In c (tl row) -> to_float c = None ->
  exists e,
    get_binance_4h_data Cell none to_datetime to_float get_historical_klines
      symbol interval start_str end_str = Raises e.
Proof.
  cbn zeta. unfold get_binance_4h_data. cbn zeta.
  set (klines := get_historical_klines symbol interval start_str end_str).
  intros Hrow Hc Hf.
  destruct (frame_of_rows Cell none 12 klines) as [df|e] eqn:Ef; [|eauto].
  destruct (frame_of_rows_returns klines df Ef) as [-> Hw].
  destruct (all_some (map (fun row => to_datetime (nth 0 row none)) _));
    [|eauto].
  rewrite (all_some_none (fun r => all_some (map to_float (tl r)))
             (map (fill Cell none 12) klines) (fill Cell none 12 row));
    [eauto | now apply in_map |].
  apply (all_some_none to_float _ c); [|assumption].
  unfold fill. destruct row as [|c0 row]; [destruct Hc|].
  cbn [tl app] in *. apply in_or_app. now left.
Qed.

(** X4.  Data that [get_binance_4h_data] returned is enough for [init]:
    with RSI and ATR periods from 1 to 200 and any SMA period from 1 on
    (the defaults are 21, 14 and 50), [init] returns three series as long
    as the data. *)
Theorem fetched_data_initialises
    (symbol interval start_str end_str : String.string)
    (data : DataFrame) (p : Params) :
  get_binance_4h_data Cell none to_datetime to_float get_historical_klines
    symbol interval start_str end_str = Returns data ->
  1 <= rsi_period p <= 200 -> 1 <= sma_period p ->
  1 <= atr_period p <= 200 ->
  exists ind,
    init p data = Some ind
    /\ length (ind_rsi ind) = length data
    /\ length (ind_sma ind) = length data
    /\ length (ind_atr ind) = length data.
Proof.
  intros H Hr Hs Ha.
  assert (L : 200 <= length data).
  { revert H. unfold get_binance_4h_data. cbn zeta.
    destruct (frame_of_rows Cell none 12 _) as [df|e]; [|discriminate].
    destruct (all_some (map (fun row => to_datetime (nth 0 row none)) df));
      [|discriminate].
    destruct (all_some (map (fun row => all_some (map to_float (tl row)))
                            df)) as [rows|]; [|discriminate].
    destruct (Nat.ltb_spec (length rows) 200); [discriminate|].
    intros [= <-]. now rewrite length_map. }
  destruct (init_some p data) as [ind E]; try lia.
  exists ind. split; [assumption | exact (init_lengths p data ind E)].
Qed.

End KlinesFacts.

Lemma fetch_returns_the_klines_witness :
  length two_hundred_bars
  = length (sample_client 200 "BTCUSDT"%string "4h"%string
              "2015-01-01"%string "2025-02-16"%string)
  /\ 200 <= length two_hundred_bars.
Proof.
  destruct (fetch_returns_the_klines float Pandas.nan stamp_cell float_cell
              (sample_client 200) "BTCUSDT"%string "4h"%string
              "2015-01-01"%string "2025-02-16"%string two_hundred_bars
              ltac:(vm_compute; reflexivity)) as (H1 & H2 & _).
  exact (conj H1 H2).
Defined.

Lemma sample_klines_well_formed (n : nat) :
  Forall (fun row => length row = 12
                     /\ stamp_cell (nth 0 row Pandas.nan) <> None
                     /\ Forall (fun c => float_cell c <> None) (tl row))
         (repeat sample_kline n).
Proof.
  apply Forall_forall. intros row Hin. apply repeat_spec in Hin. subst row.
  split; [reflexivity|]. split; [discriminate|].
  apply Forall_forall. intros c _. discriminate.
Qed.

Lemma fetch_refuses_short_history_witness :
  get_binance_4h_data float Pandas.nan stamp_cell float_cell (sample_client 3)
    "BTCUSDT"%string "4h"%string "2015-01-01"%string "2025-02-16"%string
  = Raises (NotEnoughData 3).
Proof.
  refine (proj1 (fetch_refuses_short_history float Pandas.nan stamp_cell
                   float_cell (sample_client 3) "BTCUSDT"%string "4h"%string
                   "2015-01-01"%string "2025-02-16"%string
                   (sample_klines_well_formed 3)) _).
  cbn; lia.
Defined.

(** Two hundred klines whose OHLCV cells all convert are refused for their
    Ignore column. *)
Lemma fetch_raises_on_bad_cell_witness :
  exists e,
    get_binance_4h_data (option float) (Some Pandas.nan) stamp_of_parsed
      parsed_cell (bad_client 200) "BTCUSDT"%string "4h"%string
      "2015-01-01"%string "2025-02-16"%string = Raises e.
Proof.
  apply (fetch_raises_on_bad_cell (option float) (Some Pandas.nan)
           stamp_of_parsed parsed_cell (bad_client 200) "BTCUSDT"%string
           "4h"%string "2015-01-01"%string "2025-02-16"%string
           kline_with_bad_cell None).
  - left. reflexivity.
  - cbn. tauto.
  - reflexivity.
Defined.

Lemma fetched_data_initialises_witness :
  exists ind,
    init default_params two_hundred_bars = Some ind
    /\ length (ind_rsi ind) = length two_hundred_bars
    /\ length (ind_sma ind) = length two_hundred_bars
    /\ length (ind_atr ind) = length two_hundred_bars.
Proof.
  apply (fetched_data_initialises float Pandas.nan stamp_cell float_cell
           (sample_client 200) "BTCUSDT"%string "4h"%string
           "2015-01-01"%string "2025-02-16"%string two_hundred_bars
           default_params ltac:(vm_compute; reflexivity)); cbn; lia.
Defined.

(** ** What [init] holds *)

Lemma init_parts (p : Params) (data : DataFrame) (ind : Indicators) :
  init p data = Some ind ->
  custom_rsi data (rsi_period p) = Some (ind_rsi ind)
  /\ safe_sma (column Close data) (sma_period p) = Some (ind_sma ind)
  /\ TA.atr (column High data) (column Low data) (column Close data)
            (atr_period p) = Some (ind_atr ind).
Proof.
  unfold init. intros H.
  destruct (Strategy_I data (custom_rsi data (rsi_period p))) as [r|] eqn:Er;
    [|discriminate].
  destruct (Strategy_I data (safe_sma (column Close data) (sma_period p)))
    as [s|] eqn:Es; [|discriminate].
  destruct (Strategy_I data (TA.atr (column High data) (column Low data)
                           (column Close data) (atr_period p))) as [a|] eqn:Ea;
    [|discriminate].
  cbn [bind] in H. injection H as <-. cbn.
  apply Strategy_I_some in Er, Es, Ea. tauto.
Qed.

Lemma run_bar_at (p : Params) (data : DataFrame) (ind : Indicators)
    (pos : PositionState) (i : nat) (bar : Bar) :
  init p data = Some ind -> nth_error data i = Some bar ->
  exists s a,
    nth_error (ind_sma ind) i = Some s
    /\ nth_error (ind_atr ind) i = Some a
    /\ run_bar p data pos i
       = Some (decision p (column Close data) (ind_rsi ind) (ind_sma ind)
                 (ind_atr ind) pos i (Close bar) s a).
Proof.
  intros Hi Hb. destruct (init_lengths p data ind Hi) as (Lr & Ls & La).
  assert (Li : i < length data) by (apply nth_error_Some; congruence).
  destruct (nth_error (ind_sma ind) i) as [s|] eqn:Es;
    [|apply nth_error_None in Es; lia].
  destruct (nth_error (ind_atr ind) i) as [a|] eqn:Ea;
    [|apply nth_error_None in Ea; lia].
  exists s, a. split; [reflexivity|]. split; [reflexivity|].
  unfold run_bar. rewrite Hi. cbn [bind].
  apply next_at_bar; try assumption; [|lia].
  unfold column. rewrite nth_error_map, Hb. reflexivity.
Qed.

(** ** The signals of [next], read off its decision *)

Lemma decision_not_ready (p : Params) (Close rsi sma atr : list float)
    (pos : PositionState) (i : nat) (c s a : float) :
  ready sma atr i = false -> decision p Close rsi sma atr pos i c s a = [].
Proof. intros H. unfold decision. now rewrite H. Qed.

Lemma decision_quiet (p : Params) (Close rsi sma atr : list float)
    (pos : PositionState) (i : nat) (c s a : float) :
  crosses_above rsi (buy_threshold p) i = false ->
  crosses_below rsi (sell_threshold p) i = false ->
  decision p Close rsi sma atr pos i c s a = [].
Proof.
  intros H1 H2. unfold decision. rewrite H1, H2.
  destruct (ready sma atr i), pos; reflexivity.
Qed.

Lemma decision_open_crosses (p : Params) (Close rsi sma atr : list float)
    (pos : PositionState) (i : nat) (c s a : float) (x : Intent) :
  In x (decision p Close rsi sma atr pos i c s a) ->
  is_open_long x = true ->
  crosses_above rsi (buy_threshold p) i = true.
Proof.
  unfold decision. intros Hin Hx.
  destruct (ready sma atr i); cbn [negb] in Hin; [|destruct Hin].
  destruct (crosses_above rsi (buy_threshold p) i); [reflexivity|].
  rewrite andb_false_r in Hin. cbn [andb] in Hin.
  destruct (position_bool pos && crosses_below rsi (sell_threshold p) i);
    [destruct Hin as [<-|[]]; discriminate | destruct Hin].
Qed.

Lemma decision_close_crosses (p : Params) (Close rsi sma atr : list float)
    (pos : PositionState) (i : nat) (c s a : float) :
  In CloseLong (decision p Close rsi sma atr pos i c s a) ->
  crosses_below rsi (sell_threshold p) i = true.
Proof.
  unfold decision. intros Hin.
  destruct (ready sma atr i); cbn [negb] in Hin; [|destruct Hin].
  destruct (negb (position_bool pos)
            && crosses_above rsi (buy_threshold p) i && Py.gt c s);
    [destruct Hin as [[=]|[]]|].
  destruct (crosses_below rsi (sell_threshold p) i); [reflexivity|].
  rewrite andb_false_r in Hin. destruct Hin.
Qed.

(** ** Warm-up of the three indicators *)

Lemma rsi_series_leading (data : DataFrame) (n : nat) :
  1 <= n -> leading_nan (2 * n - 1) (rsi_series data n).
Proof.
  intros Hn. unfold rsi_series.
  apply zip_with_leading_l; [apply rsi_value_nan_l|].
  unfold wilder.
  replace (2 * n - 1) with (S (n - 1) + n - 1) by lia.
  apply ewm_mean_leading; [assumption|].
  apply gains_leading, adjusted_price_leading.
Qed.

Lemma true_range_with_leading (b : bool) (high low close : list float) :
  leading_nan 1 (true_range_with b high low close).
Proof.
  unfold true_range_with. destruct (TA.zip_with3 _ _ _ _);
    [apply leading_nan_nil|].
  apply leading_nan_cons. split; [reflexivity | apply leading_nan_zero].
Qed.

Lemma atr_series_leading (n : nat) (b : bool) (high low close : list float) :
  1 <= n -> leading_nan n (wilder n (true_range_with b high low close)).
Proof.
  intros Hn. unfold wilder.
  replace n with (1 + n - 1) at 1 by lia.
  apply ewm_mean_leading; [assumption | apply true_range_with_leading].
Qed.

Lemma nan_not_ready_l (sma atr : list float) (i : nat) :
  nth_error sma i = Some Pandas.nan -> ready sma atr i = false.
Proof. intros H. unfold ready. rewrite H. now destruct (nth_error atr i). Qed.

Lemma nan_not_ready_r (sma atr : list float) (i : nat) :
  nth_error atr i = Some Pandas.nan -> ready sma atr i = false.
Proof.
  intros H. unfold ready. rewrite H.
  destruct (nth_error sma i); [|reflexivity]. apply andb_false_r.
Qed.

Lemma lt_nan_l (y : float) : Py.lt Pandas.nan y = false.
Proof. unfold Py.lt. rewrite ltb_spec. reflexivity. Qed.

Lemma gt_nan_l (y : float) : Py.gt Pandas.nan y = false.
Proof.
  unfold Py.gt. rewrite ltb_spec. change (Prim2SF Pandas.nan) with S754_nan.
  unfold SFltb, SFcompare. now destruct (Prim2SF y).
Qed.

(** A series that is NaN below [i] crosses no level at [i]. *)
Lemma nan_no_cross (rsi : list float) (level : float) (i : nat) :
  (forall j x, j < i -> nth_error rsi j = Some x -> x = Pandas.nan) ->
  crosses_above rsi level i = false /\ crosses_below rsi level i = false.
Proof.
  intros H. unfold crosses_above, crosses_below.
  destruct i as [|j]; [auto|].
  destruct (nth_error rsi j) as [x0|] eqn:E; [|auto].
  rewrite (H j x0 ltac:(lia) E), lt_nan_l, gt_nan_l.
  destruct (nth_error rsi (S j)); auto.
Qed.

(** ** Binary64 comparison *)

Lemma compare_cont_opp (p q : positive) :
  Pos.compare_cont Eq q p = CompOpp (Pos.compare_cont Eq p q).
Proof. symmetry. exact (Pos.compare_cont_antisym p q Eq). Qed.

Lemma SFltb_asym (x y : spec_float) :
  SFltb x y = true -> SFltb y x = false.
Proof.
  unfold SFltb, SFcompare.
  destruct x as [sx|sx| |sx mx ex], y as [sy|sy| |sy my ey];
    try discriminate; try reflexivity;
    try (destruct sx; try discriminate; reflexivity);
    try (destruct sy; try discriminate; reflexivity);
    try (destruct sx, sy; try discriminate; reflexivity).
  rewrite (Z.compare_antisym ex ey), (compare_cont_opp mx my).
  destruct sx, sy, (ex ?= ey)%Z, (Pos.compare_cont Eq mx my); cbn;
    try discriminate; reflexivity.
Qed.

Lemma ltb_asym (x y : float) :
  PrimFloat.ltb x y = true -> PrimFloat.ltb y x = false.
Proof. rewrite !ltb_spec. apply SFltb_asym. Qed.

Lemma no_cross_above_twice (s : list float) (level : float) (i : nat) :
  crosses_above s level i = true -> crosses_above s level (S i) = false.
Proof.
  unfold crosses_above. destruct i as [|j]; [discriminate|].
  destruct (nth_error s j) as [x0|]; [|discriminate].
  destruct (nth_error s (S j)) as [x1|]; [|discriminate].
  intros H. apply andb_true_iff in H as [_ H]. unfold Py.gt in H.
  unfold Py.lt. rewrite (ltb_asym _ _ H).
  destruct (nth_error s (S (S j))); reflexivity.
Qed.

Lemma no_cross_below_twice (s : list float) (level : float) (i : nat) :
  crosses_below s level i = true -> crosses_below s level (S i) = false.
Proof.
  unfold crosses_below. destruct i as [|j]; [discriminate|].
  destruct (nth_error s j) as [x0|]; [|discriminate].
  destruct (nth_error s (S j)) as [x1|]; [|discriminate].
  intros H. apply andb_true_iff in H as [_ H]. unfold Py.lt in H.
  unfold Py.gt. rewrite (ltb_asym _ _ H).
  destruct (nth_error s (S (S j))); reflexivity.
Qed.

(** ** When [init] returns, and [next] after it (lines 138-175) *)

(** X5.  For positive periods, [init] returns exactly when neither the RSI
    period nor the ATR period exceeds the number of bars; the SMA period
    plays no part (a window longer than the data gives the NaN series of
    [safe_sma]). *)
Theorem init_returns_iff (p : Params) (data : DataFrame) :
  1 <= rsi_period p -> 1 <= sma_period p -> 1 <= atr_period p ->
  (exists ind, init p data = Some ind)
  <-> rsi_period p <= length data /\ atr_period p <= length data.
Proof.
  intros Hr Hs Ha. split.
  - intros [ind H].
    destruct (Nat.le_gt_cases (rsi_period p) (length data)) as [Lr|Lr];
      [|rewrite (init_none_rsi p data Hr Lr) in H; discriminate].
    destruct (Nat.le_gt_cases (atr_period p) (length data)) as [La|La];
      [|rewrite (init_none_atr p data Ha La) in H; discriminate].
    auto.
  - intros [Lr La]. now apply init_some.
Qed.

(** Four bars, an SMA period of 50: [init] returns. *)
Lemma init_returns_iff_witness :
  exists ind, init (with_periods 2 50 2 default_params) rising_bars = Some ind.
Proof.
  apply (proj2 (init_returns_iff (with_periods 2 50 2 default_params)
                  rising_bars ltac:(cbn; lia) ltac:(cbn; lia)
                  ltac:(cbn; lia))).
  cbn; lia.
Defined.



(** ** Safe SMA on every input (lines 102-115) *)

(** X7.  For every period from 1 on and every close series, long or
    short, [safe_sma] returns a series as long as its input, whose first
    [period - 1] entries are NaN. *)
Theorem safe_sma_warmup (close_prices : list float) (period : nat) :
  1 <= period ->
  exists r,
    safe_sma close_prices period = Some r
    /\ length r = length close_prices
    /\ forall i x, i < period - 1 -> nth_error r i = Some x ->
                   Py.isnan x = true.
Proof.
  intros Hp. exists (Pandas.rolling_mean period close_prices).
  split; [now apply safe_sma_rolling|].
  split; [apply rolling_mean_length|].
  intros i x Hi Hx. apply F.isnan_eq.
  exact (proj1 (leading_nan_nth _ _) (rolling_mean_leading period close_prices)
           i x Hi Hx).
Qed.

Lemma safe_sma_warmup_witness :
  exists r,
    safe_sma [1; 2; 3; 4]%float 3 = Some r
    /\ length r = length [1; 2; 3; 4]%float
    /\ forall i x, i < 3 - 1 -> nth_error r i = Some x -> Py.isnan x = true.
Proof.
  apply (safe_sma_warmup [1; 2; 3; 4]%float 3). lia.
Defined.

(** X8.  The guard of line 113 does not cover a period of 0: no series is
    shorter than 0, [ta.sma] replaces the length 0 by its default 10, and
    [safe_sma] then raises on fewer than 10 prices ([None.values]) and
    returns the 10-bar SMA on 10 or more. *)
Theorem safe_sma_period_zero (close_prices : list float) :
  (length close_prices < 10 -> safe_sma close_prices 0 = None)
  /\ (10 <= length close_prices ->
      safe_sma close_prices 0 = safe_sma close_prices 10).
Proof.
  unfold safe_sma.
  replace (length close_prices <? 0) with false
    by (symmetry; apply Nat.ltb_ge; lia).
  split; intros H.
  - unfold TA.sma. cbn [TA.length_or]. now rewrite verify_series_none.
  - destruct (Nat.ltb_spec (length close_prices) 10); [lia|reflexivity].
Qed.

(** ** Warm-up of a run (lines 138-175) *)

(** X9.  When [init] returns, the first [atr_period] entries of the ATR are
    NaN: the true range has no value at bar 0, and the Wilder average
    waits for [atr_period] values. *)
Theorem atr_warmup (p : Params) (data : DataFrame) (ind : Indicators) :
  1 <= atr_period p ->
  init p data = Some ind ->
  forall i x, i < atr_period p -> nth_error (ind_atr ind) i = Some x ->
              Py.isnan x = true.
Proof.
  intros Ha H i x Hi Hx. apply F.isnan_eq.
  destruct (init_parts p data ind H) as (_ & _ & Eatr).
  destruct (Nat.le_gt_cases (atr_period p) (length data)) as [La|La];
    [|rewrite (init_none_atr p data Ha La) in H; discriminate].
  rewrite (atr_some _ _ _ _ Ha) in Eatr by (rewrite ?column_length; auto).
  injection Eatr as Eatr. rewrite <- Eatr in Hx.
  rewrite true_range_as_with in Hx.
  exact (proj1 (leading_nan_nth _ _)
           (atr_series_leading (atr_period p) _ _ _ _ Ha) i x Hi Hx).
Qed.

Lemma atr_warmup_witness : Py.isnan Pandas.nan = true.
Proof.
  apply (atr_warmup (with_periods 1 2 1 default_params) zigzag_bars
           (mkIndicators [Pandas.nan; 100; 0; 100]%float
                         [Pandas.nan; 1.5; 1.5; 1.5]%float
                         [Pandas.nan; 1; 1; 1]%float)
           ltac:(cbn; lia) eq_refl 0 Pandas.nan ltac:(cbn; lia) eq_refl).
Defined.

(** X10.  [next] emits nothing during the warm-up, whatever the position:
    at a bar [i] below [sma_period - 1] or below [atr_period] the guard of
    line 160 returns, and at a bar below [2 * rsi_period] the RSI of the
    bar before is NaN, so that neither crossover holds.  With the default
    periods 50, 14 and 21 no intent is emitted before bar 49. *)
Theorem no_intent_during_warmup (p : Params) (data : DataFrame)
    (pos : PositionState) (i : nat) :
  1 <= rsi_period p -> 1 <= sma_period p -> 1 <= atr_period p ->
  rsi_period p <= length data -> atr_period p <= length data ->
  i < length data ->
  i < sma_period p - 1 \/ i < atr_period p \/ i < 2 * rsi_period p ->
  run_bar p data pos i = Some [].
Proof.
  intros Hr Hs Ha Lr La Li Hw.
  destruct (init_some p data Hr Hs Ha Lr La) as [ind Hi].
  destruct (init_series p data ind Hr Hs Ha Hi) as (Er & Es & Ea).
  destruct (nth_error data i) as [bar|] eqn:Eb;
    [|apply nth_error_None in Eb; lia].
  destruct (run_bar_at p data ind pos i bar Hi Eb) as (s & a & Hs' & Ha' & ->).
  f_equal. destruct Hw as [Hw|[Hw|Hw]].
  - apply decision_not_ready, nan_not_ready_l. rewrite Hs'. f_equal.
    rewrite Es in Hs'.
    exact (proj1 (leading_nan_nth _ _) (rolling_mean_leading _ _) i s Hw Hs').
  - apply decision_not_ready, nan_not_ready_r. rewrite Ha'. f_equal.
    rewrite Ea in Ha'.
    exact (proj1 (leading_nan_nth _ _)
             (atr_series_leading _ _ _ _ _ Ha) i a Hw Ha').
  - assert (N : forall j x, j < i -> nth_error (ind_rsi ind) j = Some x ->
                            x = Pandas.nan).
    { intros j x Hj Hx. rewrite Er in Hx.
      apply (proj1 (leading_nan_nth _ _) (rsi_series_leading data _ Hr) j x);
        [lia | assumption]. }
    apply decision_quiet; now apply nan_no_cross.
Qed.

(** With periods 1, 2 and 1 bar 1 of [zigzag_bars] is past the SMA and the
    ATR warm-up, but not past that of the RSI. *)
Lemma no_intent_during_warmup_witness :
  run_bar (with_periods 1 2 1 default_params) zigzag_bars FLAT 1 = Some [].
Proof.
  apply (no_intent_during_warmup (with_periods 1 2 1 default_params)
           zigzag_bars FLAT 1); cbn; lia.
Defined.

(** ** The columns the strategy reads (lines 91-94, 143-153, 163) *)

(** X11.  The Open column is never read: two data frames with the same
    High, Low, Close and Volume columns give the same indicators and the
    same intents at every bar. *)
Theorem open_is_never_read (p : Params) (data data' : DataFrame) :
  column High data = column High data' ->
  column Low data = column Low data' ->
  column Close data = column Close data' ->
  column Volume data = column Volume data' ->
  init p data = init p data'
  /\ forall pos i, run_bar p data pos i = run_bar p data' pos i.
Proof.
  intros HH HL HC HV.
  assert (L : length data = length data').
  { rewrite <- (column_length Close data), <- (column_length Close data').
    now rewrite HC. }
  assert (E : init p data = init p data').
  { unfold init, custom_rsi, adjusted_price, hlc3, normalized_volume,
      volume_average, Strategy_I.
    now rewrite HH, HL, HC, HV, L. }
  split; [exact E|]. intros pos i. unfold run_bar. now rewrite E, HC.
Qed.

Lemma open_is_never_read_witness :
  init (with_periods 1 2 1 default_params) zigzag_bars
  = init (with_periods 1 2 1 default_params) zigzag_bars_other_open
  /\ forall pos i,
       run_bar (with_periods 1 2 1 default_params) zigzag_bars pos i
       = run_bar (with_periods 1 2 1 default_params) zigzag_bars_other_open
           pos i.
Proof.
  apply (open_is_never_read (with_periods 1 2 1 default_params) zigzag_bars
           zigzag_bars_other_open); reflexivity.
Defined.

(** ** Signals on consecutive bars (lines 170-175) *)

(** X12.  No signal fires twice in a row: if [next] emits an OpenLong at
    bar [i] it emits none at bar [i + 1], and if it emits a CloseLong at
    bar [i] it emits none at bar [i + 1], whatever the position at either
    bar.  The crossover at [i] puts RSI[i] strictly on the far side of the
    threshold, where the crossover at [i + 1] needs it on the near side. *)
Theorem no_signal_twice_in_a_row (p : Params) (Close rsi sma atr : list float)
    (pos pos' : PositionState) (i : nat) (out out' : list Intent) :
  S i < length Close -> S i < length rsi ->
  S i < length sma -> S i < length atr ->
  next_at p Close rsi sma atr pos i = Some out ->
  next_at p Close rsi sma atr pos' (S i) = Some out' ->
  ((exists x, In x out /\ is_open_long x = true) ->
   forall y, In y out' -> is_open_long y = false)
  /\ (In CloseLong out -> ~ In CloseLong out').
Proof.
  intros LC Lr Ls La H H'.
  destruct (nth_error Close i) as [c|] eqn:EC;
    [|apply nth_error_None in EC; lia].
  destruct (nth_error sma i) as [s|] eqn:ES;
    [|apply nth_error_None in ES; lia].
  destruct (nth_error atr i) as [a|] eqn:EA;
    [|apply nth_error_None in EA; lia].
  destruct (nth_error Close (S i)) as [c'|] eqn:EC';
    [|apply nth_error_None in EC'; lia].
  destruct (nth_error sma (S i)) as [s'|] eqn:ES';
    [|apply nth_error_None in ES'; lia].
  destruct (nth_error atr (S i)) as [a'|] eqn:EA';
    [|apply nth_error_None in EA'; lia].
  rewrite (next_at_bar p _ _ _ _ _ _ _ _ EC ES EA (Nat.lt_succ_l _ _ Lr))
    in H.
  rewrite (next_at_bar p _ _ _ _ _ _ _ _ EC' ES' EA' Lr) in H'.
  injection H as <-. injection H' as <-. split.
  - intros (x & Hin & Hx) y Hy.
    pose proof (decision_open_crosses _ _ _ _ _ _ _ _ _ _ _ Hin Hx) as C.
    apply no_cross_above_twice in C.
    destruct (is_open_long y) eqn:Ey; [|reflexivity].
    pose proof (decision_open_crosses _ _ _ _ _ _ _ _ _ _ _ Hy Ey) as C'.
    congruence.
  - intros Hin Hin'.
    pose proof (decision_close_crosses _ _ _ _ _ _ _ _ _ _ Hin) as C.
    apply no_cross_below_twice in C.
    pose proof (decision_close_crosses _ _ _ _ _ _ _ _ _ _ Hin') as C'.
    congruence.
Qed.

(** An OpenLong at bar 1, and at bar 2, in the LONG state, a CloseLong. *)
Lemma no_signal_twice_in_a_row_witness : is_open_long CloseLong = false.
Proof.
  refine (proj1 (no_signal_twice_in_a_row default_params
                   [100; 101; 102]%float [50; 60; 40]%float
                   [90; 90; 90]%float [2; 2; 2]%float FLAT LONG 1
                   [OpenLong 98 111] [CloseLong]
                   ltac:(cbn; lia) ltac:(cbn; lia) ltac:(cbn; lia)
                   ltac:(cbn; lia) eq_refl eq_refl) _ CloseLong _).
  - exists (OpenLong 98 111). split; [left; reflexivity | reflexivity].
  - left. reflexivity.
Defined.

(** ** Rounding a quotient

    [x / y] is the integer quotient of two scaled mantissas, with a
    location that tells where the remainder lies, rounded by
    [binary_round_aux].  The lemmas below follow that rounding from a
    location that need not be exact, far enough to bound its result by a
    float. *)
Module Quot.

Import IEEE.
Import Round.

Local Open Scope Z_scope.

Lemma shr_1_m (mrs : shr_record) :
  0 <= shr_m mrs -> shr_m (shr_1 mrs) = shr_m mrs / 2.
Proof.
  destruct mrs as [m r s]. cbn [shr_m]. intros H.
  destruct m as [|[p|p|]|p]; cbn [shr_1 shr_m].
  - reflexivity.
  - apply Z.div_unique with (r := 1); lia.
  - apply Z.div_unique with (r := 0); lia.
  - reflexivity.
  - lia.
Qed.

Lemma iter_shr_m (p : positive) :
  forall mrs, 0 <= shr_m mrs ->
    shr_m (iter_pos shr_1 p mrs) = shr_m mrs / 2 ^ Zpos p.
Proof.
  assert (S1 : forall mrs, 0 <= shr_m mrs -> 0 <= shr_m (shr_1 mrs)).
  { intros mrs H. rewrite shr_1_m by assumption. apply Z.div_pos; lia. }
  induction p as [p IH|p IH|]; intros mrs H; cbn [iter_pos].
  - pose proof (S1 mrs H) as H1.
    assert (H2 : 0 <= shr_m (iter_pos shr_1 p (shr_1 mrs))).
    { rewrite IH by assumption. apply Z.div_pos; [lia | apply pow2_pos; lia]. }
    rewrite IH, IH, shr_1_m by assumption.
    pose proof (pow2_pos (Zpos p) ltac:(lia)) as P.
    replace (Zpos p~1) with (1 + Zpos p + Zpos p) by lia.
    rewrite !Z.pow_add_r by lia. change (2 ^ 1) with 2.
    rewrite !Z.div_div by lia. f_equal. lia.
  - assert (H2 : 0 <= shr_m (iter_pos shr_1 p mrs)).
    { rewrite IH by assumption. apply Z.div_pos; [lia | apply pow2_pos; lia]. }
    rewrite IH, IH by assumption.
    pose proof (pow2_pos (Zpos p) ltac:(lia)) as P.
    replace (Zpos p~0) with (Zpos p + Zpos p) by lia.
    rewrite Z.pow_add_r by lia.
    rewrite Z.div_div by lia. reflexivity.
  - rewrite shr_1_m by assumption. reflexivity.
Qed.

Lemma shr_m_spec (mrs : shr_record) (e n : Z) :
  0 <= shr_m mrs ->
  snd (shr mrs e n) = e + Z.max n 0
  /\ shr_m (fst (shr mrs e n)) = shr_m mrs / 2 ^ Z.max n 0.
Proof.
  intros H. unfold shr. destruct n as [|p|p]; cbn [fst snd].
  - split; [lia|]. cbn. now rewrite Z.div_1_r.
  - rewrite Z.max_l by lia. split; [reflexivity|]. now apply iter_shr_m.
  - split; [lia|]. cbn. now rewrite Z.div_1_r.
Qed.

Section Location.

Variables prec emax : Z.

(** [binary_round_aux] on a mantissa [M] whose location need not be exact. *)
Lemma bra_any (s : bool) (M e : Z) (l : location) :
  0 <= M ->
  exists m1 : Z,
    let n1 := Z.max (SpecFloat.fexp prec emax (Zdigits2 M + e) - e) 0 in
    let e1 := e + n1 in
    let n2 := Z.max (SpecFloat.fexp prec emax (Zdigits2 m1 + e1) - e1) 0 in
    M / 2 ^ n1 <= m1 <= M / 2 ^ n1 + 1
    /\ (l = loc_Exact -> M mod 2 ^ n1 = 0 -> m1 = M / 2 ^ n1)
    /\ binary_round_aux prec emax s M e l
       = round_result prec emax s (m1 / 2 ^ n2) (e1 + n2).
Proof.
  intros HM. destruct l as [|c].
  - destruct (bra_exact prec emax s M e HM) as (m1 & B & Hex & E).
    exists m1. cbn zeta in *. auto.
  - unfold binary_round_aux, shr_fexp.
    set (r0 := shr_record_of_loc M (loc_Inexact c)).
    assert (H0 : shr_m r0 = M) by apply F.shr_record_of_loc_m.
    destruct (shr_m_spec r0 e (SpecFloat.fexp prec emax (Zdigits2 M + e) - e))
      as [E1 Hm]; [lia|].
    destruct (shr r0 e _) as [mrs e1]. cbn [fst snd] in E1, Hm. subst e1.
    rewrite H0 in Hm.
    set (n1 := Z.max (SpecFloat.fexp prec emax (Zdigits2 M + e) - e) 0) in *.
    set (m1 := round_nearest_even (shr_m mrs) (loc_of_shr_record mrs)).
    assert (Hm1 : 0 <= m1).
    { pose proof (rne_bounds (shr_m mrs) (loc_of_shr_record mrs)).
      assert (0 <= M / 2 ^ n1)
        by (apply Z.div_pos; [lia | apply pow2_pos; lia]).
      subst m1. lia. }
    destruct (shr_exact m1 (e + n1)
                (SpecFloat.fexp prec emax (Zdigits2 m1 + (e + n1)) - (e + n1))
                Hm1) as (mrs2 & E2 & Hm2 & _).
    cbn [shr_record_of_loc]. fold m1. rewrite E2.
    exists m1. cbn zeta. fold n1.
    split; [rewrite <- Hm; apply rne_bounds|].
    split; [discriminate|].
    rewrite Hm2. reflexivity.
Qed.

(** Rounding a value below the float [mx * 2^ex] gives at most that float:
    the value is [M * 2^e] and a fraction of [2^e], none when the location
    is exact. *)
Lemma bra_le (s : bool) (M e : Z) (l : location) (mx : positive) (ex : Z) :
  bounded prec emax mx ex = true ->
  0 <= M -> e <= ex ->
  (M + 1 <= Zpos mx * 2 ^ (ex - e)
   \/ (l = loc_Exact /\ M <= Zpos mx * 2 ^ (ex - e))) ->
  mag_le (binary_round_aux prec emax s M e l) s mx ex.
Proof.
  intros Hb HM He Hle.
  destruct (bounded_canonical prec emax mx ex Hb) as [Hc Hmax].
  destruct (bra_any s M e l HM) as (m1 & B & Hex & ->). cbn zeta in *.
  set (n1 := Z.max (SpecFloat.fexp prec emax (Zdigits2 M + e) - e) 0) in *.
  set (e1 := e + n1) in *.
  pose proof (pow2_pos (ex - e) ltac:(lia)) as P0.
  assert (HM0 : M <= Zpos mx * 2 ^ (ex - e))
    by (destruct Hle as [?|[_ ?]]; lia).
  assert (He1 : e1 <= ex).
  { assert (Zdigits2 M <= Zdigits2 (Zpos mx * 2 ^ (ex - e)))
      by (apply Zdigits2_mono; lia).
    rewrite Zdigits2_shift in H by lia. cbn [Zdigits2] in H.
    assert (SpecFloat.fexp prec emax (Zdigits2 M + e) <= ex)
      by (rewrite <- Hc; apply fexp_mono; lia).
    unfold e1, n1. lia. }
  assert (Hn1 : 0 <= n1) by (unfold n1; lia).
  pose proof (pow2_pos n1 Hn1) as Pn1.
  set (X' := Zpos mx * 2 ^ (ex - e1)).
  pose proof (pow2_pos (ex - e1) ltac:(lia)) as PX.
  assert (EX : Zpos mx * 2 ^ (ex - e) = X' * 2 ^ n1).
  { unfold X'. replace (ex - e) with (ex - e1 + n1) by (unfold e1; lia).
    rewrite pow2_split by lia. lia. }
  assert (B1 : 0 <= m1 <= X').
  { assert (0 <= M / 2 ^ n1) by (apply Z.div_pos; lia).
    split; [lia|].
    assert (D : M / 2 ^ n1 <= X').
    { rewrite <- (Z.div_mul X' (2 ^ n1)) by lia. apply Z.div_le_mono; lia. }
    destruct (Z.eq_dec (M / 2 ^ n1) X') as [E|NE]; [|lia].
    pose proof (Z.mul_div_le M (2 ^ n1) Pn1) as Q.
    destruct Hle as [Hlt|[-> Hl]]; [nia|].
    assert (EM : M = X' * 2 ^ n1) by nia.
    rewrite Hex; [lia | reflexivity |]. rewrite EM. apply Z.mod_mul. lia. }
  set (n2 := Z.max (SpecFloat.fexp prec emax (Zdigits2 m1 + e1) - e1) 0).
  assert (Hn2 : 0 <= n2) by (unfold n2; lia).
  assert (He2 : e1 + n2 <= ex).
  { assert (Zdigits2 m1 <= Zdigits2 X') by (apply Zdigits2_mono; lia).
    unfold X' in H. rewrite Zdigits2_shift in H by lia. cbn [Zdigits2] in H.
    assert (SpecFloat.fexp prec emax (Zdigits2 m1 + e1) <= ex)
      by (rewrite <- Hc; apply fexp_mono; lia).
    unfold n2. lia. }
  pose proof (pow2_pos n2 Hn2) as Pn.
  assert (Hm2 : 0 <= m1 / 2 ^ n2) by (apply Z.div_pos; lia).
  unfold round_result.
  destruct (m1 / 2 ^ n2) as [|p|p] eqn:E; [left; reflexivity| |lia].
  right. destruct (Z.leb_spec (e1 + n2) (emax - prec)); [|lia].
  eexists _, _. split; [reflexivity|].
  destruct (Z.eq_dec (e1 + n2) ex) as [E2|NE]; [right|left; lia].
  split; [assumption|].
  assert (En : n2 = ex - e1) by lia.
  rewrite <- E, En.
  rewrite <- (Z.div_mul (Zpos mx) (2 ^ (ex - e1))) by lia.
  apply Z.div_le_mono; [lia|]. fold X'. lia.
Qed.

(** The order of two canonical floats of one sign is that of their
    values. *)
Lemma canonical_le (m1 : positive) (e1 : Z) (m2 : positive) (e2 : Z) :
  bounded prec emax m1 e1 = true -> bounded prec emax m2 e2 = true ->
  e1 < e2 \/ (e1 = e2 /\ Zpos m1 <= Zpos m2) ->
  e1 <= e2 /\ Zpos m1 <= Zpos m2 * 2 ^ (e2 - e1)
  /\ Zpos (digits2_pos m1) + e1 <= Zpos (digits2_pos m2) + e2.
Proof.
  intros H1 H2 [L|[-> L]].
  - destruct (bounded_canonical prec emax m1 e1 H1) as [C1 _].
    destruct (bounded_canonical prec emax m2 e2 H2) as [C2 _].
    assert (D : Zpos (digits2_pos m1) + e1 < Zpos (digits2_pos m2) + e2).
    { destruct (Z.lt_ge_cases (Zpos (digits2_pos m1) + e1)
                  (Zpos (digits2_pos m2) + e2)) as [?|G]; [assumption|].
      pose proof (fexp_mono prec emax _ _ G). lia. }
    split; [lia|]. split; [|lia].
    destruct (digits_bounds m1) as [_ B1].
    destruct (digits_bounds m2) as [B2 _].
    assert (2 ^ Zpos (digits2_pos m1)
            <= 2 ^ (Zpos (digits2_pos m2) - 1 + (e2 - e1)))
      by (apply Z.pow_le_mono_r; lia).
    rewrite pow2_split in H by lia.
    pose proof (pow2_pos (e2 - e1) ltac:(lia)). nia.
  - split; [lia|]. rewrite Z.sub_diag, Z.mul_1_r. split; [assumption|].
    pose proof (digits_mono m1 m2 L). lia.
Qed.

End Location.

Lemma one_SF : Prim2SF 1 = S754_finite false 4503599627370496 (-52).
Proof. reflexivity. Qed.

(** [x / y <= 1] for two positive floats with [x <= y]. *)
Lemma SFdiv_le_one (mx : positive) (ex : Z) (my : positive) (ey : Z) :
  bounded prec emax mx ex = true -> bounded prec emax my ey = true ->
  ex < ey \/ (ex = ey /\ Zpos mx <= Zpos my) ->
  SFleb (SF64div (S754_finite false mx ex) (S754_finite false my ey))
        (S754_finite false 4503599627370496 (-52)) = true.
Proof.
  intros Hx Hy Hle.
  destruct (canonical_le prec emax mx ex my ey Hx Hy Hle) as (He & Hm & Hd).
  cbn [SF64div SFdiv xorb]. unfold SFdiv_core_binary. cbn [Zdigits2].
  set (D := Zpos (digits2_pos mx) + ex - (Zpos (digits2_pos my) + ey)).
  set (e' := Z.min (SpecFloat.fexp prec emax D) (ex - ey)).
  assert (He' : e' <= -53).
  { assert (SpecFloat.fexp prec emax D <= -53)
      by (unfold SpecFloat.fexp, SpecFloat.emin, prec, emax, D in *; lia).
    unfold e'. lia. }
  set (s := ex - ey - e').
  assert (Hs : 0 <= s) by (unfold s, e'; lia).
  set (m' := match s with Z0 => _ | Zpos _ => _ | Zneg _ => _ end).
  assert (Em : m' = Zpos mx * 2 ^ s).
  { subst m'. destruct s as [|p|p] eqn:Es; [cbn; lia | | lia].
    rewrite Z.shiftl_mul_pow2 by lia. reflexivity. }
  pose proof (pow2_pos s Hs) as Ps.
  pose proof (pow2_pos (ey - ex) ltac:(lia)) as Pd.
  pose proof (pow2_pos (- e') ltac:(lia)) as Pe.
  assert (EK : 2 ^ (ey - ex) * 2 ^ s = 2 ^ (- e')).
  { rewrite <- pow2_split by lia. f_equal. unfold s. lia. }
  assert (Hbound : m' <= Zpos my * 2 ^ (- e')).
  { rewrite Em, <- EK. nia. }
  pose proof (Z_div_mod m' (Zpos my) eq_refl) as Hdiv.
  destruct (Z.div_eucl m' (Zpos my)) as [q r]. destruct Hdiv as [Eq Hr].
  assert (Hq : 0 <= q) by nia.
  apply leb_mag_le_pos.
  apply bra_le; [reflexivity | assumption | lia |].
  replace (-52 - e') with (- e' - 52) by lia.
  assert (E2 : 4503599627370496 * 2 ^ (- e' - 52) = 2 ^ (- e')).
  { change 4503599627370496 with (2 ^ 52). rewrite <- pow2_split by lia.
    f_equal. lia. }
  rewrite E2.
  destruct (Z.eq_dec r 0) as [-> | Nr].
  - right. split; [|nia].
    unfold new_location, new_location_even, new_location_odd.
    destruct (Z.even _); reflexivity.
  - left. nia.
Qed.

End Quot.

(** ** The sign of sums, products and quotients

    Enough to see that the Wilder average of values that are not negative
    is not negative: the factor by which [ewm] ages its weights lies
    between 0 and 1, and no operation of the loop turns two floats that
    are not negative into a negative one. *)
Module Sign.

Import IEEE.
Import SignBit.

Lemma nonneg_or_nan_SF (x : float) :
  nonneg_or_nan x = true <-> SF_nn (Prim2SF x).
Proof.
  unfold nonneg_or_nan. rewrite orb_true_iff, F.isnan_SF, Order.leb_zero_SF.
  destruct (Prim2SF x) as [s|s| |s m e]; cbn; intuition congruence.
Qed.

Lemma SF_ps_nn (x : spec_float) : SF_ps x -> SF_nn x.
Proof. destruct x; cbn; auto. Qed.

Lemma SFmul_nn (x y : spec_float) : SF_nn x -> SF_nn y -> SF_nn (SF64mul x y).
Proof.
  destruct x as [sx|sx| |sx mx ex], y as [sy|sy| |sy my ey];
    cbn [SF64mul SFmul SF_nn]; try tauto; intros Hx Hy; subst;
    cbn [xorb]; try reflexivity.
  destruct (Order.binary_round_aux_sign prec emax false (Zpos (mx * my))
              (ex + ey) loc_Exact) as [-> |[-> |(m2 & e2 & ->)]];
    cbn; auto.
  lia.
Qed.

Lemma binary_normalize_pos (m e : Z) :
  (0 <= m)%Z -> SF_ps (binary_normalize prec emax m e false).
Proof.
  intros H. destruct m as [|p|p]; [reflexivity| |lia].
  cbn [binary_normalize].
  destruct (Round.round_sign prec emax false p e)
    as [-> |[-> |(m2 & e2 & ->)]]; reflexivity.
Qed.

(** The sum of a float that is not negative and one with the sign bit
    clear has the sign bit clear. *)
Lemma SFadd_ps (x y : spec_float) : SF_nn x -> SF_ps y -> SF_ps (SF64add x y).
Proof.
  destruct x as [sx|sx| |sx mx ex], y as [sy|sy| |sy my ey];
    cbn [SF64add SFadd SF_nn SF_ps]; try tauto; intros Hx Hy; subst;
    try reflexivity.
  - destruct sx; reflexivity.
  - apply binary_normalize_pos. cbn [cond_Zopp]. lia.
Qed.

Lemma SFadd_nn (x y : spec_float) : SF_nn x -> SF_nn y -> SF_nn (SF64add x y).
Proof.
  destruct x as [sx|sx| |sx mx ex], y as [sy|sy| |sy my ey];
    cbn [SF64add SFadd SF_nn]; try tauto; intros Hx Hy; subst;
    try reflexivity.
  - destruct sx, sy; exact I.
  - apply SF_ps_nn, binary_normalize_pos. cbn [cond_Zopp]. lia.
Qed.

Lemma SFabs_ps (x : spec_float) : SF_ps (SFabs x).
Proof. destruct x; reflexivity. Qed.

(** A float that is not negative over one with the sign bit clear is not
    negative. *)
Lemma SFdiv_nn (x y : spec_float) : SF_nn x -> SF_ps y -> SF_nn (SF64div x y).
Proof.
  destruct x as [sx|sx| |sx mx ex], y as [sy|sy| |sy my ey];
    cbn [SF64div SFdiv SF_nn SF_ps]; try tauto; intros Hx Hy; subst;
    cbn [xorb]; try reflexivity.
  unfold SFdiv_core_binary.
  set (m' := match _ with Z0 => _ | Zpos _ => _ | Zneg _ => _ end).
  assert (Hm : (0 <= m')%Z).
  { subst m'. destruct (_ - _)%Z; try lia. apply Z.shiftl_nonneg. lia. }
  pose proof (Z.div_pos m' (Zpos my) Hm eq_refl) as Hq.
  unfold Z.div in Hq. destruct (Z.div_eucl m' (Zpos my)) as [q r].
  cbn [fst] in Hq.
  destruct (Order.binary_round_aux_sign prec emax false q
              (Z.min (SpecFloat.fexp prec emax
                        (Zdigits2 (Zpos mx) + ex - (Zdigits2 (Zpos my) + ey)))
                     (ex - ey))
              (new_location (Zpos my) r) Hq)
    as [-> |[-> |(m2 & e2 & ->)]]; reflexivity.
Qed.

(** [y - x] is not negative when [x <= y] and [y] is finite. *)
Lemma SFsub_nn (x y : spec_float) :
  valid_binary x = true -> valid_binary y = true ->
  SF_finite y -> SFleb x y = true -> SF_nn (SF64sub y x).
Proof.
  intros Vx Vy Fy Hle.
  destruct y as [sy|sy| |sy my ey]; try contradiction;
    destruct x as [sx|sx| |sx mx ex];
    cbn [SF64sub SFsub SF_nn negb]; try exact I; try discriminate;
    unfold SFleb, SFcompare in Hle.
  - destruct sy, sx; exact I.
  - destruct sx; [reflexivity | discriminate].
  - destruct sx; [reflexivity | discriminate].
  - destruct sy; [discriminate | reflexivity].
  - destruct sx; [reflexivity | destruct sy; discriminate].
  - cbn [valid_binary] in Vx, Vy.
    apply SF_ps_nn, binary_normalize_pos.
    set (ez := Z.min ey ex).
    rewrite (Round.shl_align_fst my ey ez), (Round.shl_align_fst mx ex ez)
      by lia.
    pose proof (Round.pow2_pos (ey - ez) ltac:(lia)) as Py.
    pose proof (Round.pow2_pos (ex - ez) ltac:(lia)) as Px.
    destruct sx, sy; cbn [cond_Zopp].
    + assert (C : (ey < ex \/ (ey = ex /\ Zpos my <= Zpos mx))%Z).
      { destruct (Z.compare_spec ex ey) as [E|L|G]; [|discriminate|lia].
        right. split; [lia|].
        rewrite Pos.compare_cont_spec in Hle. cbn in Hle.
        destruct (Pos.compare_spec mx my); cbn in Hle; try discriminate; lia. }
      destruct (Quot.canonical_le prec emax my ey mx ex Vy Vx C)
        as (He & Hm & _).
      replace ez with ey by lia. rewrite Z.sub_diag, Z.mul_1_r. lia.
    + lia.
    + discriminate.
    + assert (C : (ex < ey \/ (ex = ey /\ Zpos mx <= Zpos my))%Z).
      { destruct (Z.compare_spec ex ey) as [E|L|G]; [|lia|discriminate].
        right. split; [lia|].
        rewrite Pos.compare_cont_spec in Hle. cbn in Hle.
        destruct (Pos.compare_spec mx my); cbn in Hle; try discriminate; lia. }
      destruct (Quot.canonical_le prec emax mx ex my ey Vx Vy C)
        as (He & Hm & _).
      replace ez with ex by lia. rewrite Z.sub_diag, Z.mul_1_r. lia.
Qed.

(** An integer above zero, as a float, is at least 1. *)
Lemma SF_of_pos_ge_one (m : positive) :
  SFleb (S754_finite false 4503599627370496 (-52))
        (binary_round prec emax false m 0) = true.
Proof.
  destruct (Z.le_gt_cases 4503599627370496 (Zpos m)) as [L|L].
  - destruct (Round.round_ge prec emax Round.prec_pos false m 0
                4503599627370496 0 eq_refl (Z.le_refl 0))
      as [-> |(m2 & e2 & -> & H)];
      [rewrite Z.sub_diag, Z.mul_1_r; exact L | reflexivity |].
    unfold SFleb, SFcompare.
    destruct (Z.compare_spec (-52) e2); solve [lia | reflexivity].
  - destruct (Round.binary_round_spec prec emax false m 0) as (m1 & _ & H & ->).
    cbn zeta in H.
    destruct (Round.digits_bounds m) as [B1 B2].
    set (d := Zpos (digits2_pos m)) in *.
    assert (Hd : (1 <= d <= 52)%Z).
    { split; [unfold d; lia|].
      destruct (Z.le_gt_cases d 52) as [?|G]; [assumption|].
      assert (2 ^ 52 <= 2 ^ (d - 1))%Z by (apply Z.pow_le_mono_r; lia).
      change (2 ^ 52)%Z with 4503599627370496%Z in *. lia. }
    rewrite Z.add_0_r in *.
    assert (EA : SpecFloat.fexp prec emax d = (d - 53)%Z)
      by (unfold SpecFloat.fexp, SpecFloat.emin, prec, emax; lia).
    rewrite EA in *. specialize (H ltac:(lia)).
    replace (0 - (d - 53))%Z with (53 - d)%Z in H by lia.
    pose proof (Round.pow2_pos (53 - d) ltac:(lia)) as P.
    assert (D1 : Zdigits2 m1 = 53%Z).
    { rewrite H, Round.Zdigits2_shift by lia. cbn [Zdigits2]. fold d. lia. }
    rewrite D1. replace (53 + (d - 53))%Z with d by lia. rewrite EA.
    rewrite Z.sub_diag. cbn [Z.max]. rewrite Z.add_0_r.
    change (2 ^ 0)%Z with 1%Z. rewrite Z.div_1_r.
    assert (Pm : (0 < m1)%Z) by (rewrite H; apply Z.mul_pos_pos; lia).
    unfold round_result. destruct m1 as [|p1|p1] eqn:E1; try lia.
    destruct (Z.leb_spec (d - 53) (emax - prec)) as [_|G];
      [|unfold emax, prec in G; lia].
    unfold SFleb, SFcompare.
    destruct (Z.compare_spec (-52) (d - 53)) as [E|_|G]; [|reflexivity|lia].
    assert (Ed : d = 1%Z) by lia.
    rewrite Pos.compare_cont_spec. cbn [Pos.switch_Eq].
    destruct (Pos.compare_spec 4503599627370496 p1) as [|_|G];
      [reflexivity | reflexivity |].
    exfalso. rewrite Ed in H.
    change (2 ^ (53 - 1))%Z with 4503599627370496%Z in H.
    apply Pos2Z.pos_lt_pos in G. clear - H G. lia.
Qed.

Lemma float_of_nat_cases (n : nat) :
  Prim2SF (Pandas.float_of_nat n) = S754_zero false
  \/ PrimFloat.leb 1 (Pandas.float_of_nat n) = true.
Proof.
  unfold Pandas.float_of_nat. rewrite leb_spec, of_uint63_spec, Quot.one_SF.
  pose proof (Uint63.to_Z_bounded (Uint63.of_Z (Z.of_nat n))) as [B _].
  destruct (Uint63.to_Z _) as [|m|m]; [left; reflexivity| |lia].
  right. apply SF_of_pos_ge_one.
Qed.

(** [1 / y <= 1] when [1 <= y]. *)
Lemma div_le_one (y : float) :
  PrimFloat.leb 1 y = true -> PrimFloat.leb (1 / y) 1 = true.
Proof.
  rewrite !leb_spec, div_spec, Quot.one_SF.
  pose proof (Prim2SF_valid y) as V.
  destruct (Prim2SF y) as [s|s| |s m e]; unfold SFleb at 1, SFcompare;
    try discriminate.
  - destruct s; [discriminate | reflexivity].
  - destruct s; [discriminate|]. intros H.
    apply Quot.SFdiv_le_one; [reflexivity | exact V |].
    destruct (Z.compare_spec (-52) e) as [E|L|G]; [|auto|discriminate].
    right. split; [assumption|].
    rewrite Pos.compare_cont_spec in H. cbn in H.
    destruct (Pos.compare_spec 4503599627370496 m); cbn in H;
      try discriminate; lia.
Qed.

(** [1 - x] is not negative when [x <= 1]. *)
Lemma one_sub_nn (x : float) :
  PrimFloat.leb x 1 = true -> nonneg_or_nan (1 - x) = true.
Proof.
  rewrite leb_spec. intros H. apply nonneg_or_nan_SF. rewrite sub_spec.
  apply SFsub_nn;
    [apply Prim2SF_valid | apply Prim2SF_valid | exact I | exact H].
Qed.

Lemma mul_nn (x y : float) :
  nonneg_or_nan x = true -> nonneg_or_nan y = true ->
  nonneg_or_nan (x * y) = true.
Proof.
  rewrite !nonneg_or_nan_SF, mul_spec. apply SFmul_nn.
Qed.

Lemma add_nn (x y : float) :
  nonneg_or_nan x = true -> nonneg_or_nan y = true ->
  nonneg_or_nan (x + y) = true.
Proof.
  rewrite !nonneg_or_nan_SF, add_spec. apply SFadd_nn.
Qed.

Lemma div_nn (x y : float) :
  nonneg_or_nan x = true -> SF_ps (Prim2SF y) ->
  nonneg_or_nan (x / y) = true.
Proof.
  rewrite !nonneg_or_nan_SF, div_spec. apply SFdiv_nn.
Qed.

Lemma add_ps (x y : float) :
  nonneg_or_nan x = true -> SF_ps (Prim2SF y) -> SF_ps (Prim2SF (x + y)).
Proof.
  rewrite nonneg_or_nan_SF, add_spec. apply SFadd_ps.
Qed.

Lemma abs_ps (x : float) : SF_ps (Prim2SF (PrimFloat.abs x)).
Proof. rewrite abs_spec. apply SFabs_ps. Qed.

Lemma nan_nn (x : float) : Py.isnan x = true -> nonneg_or_nan x = true.
Proof. unfold nonneg_or_nan. now intros ->. Qed.

Lemma leb_nn (x : float) : PrimFloat.leb 0 x = true -> nonneg_or_nan x = true.
Proof. unfold nonneg_or_nan. intros ->. apply orb_true_r. Qed.

(** The factor [1 - 1 / (1 + com)] by which [ewm] ages its weights, for
    the centre of mass of [alpha = 1 / n]: not negative, whatever [n]. *)
Lemma decay_nn (n : nat) :
  let alpha := (1 / Pandas.float_of_nat n)%float in
  let com := ((1 - alpha) / alpha)%float in
  nonneg_or_nan (1 - 1 / (1 + com))%float = true.
Proof.
  cbn zeta. destruct (float_of_nat_cases n) as [Z|G].
  - apply nan_nn, F.isnan_SF.
    rewrite sub_spec, div_spec, add_spec, div_spec, sub_spec, div_spec, Z.
    reflexivity.
  - set (alpha := (1 / Pandas.float_of_nat n)%float).
    pose proof (div_le_one _ G) as La. fold alpha in La.
    assert (Pa : SF_ps (Prim2SF alpha)).
    { unfold alpha. rewrite div_spec, Quot.one_SF.
      rewrite leb_spec, Quot.one_SF in G.
      assert (N : SF_nn (SF64div (S754_finite false 4503599627370496 (-52))
                           (Prim2SF (Pandas.float_of_nat n)))).
      { apply SFdiv_nn; [reflexivity|].
        destruct (Prim2SF (Pandas.float_of_nat n)) as [s|s| |s m e];
          cbn in G |- *; try discriminate; destruct s; try discriminate;
          reflexivity. }
      destruct (Prim2SF (Pandas.float_of_nat n)) as [s|s| |s m e];
        try discriminate G.
      - destruct s; [discriminate G | reflexivity].
      - destruct s; [discriminate G|].
        destruct (SF64div _ _) as [s2|s2| |s2 m2 e2] eqn:E; cbn in N |- *;
          auto.
        cbn in E. revert E. unfold SFdiv_core_binary.
        set (m' := match _ with Z0 => _ | Zpos _ => _ | Zneg _ => _ end).
        destruct (Z.div_eucl m' (Zpos m)) as [q r] eqn:Ed.
        intros E.
        destruct (Order.binary_round_aux_sign prec emax false q
                    (Z.min (SpecFloat.fexp prec emax
                              (Zdigits2 4503599627370496 + -52
                               - (Zdigits2 (Zpos m) + e)))
                           (-52 - e))
                    (new_location (Zpos m) r)) as [H|[H|(m3 & e3 & H)]].
        + pose proof (Z_div_mod m' (Zpos m) eq_refl) as Hd.
          rewrite Ed in Hd. destruct Hd as [Hd1 Hd2].
          assert (0 <= m')%Z; [|nia].
          subst m'. destruct (_ - _)%Z; try lia. apply Z.shiftl_nonneg. lia.
        + rewrite H in E. injection E as <-. reflexivity.
        + rewrite H in E. discriminate.
        + rewrite H in E. discriminate. }
    set (com := ((1 - alpha) / alpha)%float).
    assert (Nc : nonneg_or_nan com = true)
      by (apply div_nn; [now apply one_sub_nn | exact Pa]).
    unfold nonneg_or_nan in Nc. apply orb_true_iff in Nc as [Nc|Nc].
    + apply nan_nn. apply F.isnan_eq in Nc. rewrite Nc.
      rewrite F.add_nan_r, F.div_nan_r, F.sub_nan_r. reflexivity.
    + apply one_sub_nn, div_le_one.
      apply (Order.add_ge_self 1 com eq_refl Nc).
Qed.

Lemma one_ps : SF_ps (Prim2SF 1).
Proof. reflexivity. Qed.

Lemma ps_nn (x : float) : SF_ps (Prim2SF x) -> nonneg_or_nan x = true.
Proof. intros H. apply nonneg_or_nan_SF. now apply SF_ps_nn. Qed.

(** A float that is not below zero is NaN or at least zero. *)
Lemma not_lt_zero_nn (x : float) :
  PrimFloat.ltb x 0 = false -> nonneg_or_nan x = true.
Proof.
  rewrite ltb_spec. change (Prim2SF 0) with (S754_zero false).
  intros H. apply nonneg_or_nan_SF.
  unfold SFltb, SFcompare in H.
  destruct (Prim2SF x) as [s|s| |s m e]; cbn; auto;
    destruct s; auto; discriminate.
Qed.

Lemma clip_negative_nn (x : float) : nonneg_or_nan (TA.clip_negative x) = true.
Proof.
  unfold TA.clip_negative, Py.lt.
  destruct (PrimFloat.ltb x 0) eqn:E; [reflexivity|].
  now apply not_lt_zero_nn.
Qed.

Lemma nanmax_nn (a b : float) :
  nonneg_or_nan a = true -> nonneg_or_nan b = true ->
  nonneg_or_nan (Pandas.nanmax a b) = true.
Proof.
  intros Ha Hb. unfold Pandas.nanmax.
  destruct (Py.isnan a); [assumption|].
  destruct (Py.isnan b); [assumption|].
  destruct (PrimFloat.ltb a b); assumption.
Qed.

Lemma range_max_nn (a b c : float) :
  nonneg_or_nan (TA.range_max a b c) = true.
Proof.
  unfold TA.range_max.
  repeat apply nanmax_nn; apply ps_nn, abs_ps.
Qed.

Lemma rsi_value_nn (p l : float) :
  nonneg_or_nan p = true -> nonneg_or_nan (TA.rsi_value p l) = true.
Proof.
  intros Hp. unfold TA.rsi_value.
  apply div_nn.
  - apply mul_nn; [reflexivity | assumption].
  - apply add_ps; [assumption | apply abs_ps].
Qed.

(** One turn of the loop of [ewm] keeps the average and its weight from
    going below zero, when the values and the factor do not. *)
Lemma ewm_step_nn (f : float) (st : Pandas.ewm_state) (x : float) :
  nonneg_or_nan f = true ->
  nonneg_or_nan (Pandas.weighted st) = true ->
  nonneg_or_nan (Pandas.old_wt st) = true ->
  nonneg_or_nan x = true ->
  nonneg_or_nan (Pandas.weighted (Pandas.ewm_step f 1 st x)) = true
  /\ nonneg_or_nan (Pandas.old_wt (Pandas.ewm_step f 1 st x)) = true.
Proof.
  intros Hf Hw Ho Hx. unfold Pandas.ewm_step.
  assert (How : nonneg_or_nan (Pandas.old_wt st * f) = true)
    by now apply mul_nn.
  assert (Hden : SF_ps (Prim2SF (Pandas.old_wt st * f + 1)))
    by (apply add_ps; [assumption | apply one_ps]).
  destruct (Pandas.is_observation (Pandas.weighted st));
    destruct (Pandas.is_observation x);
    cbn [Pandas.weighted Pandas.old_wt]; auto.
  split; [|now apply ps_nn].
  destruct (negb _); [|assumption].
  apply div_nn; [|assumption].
  apply add_nn; apply mul_nn; auto.
Qed.

Lemma ewm_from_nn (f : float) (minp : nat) (xs : list float) :
  nonneg_or_nan f = true ->
  Forall (fun x => nonneg_or_nan x = true) xs ->
  forall st,
    nonneg_or_nan (Pandas.weighted st) = true ->
    nonneg_or_nan (Pandas.old_wt st) = true ->
    Forall (fun x => nonneg_or_nan x = true) (Pandas.ewm_from f 1 minp st xs).
Proof.
  intros Hf Hxs. induction Hxs as [|x xs Hx _ IH]; intros st Hw Ho;
    cbn [Pandas.ewm_from]; constructor.
  - destruct (ewm_step_nn f st x Hf Hw Ho Hx) as [H1 _].
    unfold Pandas.ewm_output. destruct (_ <=? _); [assumption|reflexivity].
  - destruct (ewm_step_nn f st x Hf Hw Ho Hx) as [H1 H2]. now apply IH.
Qed.

(** The Wilder average of values that are not negative is not negative. *)
Lemma ewm_mean_nn (n minp : nat) (s : list float) :
  Forall (fun x => nonneg_or_nan x = true) s ->
  Forall (fun x => nonneg_or_nan x = true)
         (Pandas.ewm_mean (1 / Pandas.float_of_nat n)%float minp s).
Proof.
  intros Hs. unfold Pandas.ewm_mean. destruct Hs as [|x s Hx Hs]; constructor.
  - unfold Pandas.ewm_output. cbn [Pandas.weighted].
    destruct (_ <=? _); [assumption|reflexivity].
  - apply ewm_from_nn; [apply (decay_nn n) | assumption | assumption|].
    reflexivity.
Qed.

Lemma rma_nn (s : list float) (n : nat) (r : list float) :
  TA.rma s n = Some r ->
  Forall (fun x => nonneg_or_nan x = true) s ->
  Forall (fun x => nonneg_or_nan x = true) r.
Proof.
  unfold TA.rma. intros H Hs.
  destruct (TA.verify_series s (TA.length_or 10 n)) as [c|] eqn:E;
    [|discriminate].
  cbn [bind] in H. injection H as <-.
  unfold TA.verify_series in E. destruct (_ <? _); [discriminate|].
  injection E as <-. now apply ewm_mean_nn.
Qed.

Lemma zip_rsi_value_nn (ps ls : list float) :
  Forall (fun x => nonneg_or_nan x = true) ps ->
  Forall (fun x => nonneg_or_nan x = true) (Pandas.zip_with TA.rsi_value ps ls).
Proof.
  intros H. revert ls. induction H as [|p ps Hp _ IH]; intros [|l ls];
    cbn [Pandas.zip_with]; constructor; auto.
  now apply rsi_value_nn.
Qed.

Lemma rsi_nn (close : list float) (length : nat) (r : list float) :
  TA.rsi close length = Some r ->
  Forall (fun x => nonneg_or_nan x = true) r.
Proof.
  unfold TA.rsi, TA.rsi_averages. intros H.
  destruct (TA.verify_series close (TA.length_or 14 length)) as [c|];
    [|discriminate].
  cbn [bind] in H.
  destruct (TA.rma (map TA.clip_negative (Pandas.diff c)) _) as [p|] eqn:Ep;
    [|discriminate].
  cbn [bind] in H.
  destruct (TA.rma (map TA.clip_positive (Pandas.diff c)) _) as [l|];
    [|discriminate].
  cbn [bind fst snd] in H. injection H as <-.
  apply zip_rsi_value_nn. apply (rma_nn _ _ _ Ep).
  apply Forall_map, Forall_forall. intros x _. apply clip_negative_nn.
Qed.

Lemma zip_range_max_nn (xs ys zs : list float) :
  Forall (fun x => nonneg_or_nan x = true) (TA.zip_with3 TA.range_max xs ys zs).
Proof.
  revert ys zs. induction xs as [|x xs IH]; intros [|y ys] [|z zs];
    cbn [TA.zip_with3]; constructor; auto.
  apply range_max_nn.
Qed.

Lemma true_range_nn (high low close : list float) :
  Forall (fun x => nonneg_or_nan x = true) (TA.true_range high low close).
Proof.
  unfold TA.true_range.
  pose proof (zip_range_max_nn (TA.non_zero_range high low)
                (Pandas.zip_with PrimFloat.sub high (Pandas.shift close))
                (Pandas.zip_with PrimFloat.sub (Pandas.shift close) low)) as H.
  destruct (TA.zip_with3 _ _ _ _) as [|x rest]; [constructor|].
  inversion H; subst. constructor; [reflexivity | assumption].
Qed.

Lemma atr_nn (high low close : list float) (length : nat) (r : list float) :
  TA.atr high low close length = Some r ->
  Forall (fun x => nonneg_or_nan x = true) r.
Proof.
  unfold TA.atr. intros H.
  destruct (TA.verify_series high _) as [h|]; [|discriminate].
  destruct (TA.verify_series low _) as [l|]; [|discriminate].
  destruct (TA.verify_series close _) as [c|]; [|discriminate].
  cbn [bind] in H. apply (rma_nn _ _ _ H), true_range_nn.
Qed.

End Sign.

(** ** The sign of the indicators, and the levels of a run *)

(** X13.  The custom RSI is never negative: every entry of the series
    [custom_rsi] returns is NaN or at least zero, whatever the prices and
    volumes (negative, infinite or NaN ones included). *)
Theorem rsi_never_negative (data : DataFrame) (length : nat)
    (r : list float) (x : float) :
  custom_rsi data length = Some r -> In x r -> nonneg_or_nan x = true.
Proof.
  intros H Hx. unfold custom_rsi in H.
  exact (proj1 (Forall_forall _ _) (Sign.rsi_nn _ _ _ H) x Hx).
Qed.

Lemma rsi_never_negative_witness : nonneg_or_nan 100 = true.
Proof.
  apply (rsi_never_negative rising_bars 2
           [Pandas.nan; Pandas.nan; Pandas.nan; 100%float] 100 eq_refl).
  cbn. tauto.
Defined.

(** X14.  The ATR that [init] computes is never negative: every entry is
    NaN or at least zero. *)
Theorem atr_never_negative (p : Params) (data : DataFrame)
    (ind : Indicators) (a : float) :
  init p data = Some ind -> In a (ind_atr ind) -> nonneg_or_nan a = true.
Proof.
  intros H Ha. destruct (init_parts p data ind H) as (_ & _ & Eatr).
  exact (proj1 (Forall_forall _ _) (Sign.atr_nn _ _ _ _ _ Eatr) a Ha).
Qed.

Lemma atr_never_negative_witness : nonneg_or_nan 1 = true.
Proof.
  apply (atr_never_negative (with_periods 1 2 1 default_params) zigzag_bars
           (mkIndicators [Pandas.nan; 100; 0; 100]%float
                         [Pandas.nan; 1.5; 1.5; 1.5]%float
                         [Pandas.nan; 1; 1; 1]%float) 1 eq_refl).
  cbn. tauto.
Defined.

(** X15.  In a run, the levels of every OpenLong are in order.  When the
    close of bar [i] is finite and the two multipliers are finite and
    positive, an OpenLong that [next] emits at bar [i] over the indicators
    of [init] has a stop-loss and a take-profit that are not NaN, with
    stopLoss <= close[i] <= takeProfit: the ATR that passed the guard of
    line 160 is not NaN, hence not negative. *)
Theorem run_levels_ordered (p : Params) (data : DataFrame)
    (pos : PositionState) (i : nat) (bar : Bar) (out : list Intent)
    (sl tp : float) :
  nth_error data i = Some bar ->
  PrimFloat.is_finite (Close bar) = true ->
  finite_positive (atr_multiplier_sl p) = true ->
  finite_positive (atr_multiplier_tp p) = true ->
  run_bar p data pos i = Some out ->
  In (OpenLong sl tp) out ->
  Py.isnan sl = false /\ Py.isnan tp = false
  /\ Py.le sl (Close bar) = true /\ Py.le (Close bar) tp = true.
Proof.
  intros Hb Fc Fsl Ftp Hrun Hin.
  destruct (init p data) as [ind|] eqn:Hi;
    [|unfold run_bar in Hrun; rewrite Hi in Hrun; discriminate].
  destruct (run_bar_at p data ind pos i bar Hi Hb) as (s & a & Hs & Ha & E).
  rewrite E in Hrun. injection Hrun as <-.
  destruct (open_long_emitted p _ _ _ _ pos i _ s a _ Hin eq_refl)
    as (Eo & Hrdy & _).
  assert (Na : Py.isnan a = false).
  { unfold ready, defined in Hrdy. rewrite Hs, Ha in Hrdy.
    apply andb_true_iff in Hrdy as [_ H]. now apply negb_true_iff in H. }
  assert (Pa : PrimFloat.leb 0 a = true).
  { destruct (init_parts p data ind Hi) as (_ & _ & Eatr).
    pose proof (proj1 (Forall_forall _ _) (Sign.atr_nn _ _ _ _ _ Eatr) a
                  (nth_error_In _ _ Ha)) as N.
    unfold nonneg_or_nan in N. rewrite Na in N. exact N. }
  assert (Esl : sl = stop_loss_level p (Close bar) a)
    by exact (f_equal intent_sl Eo).
  assert (Etp : tp = take_profit_level p (Close bar) a)
    by exact (f_equal intent_tp Eo).
  subst sl tp. unfold stop_loss_level, take_profit_level, Py.le.
  split; [|split; [|split]].
  - apply Order.sub_not_nan; [assumption|]. now apply Order.mul_not_nan.
  - apply Order.add_not_nan; [assumption|]. now apply Order.mul_not_nan.
  - apply Order.sub_le_self; [assumption|]. now apply Order.mul_nonneg.
  - apply Order.add_ge_self; [assumption|]. now apply Order.mul_nonneg.
Qed.

(** Bar 3 of [zigzag_bars], periods 1, 2 and 1: the RSI goes from 0 to
    100, the close 2 is above the SMA 1.5, the ATR is 1. *)
Lemma run_levels_ordered_witness :
  Py.isnan 0.5 = false /\ Py.isnan 7 = false
  /\ Py.le 0.5 2 = true /\ Py.le 2 7 = true.
Proof.
  apply (run_levels_ordered (with_periods 1 2 1 default_params) zigzag_bars
           FLAT 3 (bar_at 2 1) [OpenLong 0.5 7] 0.5 7
           eq_refl eq_refl eq_refl eq_refl eq_refl (or_introl eq_refl)).
Defined.
